(** * Bright Data MCP gateway (server.js): tool execution pipeline

    A shallow embedding of the parts of [server.js] that carry behaviour:
    [parse_rate_limit], [check_rate_limit], [extractUrlParams],
    [authenticate], [tool_fn], [search_url] and the snapshot polling loop of
    the [web_data_*] tools, followed by the properties proved about them.

    Conventions of the embedding.
    - A JavaScript string is a [string]: a sequence of code units, here
      restricted to U+0000..U+00FF (request lines, header values and
      environment variables are of that kind).  The query of a search is
      any string: the list of its 16-bit code units.
    - A JavaScript number is a [js_number]: [NaN], an infinity, or [Num z],
      the double of integer value [z].  Products, sums and the numbers
      read by [parseInt] are rounded to the nearest double, and a number
      is rendered as the program renders it: in decimal digits, shortest
      form from 2^53 on, exponent notation from 10^21 on.
    - [Date.now()] is an input of every function that reads the clock.
    - A function that may throw returns a [result]; an awaited promise is
      the [result] it settles to.
    - The upstream API is an oracle: the answer to each request.
    - [console.error] output is kept for the polling loop only.
    - Invocations are taken one after the other: the interleaving of
      concurrent invocations at their [await] points is not modelled. *)

From stdpp Require Import gmap strings.
From Stdlib Require Import ZArith Ascii Bool Lia DecimalString Sorted.
Import ListNotations.
#[local] Set Warnings "-register-all".
Local Open Scope string_scope.
Local Open Scope Z_scope.

(** ** Results of functions that may throw *)

Inductive result (E A : Type) : Type :=
| Ok (a : A)
| Throw (e : E).
Arguments Ok {E A} a.
Arguments Throw {E A} e.

(** ** JavaScript primitives used by the program *)

Module Js.

(** Numbers.  The program's numbers are IEEE 754 doubles, and the ones it
    computes with are NaN, the two infinities and doubles whose value is an
    integer: [Num z] is the double of value [z].  Both zeros are [Num 0]:
    the program never divides, and the two print and compare alike. *)
Inductive js_number : Type :=
| NaN
| Num (z : Z)
| Infinity
| NegInfinity.

(** The double nearest to a natural number [m], as a natural number: [m]
    itself below 2^53, otherwise its 53 leading bits rounded to nearest,
    ties to the even significand.  A result of 2^1024 or more stands for
    an overflow. *)
Definition nearest_double (m : Z) : Z :=
  if m <? 2 ^ 53 then m
  else
    let e := Z.log2 m - 52 in
    let q := m / 2 ^ e in
    let r := m mod 2 ^ e in
    let half := 2 ^ (e - 1) in
    (if (half <? r) || ((r =? half) && Z.odd q) then q + 1 else q) * 2 ^ e.

(** The number an integer result is stored as. *)
Definition to_double (z : Z) : js_number :=
  let v := nearest_double (Z.abs z) in
  if 2 ^ 1024 <=? v then (if z <? 0 then NegInfinity else Infinity)
  else Num (Z.sgn z * v).

Definition mul (a b : js_number) : js_number :=
  match a, b with
  | NaN, _ | _, NaN => NaN
  | Num x, Num y => to_double (x * y)
  | Num x, Infinity | Infinity, Num x =>
      if x =? 0 then NaN else if 0 <? x then Infinity else NegInfinity
  | Num x, NegInfinity | NegInfinity, Num x =>
      if x =? 0 then NaN else if 0 <? x then NegInfinity else Infinity
  | Infinity, Infinity | NegInfinity, NegInfinity => Infinity
  | Infinity, NegInfinity | NegInfinity, Infinity => NegInfinity
  end.

Definition add (a b : js_number) : js_number :=
  match a, b with
  | NaN, _ | _, NaN => NaN
  | Num x, Num y => to_double (x + y)
  | Infinity, NegInfinity | NegInfinity, Infinity => NaN
  | Infinity, _ | _, Infinity => Infinity
  | NegInfinity, _ | _, NegInfinity => NegInfinity
  end.

(** [a - b].  The program subtracts only a window from a clock value, and
    compares the difference with clock values only.  The difference of two
    integers is kept as it is: against a clock value it compares as its
    rounding does. *)
Definition sub (a b : js_number) : js_number :=
  match a, b with
  | NaN, _ | _, NaN => NaN
  | Num x, Num y => Num (x - y)
  | Infinity, Infinity | NegInfinity, NegInfinity => NaN
  | Infinity, _ | _, NegInfinity => Infinity
  | NegInfinity, _ | _, Infinity => NegInfinity
  end.

(** [a > b] and [a >= b]: false as soon as one side is NaN. *)
Definition gt (a b : js_number) : bool :=
  match a, b with
  | NaN, _ | _, NaN => false
  | Num x, Num y => y <? x
  | Infinity, (Num _ | NegInfinity) => true
  | Num _, NegInfinity => true
  | _, _ => false
  end.

Definition ge (a b : js_number) : bool :=
  match a, b with
  | NaN, _ | _, NaN => false
  | Num x, Num y => y <=? x
  | Infinity, _ | _, NegInfinity => true
  | _, _ => false
  end.

(** The decimal digits of an integer. *)
Definition decimal (z : Z) : string := NilZero.string_of_int (Z.to_int z).

(** [Number::toString] on a double [m] of 2^53 or more: the decimal number
    of fewest significant digits whose nearest double is [m], the closest
    to [m] when two have as few, the one of even last digit when they are
    as close.  [zeros] counts the zeros that end the candidates tried: a
    multiple of [10 ^ zeros] just below [m] and the next one. *)
Fixpoint shortest_decimal (fuel : nat) (zeros m : Z) : Z :=
  match fuel with
  | O => m
  | S f =>
      let step := 10 ^ zeros in
      let below := m / step * step in
      let above := below + step in
      let fits c := nearest_double c =? m in
      if fits below && fits above
      then (if m - below <? above - m then below
            else if above - m <? m - below then above
            else if Z.even (m / step) then below else above)
      else if fits below then below
      else if fits above then above
      else shortest_decimal f (zeros - 1) m
  end.

Fixpoint drop_zeros (reversed : list ascii) : list ascii :=
  match reversed with
  | "0"%char :: r => drop_zeros r
  | _ => reversed
  end.

(** The digits of a numeral without the zeros that end it. *)
Definition significand (digits : string) : string :=
  String.string_of_list_ascii
    (List.rev (drop_zeros (List.rev (String.list_ascii_of_string digits)))).

(** Exponent notation, used from 10^21 on: [d.ddde+n]. *)
Definition exponent_form (c : Z) : string :=
  let digits := decimal c in
  let e := decimal (Z.of_nat (String.length digits) - 1) in
  match significand digits with
  | String d EmptyString => String d ("e+" ++ e)
  | String d r => String d ("." ++ r ++ "e+" ++ e)
  | EmptyString => digits
  end.

Definition magnitude_to_string (m : Z) : string :=
  if m <? 2 ^ 53 then decimal m
  else
    let d := String.length (decimal m) in
    let c := shortest_decimal d (Z.of_nat d - 1) m in
    if c <? 10 ^ 21 then decimal c else exponent_form c.

(** Template-literal rendering of a number. *)
Definition number_to_string (n : js_number) : string :=
  match n with
  | NaN => "NaN"
  | Num z => if z <? 0 then "-" ++ magnitude_to_string (- z)
             else magnitude_to_string z
  | Infinity => "Infinity"
  | NegInfinity => "-Infinity"
  end.

(** Characters. *)
Definition code (c : ascii) : Z := Z.of_N (N_of_ascii c).

Definition in_range (lo hi : Z) (c : ascii) : bool :=
  (lo <=? code c) && (code c <=? hi).

(** [\d] *)
Definition is_digit (c : ascii) : bool := in_range 48 57 c.
Definition is_lower (c : ascii) : bool := in_range 97 122 c.
Definition is_upper (c : ascii) : bool := in_range 65 90 c.

(** White space and line terminators stripped by [parseInt]. *)
Definition is_space (c : ascii) : bool :=
  in_range 9 13 c || (code c =? 32) || (code c =? 160).

(** Strings. *)
Definition is_empty (s : string) : bool :=
  match s with
  | EmptyString => true
  | String _ _ => false
  end.

(** A string is falsy exactly when it is empty. *)
Definition truthy_string (s : string) : bool := negb (is_empty s).

Fixpoint all_chars (p : ascii -> bool) (s : string) : bool :=
  match s with
  | EmptyString => true
  | String c r => p c && all_chars p r
  end.

(** The longest prefix whose characters satisfy [p], and what follows it:
    what a greedy [[class]*] consumes. *)
Fixpoint span (p : ascii -> bool) (s : string) : string * string :=
  match s with
  | EmptyString => (EmptyString, EmptyString)
  | String c r =>
      if p c then let (a, b) := span p r in (String c a, b)
      else (EmptyString, s)
  end.

Fixpoint starts_with (pre s : string) : bool :=
  match pre, s with
  | EmptyString, _ => true
  | String a p, String b r => Ascii.eqb a b && starts_with p r
  | String _ _, EmptyString => false
  end.

(** [s.substring(n)] *)
Fixpoint substring_from (n : nat) (s : string) : string :=
  match n, s with
  | O, _ => s
  | S m, String _ r => substring_from m r
  | S _, EmptyString => EmptyString
  end.

(** [parseInt(s)] with no radix argument: the double nearest to the
    integer the digits denote (every digit is read). *)
Definition digit_value (c : ascii) : Z :=
  if is_digit c then code c - 48
  else if in_range 97 102 c then code c - 87
  else if in_range 65 70 c then code c - 55
  else 0.

Definition is_radix_digit (radix : Z) (c : ascii) : bool :=
  if radix =? 16 then is_digit c || in_range 97 102 c || in_range 65 70 c
  else is_digit c.

Fixpoint digits_value (radix : Z) (acc : Z) (s : string) : Z :=
  match s with
  | EmptyString => acc
  | String c r => digits_value radix (radix * acc + digit_value c) r
  end.

Fixpoint trim_start (s : string) : string :=
  match s with
  | String c r => if is_space c then trim_start r else s
  | EmptyString => EmptyString
  end.

Definition strip_sign (s : string) : Z * string :=
  match s with
  | String "-" r => (-1, r)
  | String "+" r => (1, r)
  | _ => (1, s)
  end.

Definition strip_radix (s : string) : Z * string :=
  match s with
  | String "0" (String "x" r) => (16, r)
  | String "0" (String "X" r) => (16, r)
  | _ => (10, s)
  end.

Definition parseInt (s : string) : js_number :=
  let (sign, s1) := strip_sign (trim_start s) in
  let (radix, s2) := strip_radix s1 in
  let ds := fst (span (is_radix_digit radix) s2) in
  if is_empty ds then NaN else to_double (sign * digits_value radix 0 ds).

End Js.
Import Js.

(** ** Rate-limit configuration: [parse_rate_limit] *)

Record rate_limit_config : Type := {
  limit : js_number;
  window : js_number;
  display : string
}.

(** [rate_limit_str.match(/^(\d+)\/(\d+)([mhs])$/)]: the three groups.  Both
    digit groups are followed by a character that is no digit, so the greedy
    run is the only candidate. *)
Definition is_unit (c : ascii) : bool :=
  Ascii.eqb c "m" || Ascii.eqb c "h" || Ascii.eqb c "s".

Definition match_rate_limit (s : string) : option (string * string * ascii) :=
  let (lim, r1) := span is_digit s in
  if is_empty lim then None
  else match r1 with
       | String "/" r2 =>
           let (time, r3) := span is_digit r2 in
           if is_empty time then None
           else match r3 with
                | String u EmptyString =>
                    if is_unit u then Some (lim, time, u) else None
                | _ => None
                end
       | _ => None
       end.

Definition multiplier (unit : ascii) : Z :=
  if Ascii.eqb unit "h" then 3600
  else if Ascii.eqb unit "m" then 60
  else 1.

Definition invalid_rate_limit : string :=
  "Invalid RATE_LIMIT format. Use: 100/1h or 50/30m".

(** The argument is [process.env.RATE_LIMIT]: [None] when unset. *)
Definition parse_rate_limit (rate_limit_str : option string)
  : result string (option rate_limit_config) :=
  match rate_limit_str with
  | None => Ok None
  | Some str =>
      if is_empty str then Ok None
      else match match_rate_limit str with
           | None => Throw invalid_rate_limit
           | Some (lim, time, unit) =>
               Ok (Some {| limit := parseInt lim;
                           window := mul (mul (parseInt time)
                                              (Num (multiplier unit)))
                                         (Num 1000);
                           display := str |})
           end
  end.

(** ** Values received from the upstream API *)

(** What axios hands over as [response.data]: parsed JSON, a string, or
    nothing. *)
Inductive js_value : Type :=
| JUndefined
| JNull
| JBool (b : bool)
| JNumber (n : js_number)
| JString (s : string)
| JArray (items : list js_value)
| JObject (fields : list (string * js_value)).

Definition quote_char : ascii := ascii_of_nat 34.
Definition backslash : ascii := ascii_of_nat 92.

Module Value.

Definition truthy (v : js_value) : bool :=
  match v with
  | JUndefined | JNull => false
  | JBool b => b
  | JNumber NaN => false
  | JNumber (Num z) => negb (z =? 0)
  | JNumber (Infinity | NegInfinity) => true
  | JString s => truthy_string s
  | JArray _ | JObject _ => true
  end.

Fixpoint lookup_field (name : string) (fields : list (string * js_value))
  : js_value :=
  match fields with
  | [] => JUndefined
  | (k, v) :: rest =>
      if String.eqb k name then v else lookup_field name rest
  end.

(** [v?.name] for a data property [name]: the program reads [status],
    [snapshot_id] and [length]. *)
Definition prop (name : string) (v : js_value) : js_value :=
  match v with
  | JObject fields => lookup_field name fields
  | JString s =>
      if String.eqb name "length"
      then JNumber (Num (Z.of_nat (String.length s))) else JUndefined
  | JArray items =>
      if String.eqb name "length"
      then JNumber (Num (Z.of_nat (List.length items))) else JUndefined
  | _ => JUndefined
  end.

(** [v === 'text'] *)
Definition is_string (text : string) (v : js_value) : bool :=
  match v with
  | JString s => String.eqb s text
  | _ => false
  end.

Fixpoint join (sep : string) (parts : list string) : string :=
  match parts with
  | [] => ""
  | [p] => p
  | p :: rest => p ++ sep ++ join sep rest
  end.

(** Rendering inside a template literal. *)
Fixpoint to_string (v : js_value) : string :=
  match v with
  | JUndefined => "undefined"
  | JNull => "null"
  | JBool true => "true"
  | JBool false => "false"
  | JNumber n => number_to_string n
  | JString s => s
  | JArray items =>
      join ","
        (List.map (fun item =>
                     match item with
                     | JUndefined | JNull => ""
                     | _ => to_string item
                     end) items)
  | JObject _ => "[object Object]"
  end.

(** [JSON.stringify]. *)
Definition hex_digit (lower : bool) (d : Z) : ascii :=
  ascii_of_N (Z.to_N (if d <? 10 then 48 + d
                      else (if lower then 87 else 55) + d)).

Definition hex2 (lower : bool) (n : Z) : string :=
  String (hex_digit lower (n / 16)) (String (hex_digit lower (n mod 16)) "").

Definition escape_char (c : ascii) : string :=
  if Ascii.eqb c quote_char then String backslash (String quote_char "")
  else if Ascii.eqb c backslash then String backslash (String backslash "")
  else if code c =? 8 then String backslash "b"
  else if code c =? 12 then String backslash "f"
  else if code c =? 10 then String backslash "n"
  else if code c =? 13 then String backslash "r"
  else if code c =? 9 then String backslash "t"
  else if code c <? 32 then String backslash ("u00" ++ hex2 true (code c))
  else String c "".

Fixpoint escape (s : string) : string :=
  match s with
  | EmptyString => ""
  | String c r => escape_char c ++ escape r
  end.

Definition quote (s : string) : string :=
  String quote_char (escape s ++ String quote_char "").

Definition is_undefined (v : js_value) : bool :=
  match v with
  | JUndefined => true
  | _ => false
  end.

(** Fields whose value is [undefined] are left out of an object. *)
Fixpoint stringify_value (v : js_value) : string :=
  match v with
  | JUndefined | JNull | JNumber (NaN | Infinity | NegInfinity) => "null"
  | JBool true => "true"
  | JBool false => "false"
  | JNumber (Num z) => number_to_string (Num z)
  | JString s => quote s
  | JArray items => "[" ++ join "," (List.map stringify_value items) ++ "]"
  | JObject fields =>
      "{" ++ join ","
               (List.flat_map
                  (fun kv =>
                     match kv with
                     | (k, v) =>
                         if is_undefined v then []
                         else [quote k ++ ":" ++ stringify_value v]
                     end) fields)
          ++ "}"
  end.

(** [None] is the [undefined] that [JSON.stringify(undefined)] yields. *)
Definition JSON_stringify (v : js_value) : option string :=
  match v with
  | JUndefined => None
  | _ => Some (stringify_value v)
  end.

End Value.

(** ** Errors *)

(** [e.response] of an axios error. *)
Record http_response : Type := {
  status : Z;
  statusText : string;
  data : js_value
}.

(** A thrown [Error]; [response] is set on errors axios raises for an
    answer with a failure status. *)
Record js_error : Type := {
  message : string;
  response : option http_response
}.

(** [new Error(msg)] *)
Definition Error (msg : string) : js_error :=
  {| message := msg; response := None |}.

(** Outcome of an awaited upstream request. *)
Inductive http_outcome : Type :=
| Resolved (body : js_value)
| Rejected (e : js_error).

(** ** Process state and configuration *)

(** [process.env]: the variables the program reads. *)
Record process_env : Type := {
  WEB_UNLOCKER_ZONE : option string;
  BROWSER_ZONE : option string;
  RATE_LIMIT : option string
}.

(** [debug_stats]: [tool_calls] is a plain object used as a map from tool
    name to count (the tool names of the registry are none of them a
    property of [Object.prototype]). *)
Record debug_stats : Type := {
  tool_calls : gmap string Z;
  session_calls : Z;
  call_timestamps : list Z
}.

Definition initial_stats : debug_stats :=
  {| tool_calls := ∅; session_calls := 0; call_timestamps := [] |}.

(** [a || b] on values that are a string or undefined. *)
Definition truthy_opt (a : option string) : bool :=
  match a with
  | Some s => truthy_string s
  | None => false
  end.

Definition or_else (a b : option string) : option string :=
  if truthy_opt a then a else b.

Definition or_default (a : option string) (b : string) : string :=
  match a with
  | Some s => if truthy_string s then s else b
  | None => b
  end.

(** Line 34: [process.env.WEB_UNLOCKER_ZONE || 'mcp_unlocker']. *)
Definition unlocker_zone (env : process_env) : string :=
  or_default (WEB_UNLOCKER_ZONE env) "mcp_unlocker".

(** ** Rate limiter: [check_rate_limit] *)

Definition rate_limit_exceeded (cfg : rate_limit_config) : js_error :=
  Error ("Rate limit exceeded: " ++ display cfg).

(** [now] is the value of [Date.now()].  The pruned list is stored before
    the limit is tested, so it is kept on both exits. *)
Definition check_rate_limit (rate_limit_config : option rate_limit_config)
    (now : Z) (st : debug_stats) : result js_error bool * debug_stats :=
  match rate_limit_config with
  | None => (Ok true, st)
  | Some cfg =>
      let window_start := sub (Num now) (window cfg) in
      let kept :=
        List.filter (fun timestamp => gt (Num timestamp) window_start)
                    (call_timestamps st) in
      if ge (Num (Z.of_nat (List.length kept))) (limit cfg)
      then (Throw (rate_limit_exceeded cfg),
            {| tool_calls := tool_calls st;
               session_calls := session_calls st;
               call_timestamps := kept |})
      else (Ok true,
            {| tool_calls := tool_calls st;
               session_calls := session_calls st;
               call_timestamps := kept ++ [now] |})
  end.

(** ** Session authenticator *)

Record request : Type := {
  url : option string;
  authorization : option string
}.

(** [[a-zA-Z0-9_-]] *)
Definition is_token_char (c : ascii) : bool :=
  is_lower c || is_upper c || is_digit c
  || Ascii.eqb c "_" || Ascii.eqb c "-".

(** [url.match(/key([a-zA-Z0-9_-]+)/)], group 1: at the leftmost position
    where [key] is followed by at least one character of the class, the
    longest run of such characters. *)
Fixpoint match_param (key : string) (url : string) : option string :=
  let here :=
    if starts_with key url
    then fst (span is_token_char (substring_from (String.length key) url))
    else "" in
  if truthy_string here then Some here
  else match url with
       | EmptyString => None
       | String _ rest => match_param key rest
       end.

Record url_params : Type := {
  token : option string;
  unlocker : option string;
  browser : option string
}.

Definition request_url (req : request) : string :=
  or_default (url req) "".

Definition extractTokenFromUrl (req : request) : option string :=
  match_param "token=" (request_url req).

Definition extractUrlParams (req : request) : url_params :=
  {| token := match_param "token=" (request_url req);
     unlocker := match_param "unlocker=" (request_url req);
     browser := match_param "browser=" (request_url req) |}.

(** The session object [authenticate] returns. *)
Record auth_session : Type := {
  apiToken : option string;
  unlockerZone : option string;
  browserZone : option string
}.

(** [new Response(null, {status, statusText})] *)
Record auth_failure : Type := {
  failure_status : Z;
  failure_statusText : string
}.

(** [clientApiToken.match(/^[a-zA-Z0-9_-]+$/)] *)
Definition matches_token_format (tok : string) : bool :=
  truthy_string tok && all_chars is_token_char tok.

Definition missing_token : auth_failure :=
  {| failure_status := 401;
     failure_statusText := "Unauthorized - Missing API Token" |}.

Definition invalid_token_format : auth_failure :=
  {| failure_status := 401;
     failure_statusText := "Invalid API Token Format" |}.

(** [ensure_required_zones] talks to the upstream API and catches
    everything it raises, so it has no part in the value returned. *)
Definition authenticate (env : process_env) (req : request)
  : result auth_failure auth_session :=
  let authHeader := authorization req in
  let urlParams := extractUrlParams req in
  let clientApiToken :=
    match authHeader with
    | Some h =>
        if truthy_string h && starts_with "Bearer " h
        then Some (substring_from 7 h)
        else token urlParams
    | None => token urlParams
    end in
  match clientApiToken with
  | None => Throw missing_token
  | Some tok =>
      if is_empty tok then Throw missing_token
      else if negb (matches_token_format tok) then Throw invalid_token_format
      else
        Ok {| apiToken := Some tok;
              unlockerZone :=
                Some (or_default
                        (or_else (unlocker urlParams) (WEB_UNLOCKER_ZONE env))
                        "mcp_unlocker");
              browserZone :=
                Some (or_default
                        (or_else (browser urlParams) (BROWSER_ZONE env))
                        "mcp_browser") |}
  end.

(** ** Tool invocation wrapper: [tool_fn] *)

(** The argument of [ctx.reportProgress]. *)
Record progress_report : Type := {
  progress : Z;
  total : Z;
  progress_message : string
}.

(** The context the framework passes to a tool: the session of the
    connection, if any, and the progress callback, if any.  The callback is
    awaited: it resolves or rejects. *)
Record context : Type := {
  session : option auth_session;
  reportProgress : option (progress_report -> result js_error unit)
}.

(** [{...ctx, apiToken, unlockerZone, browserZone}] *)
Record extended_context : Type := {
  ctx : context;
  ctx_apiToken : string;
  ctx_unlockerZone : string;
  ctx_browserZone : string
}.

(** [ctx.session?.field] *)
Definition session_field (field : auth_session -> option string)
    (c : context) : option string :=
  match session c with
  | Some s => field s
  | None => None
  end.

(** The logic of one tool: it receives the arguments and the extended
    context, may read the process state (as [session_stats] does; no tool
    writes to it), and returns or throws. *)
Definition tool_logic (D R : Type) : Type :=
  D -> extended_context -> debug_stats -> result js_error R.

(** Lines 867-869. *)
Definition count_call (name : string) (st : debug_stats) : debug_stats :=
  let calls0 := tool_calls st in
  let previous := default 0 (calls0 !! name) in
  let calls1 := <[name := previous]> calls0 in
  let calls2 := <[name := default 0 (calls1 !! name) + 1]> calls1 in
  {| tool_calls := calls2;
     session_calls := session_calls st + 1;
     call_timestamps := call_timestamps st |}.

(** The [catch] block: what is thrown in place of [e]. *)
Definition normalize_error (e : js_error) : js_error :=
  match response e with
  | Some resp =>
      let message := data resp in
      if Value.truthy (Value.prop "length" message)
      then Error ("HTTP " ++ number_to_string (Num (status resp)) ++ ": "
                  ++ Value.to_string message)
      else e
  | None => e
  end.

Definition no_api_token : js_error :=
  Error "No API token available in session".

(** Lines 876-881, for a session token [tok] that passed the test of
    line 873. *)
Definition extend_context (env : process_env) (c : context) (tok : string)
  : extended_context :=
  {| ctx := c;
     ctx_apiToken := tok;
     ctx_unlockerZone :=
       or_default (session_field unlockerZone c) (unlocker_zone env);
     ctx_browserZone :=
       or_default (or_else (session_field browserZone c) (BROWSER_ZONE env))
                  "mcp_browser" |}.

Definition tool_fn {D R : Type} (env : process_env)
    (rate_limit_config : option rate_limit_config)
    (name : string) (fn : tool_logic D R)
    (now : Z) (data : D) (c : context) (st : debug_stats)
  : result js_error R * debug_stats :=
  match check_rate_limit rate_limit_config now st with
  | (Throw e, st1) => (Throw e, st1)
  | (Ok _, st1) =>
      let st2 := count_call name st1 in
      match session_field apiToken c with
      | None => (Throw no_api_token, st2)
      | Some tok =>
          if is_empty tok then (Throw no_api_token, st2)
          else
            match fn data (extend_context env c tok) st2 with
            | Ok r => (Ok r, st2)
            | Throw e => (Throw (normalize_error e), st2)
            end
      end
  end.

(** ** Search URL: [search_url] *)

(** The query is any JavaScript string: a sequence of 16-bit code units,
    here the list of their values, each in 0..65535.  [code_units] gives
    the units of a text of the restricted kind. *)
Definition code_units (s : string) : list Z :=
  List.map code (String.list_ascii_of_string s).

Definition is_high_surrogate (u : Z) : bool := (55296 <=? u) && (u <=? 56319).
Definition is_low_surrogate (u : Z) : bool := (56320 <=? u) && (u <=? 57343).

(** The code point a surrogate pair stands for. *)
Definition pair_code_point (high low : Z) : Z :=
  (high - 55296) * 1024 + (low - 56320) + 65536.

(** [encodeURIComponent]: the unreserved characters stay, every other code
    point is written as the escaped bytes of its UTF-8 form, and a
    surrogate that is not part of a pair makes it throw a URIError. *)
Definition is_unreserved (c : ascii) : bool :=
  is_lower c || is_upper c || is_digit c
  || Ascii.eqb c "-" || Ascii.eqb c "_" || Ascii.eqb c "."
  || Ascii.eqb c "!" || Ascii.eqb c "~" || Ascii.eqb c "*"
  || Ascii.eqb c "'" || Ascii.eqb c "(" || Ascii.eqb c ")".

Definition unit_char (u : Z) : ascii := ascii_of_N (Z.to_N u).

Definition is_unreserved_unit (u : Z) : bool :=
  (0 <=? u) && (u <? 128) && is_unreserved (unit_char u).

Definition percent (byte : Z) : string :=
  String "%" (Value.hex2 false byte).

Definition encode_code_point (cp : Z) : string :=
  if cp <? 128 then percent cp
  else if cp <? 2048
  then percent (192 + cp / 64) ++ percent (128 + cp mod 64)
  else if cp <? 65536
  then percent (224 + cp / 4096) ++ percent (128 + cp / 64 mod 64)
       ++ percent (128 + cp mod 64)
  else percent (240 + cp / 262144) ++ percent (128 + cp / 4096 mod 64)
       ++ percent (128 + cp / 64 mod 64) ++ percent (128 + cp mod 64).

Inductive uri_error : Type :=
| URIError.

(** What is written for the text read so far, followed by the encoding of
    what is left. *)
Definition followed_by (written : string) (rest : result uri_error string)
  : result uri_error string :=
  match rest with
  | Ok r => Ok (written ++ r)
  | Throw e => Throw e
  end.

Fixpoint encodeURIComponent (units : list Z) : result uri_error string :=
  match units with
  | [] => Ok ""
  | u :: rest =>
      if is_unreserved_unit u
      then followed_by (String (unit_char u) "") (encodeURIComponent rest)
      else if is_low_surrogate u then Throw URIError
      else if is_high_surrogate u
      then match rest with
           | low :: rest' =>
               if is_low_surrogate low
               then followed_by (encode_code_point (pair_code_point u low))
                                (encodeURIComponent rest')
               else Throw URIError
           | [] => Throw URIError
           end
      else followed_by (encode_code_point u) (encodeURIComponent rest)
  end.

(** [cursor ? parseInt(cursor) : 0]: an empty cursor is falsy. *)
Definition page_of (cursor : option string) : js_number :=
  if truthy_opt cursor
  then match cursor with
       | Some c => parseInt c
       | None => Num 0
       end
  else Num 0.

Definition search_url (engine : string) (query : list Z)
    (cursor : option string) : result uri_error string :=
  match encodeURIComponent query with
  | Throw e => Throw e
  | Ok q =>
      let page := page_of cursor in
      let start := mul page (Num 10) in
      if String.eqb engine "yandex"
      then Ok ("https://yandex.com/search/?text=" ++ q ++ "&p="
               ++ number_to_string page)
      else if String.eqb engine "bing"
      then Ok ("https://www.bing.com/search?q=" ++ q ++ "&first="
               ++ number_to_string (add start (Num 1)))
      else Ok ("https://www.google.com/search?q=" ++ q ++ "&start="
               ++ number_to_string start)
  end.

(** ** Dataset tools: trigger and snapshot polling *)

Definition max_attempts : Z := 600.

(** The upstream API as one invocation sees it: the answer to the trigger
    request, and the answer to the [n]-th status query (counted from 0) for
    a snapshot id. *)
Record upstream : Type := {
  trigger : http_outcome;
  snapshot : string -> nat -> http_outcome
}.

(** What one invocation has done so far.  [attempt_history] is a ghost
    field: the value of [attempts] at each test of the loop condition, most
    recent first. *)
Record poll_state : Type := {
  attempts : Z;
  queries : nat;
  reports : list progress_report;
  console : list string;
  attempt_history : list Z
}.

Definition poll_start : poll_state :=
  {| attempts := 0; queries := 0; reports := []; console := [];
     attempt_history := [] |}.

Inductive poll_outcome : Type :=
| Returned (result_data : option string)
| Thrown (e : js_error)
| OutOfFuel.

Definition attempt_label (st : poll_state) : string :=
  "(attempt " ++ number_to_string (Num (attempts st + 1)) ++ "/"
  ++ number_to_string (Num max_attempts) ++ ")".

Definition log (line : string) (st : poll_state) : poll_state :=
  {| attempts := attempts st; queries := queries st; reports := reports st;
     console := console st ++ [line];
     attempt_history := attempt_history st |}.

Definition next_attempt (st : poll_state) : poll_state :=
  {| attempts := attempts st + 1; queries := queries st;
     reports := reports st; console := console st;
     attempt_history := attempt_history st |}.

Definition tested (st : poll_state) : poll_state :=
  {| attempts := attempts st; queries := queries st; reports := reports st;
     console := console st;
     attempt_history := attempts st :: attempt_history st |}.

(** Lines 791-799: the callback is called when the context has one. *)
Definition report_progress (c : extended_context) (st : poll_state)
  : result js_error unit * poll_state :=
  match reportProgress (ctx c) with
  | None => (Ok tt, st)
  | Some callback =>
      let report :=
        {| progress := attempts st;
           total := max_attempts;
           progress_message := "Polling for data " ++ attempt_label st |} in
      (callback report,
       {| attempts := attempts st; queries := queries st;
          reports := reports st ++ [report]; console := console st;
          attempt_history := attempt_history st |})
  end.

(** Lines 800-806: one GET of the snapshot. *)
Definition query_snapshot (up : upstream) (snapshot_id : string)
    (st : poll_state) : http_outcome * poll_state :=
  (snapshot up snapshot_id (queries st),
   {| attempts := attempts st; queries := S (queries st);
      reports := reports st; console := console st;
      attempt_history := attempt_history st |}).

(** The [catch] of the loop body. *)
Definition polling_error (id : string) (e : js_error) (st : poll_state)
  : poll_state :=
  next_attempt
    (log ("[web_data_" ++ id ++ "] polling error: " ++ message e) st).

Definition timeout_error : js_error :=
  Error ("Timeout after " ++ number_to_string (Num max_attempts)
         ++ " seconds waiting for data").

(** Lines 788-828.  The loop runs while [attempts < max_attempts]; [fuel]
    bounds the number of iterations the model unfolds. *)
Fixpoint poll_loop (fuel : nat) (id : string) (up : upstream)
    (snapshot_id : string) (c : extended_context) (st : poll_state)
  : poll_outcome * poll_state :=
  let st := tested st in
  if attempts st <? max_attempts then
    match fuel with
    | O => (OutOfFuel, st)
    | S fuel' =>
        match report_progress c st with
        | (Throw e, st1) =>
            poll_loop fuel' id up snapshot_id c (polling_error id e st1)
        | (Ok _, st1) =>
            match query_snapshot up snapshot_id st1 with
            | (Rejected e, st2) =>
                poll_loop fuel' id up snapshot_id c (polling_error id e st2)
            | (Resolved body, st2) =>
                if Value.is_string "running" (Value.prop "status" body)
                then
                  poll_loop fuel' id up snapshot_id c
                    (next_attempt
                       (log ("[web_data_" ++ id ++ "] snapshot not ready, "
                             ++ "polling again " ++ attempt_label st2) st2))
                else
                  (Returned (Value.JSON_stringify body),
                   log ("[web_data_" ++ id ++ "] snapshot data received "
                        ++ "after "
                        ++ number_to_string (Num (attempts st2 + 1))
                        ++ " attempts") st2)
            end
        end
    end
  else (Thrown timeout_error, st).

Definition no_snapshot_id : js_error :=
  Error "No snapshot ID returned from request".

(** The [execute] function of the tool [web_data_<id>] (lines 773-829).
    The loop is given [max_attempts] iterations of fuel. *)
Definition web_data_execute (id : string) (up : upstream)
    (c : extended_context) : poll_outcome * poll_state :=
  match trigger up with
  | Rejected e => (Thrown e, poll_start)
  | Resolved body =>
      let snapshot_id := Value.prop "snapshot_id" body in
      if negb (Value.truthy snapshot_id) then (Thrown no_snapshot_id, poll_start)
      else
        poll_loop (Z.to_nat max_attempts) id up (Value.to_string snapshot_id) c
          (log ("[web_data_" ++ id ++ "] triggered collection with "
                ++ "snapshot ID: " ++ Value.to_string snapshot_id) poll_start)
  end.

(** ** Start-up *)

(** Line 54 runs before the server object is created and started: a throw
    there ends the process. *)
Inductive startup_result : Type :=
| Crashed (e : string)
| Started (cfg : option rate_limit_config).

Definition startup (env : process_env) : startup_result :=
  match parse_rate_limit (RATE_LIMIT env) with
  | Throw e => Crashed e
  | Ok cfg => Started cfg
  end.

(** ** Outbound requests: [api_headers], [ensure_required_zones] *)

(** [package.json]: the two fields the program reads. *)
Record package_json : Type := {
  package_name : string;
  package_version : string
}.

(** Lines 59-62. *)
Definition api_headers (pkg : package_json) (apiToken : string)
  : list (string * string) :=
  [("user-agent", package_name pkg ++ "/" ++ package_version pkg);
   ("authorization", "Bearer " ++ apiToken)].

(** The argument of an [axios] call. *)
Record axios_config : Type := {
  axios_url : string;
  axios_method : string;
  axios_headers : list (string * string);
  axios_data : js_value
}.

(** [v.name] without optional chaining: a TypeError on null and
    undefined. *)
Definition member (name : string) (v : js_value) : result js_error js_value :=
  match v with
  | JUndefined =>
      Throw (Error ("Cannot read properties of undefined (reading '"
                    ++ name ++ "')"))
  | JNull =>
      Throw (Error ("Cannot read properties of null (reading '"
                    ++ name ++ "')"))
  | _ => Ok (Value.prop name v)
  end.

(** [a || b] on values. *)
Definition or_value (a b : js_value) : js_value :=
  if Value.truthy a then a else b.

Definition get_active_zones (pkg : package_json) (apiToken : string)
  : axios_config :=
  {| axios_url := "https://api.brightdata.com/zone/get_active_zones";
     axios_method := "GET";
     axios_headers := api_headers pkg apiToken;
     axios_data := JUndefined |}.

Definition create_zone (pkg : package_json) (apiToken unlockerZone : string)
  : axios_config :=
  {| axios_url := "https://api.brightdata.com/zone";
     axios_method := "POST";
     axios_headers :=
       (api_headers pkg apiToken
        ++ [("Content-Type", "application/json")])%list;
     axios_data :=
       JObject [("zone", JObject [("name", JString unlockerZone);
                                  ("type", JString "unblocker")]);
                ("plan", JObject [("type", JString "unblocker")])] |}.

(** [zones.some(zone=>zone.name==unlockerZone)].  [loosely_equals v s] is
    the value of [v == s] for a string [s]; it is an argument because the
    conversions of [==] on numbers are outside this embedding. *)
Fixpoint some_zone_named (loosely_equals : js_value -> string -> bool)
    (unlockerZone : string) (zones : list js_value) : result js_error bool :=
  match zones with
  | [] => Ok false
  | zone :: rest =>
      match member "name" zone with
      | Throw e => Throw e
      | Ok zone_name =>
          if loosely_equals zone_name unlockerZone then Ok true
          else some_zone_named loosely_equals unlockerZone rest
      end
  end.

(** How the check ended: the three messages of lines 106, 109 and 111;
    the last one shows [e.response?.data || e.message]. *)
Inductive zone_check : Type :=
| ZoneCreated
| ZoneExists
| ZoneCheckFailed (shown : js_value).

Definition shown_error (e : js_error) : js_value :=
  or_value match response e with
           | Some resp => data resp
           | None => JUndefined
           end
           (JString (message e)).

(** Lines 80-114.  [api] answers each request; the result is how the check
    ended and the requests that were sent, in order.  The function itself
    never throws: everything is caught at line 110. *)
Definition ensure_required_zones (pkg : package_json)
    (loosely_equals : js_value -> string -> bool)
    (api : axios_config -> http_outcome) (apiToken unlockerZone : string)
  : zone_check * list axios_config :=
  let listing := get_active_zones pkg apiToken in
  match api listing with
  | Rejected e => (ZoneCheckFailed (shown_error e), [listing])
  | Resolved body =>
      match or_value body (JArray []) with
      | JArray zones =>
          match some_zone_named loosely_equals unlockerZone zones with
          | Throw e => (ZoneCheckFailed (shown_error e), [listing])
          | Ok true => (ZoneExists, [listing])
          | Ok false =>
              let creation := create_zone pkg apiToken unlockerZone in
              match api creation with
              | Rejected e =>
                  (ZoneCheckFailed (shown_error e), [listing; creation])
              | Resolved _ => (ZoneCreated, [listing; creation])
              end
          end
      | _ =>
          (ZoneCheckFailed (JString "zones.some is not a function"),
           [listing])
      end
  end.

(** ** Browser tools: the guard of lines 837-847 *)

(** [{...ctx, apiToken: ctx.session.apiToken,
      browserZone: ctx.session.browserZone}] *)
Record browser_context : Type := {
  browser_ctx : context;
  browser_apiToken : option string;
  browser_browserZone : string
}.

Definition browser_zone_required : js_error :=
  Error ("Browser tools require a browser zone. "
         ++ "Specify browser=ZONE_NAME in the URL.").

(** [originalExecute] is the tool's own function, from [browser_tools.js]. *)
Definition browser_tool_execute {P R : Type}
    (originalExecute : P -> browser_context -> result js_error R)
    (params : P) (c : context) : result js_error R :=
  match session_field browserZone c with
  | None => Throw browser_zone_required
  | Some zone =>
      if is_empty zone then Throw browser_zone_required
      else originalExecute params
             {| browser_ctx := c;
                browser_apiToken := session_field apiToken c;
                browser_browserZone := zone |}
  end.

(** ** The [fetch] tool: [extractTitleFromMarkdown] *)

Definition newline : ascii := ascii_of_nat 10.

(** [s.split(sep)] for a one-character separator. *)
Fixpoint split_on (sep : ascii) (s : string) : list string :=
  match s with
  | EmptyString => [""]
  | String c r =>
      if Ascii.eqb c sep then "" :: split_on sep r
      else match split_on sep r with
           | first :: others => String c first :: others
           | [] => [String c ""]
           end
  end.

(** [s.trim()] *)
Fixpoint trim_end (s : string) : string :=
  match s with
  | EmptyString => ""
  | String c r =>
      match trim_end r with
      | EmptyString => if is_space c then "" else String c ""
      | kept => String c kept
      end
  end.

Definition trim (s : string) : string := trim_end (trim_start s).

(** The loop of lines 329-333 and the default of line 334. *)
Fixpoint title_of_lines (lines : list string) : string :=
  match lines with
  | [] => "Untitled Document"
  | line :: rest =>
      if starts_with "# " line then trim (substring_from 2 line)
      else title_of_lines rest
  end.

Definition extractTitleFromMarkdown (content : string) : string :=
  title_of_lines (split_on newline content).

(** ** The [search] tool: shaping of the results (lines 266-300) *)

(** The object pushed at lines 284-289. *)
Definition search_entry (link title description : js_value) : js_value :=
  JObject [("id", link);
           ("title", or_value title (JString "Untitled"));
           ("text", or_value description (JString ""));
           ("url", or_value link (JString ""))].

(** [searchData.organic.forEach(...)]: a TypeError on an entry that is null
    ends the loop and the tool.  (On an entry that is a string, [link] is
    the method of [String.prototype] and [title] is undefined: the entry is
    skipped, as it is here.) *)
Fixpoint collect_results (organic : list js_value)
  : result js_error (list js_value) :=
  match organic with
  | [] => Ok []
  | item :: rest =>
      match member "link" item with
      | Throw e => Throw e
      | Ok link =>
          let pushed :=
            if Value.truthy link && Value.truthy (Value.prop "title" item)
            then [search_entry link (Value.prop "title" item)
                               (Value.prop "description" item)]
            else [] in
          match collect_results rest with
          | Throw e => Throw e
          | Ok results => Ok (pushed ++ results)%list
          end
      end
  end.

Definition search_results (searchData : js_value)
  : result js_error (list js_value) :=
  match member "organic" searchData with
  | Throw e => Throw e
  | Ok (JArray organic) => collect_results organic
  | Ok _ => Ok []
  end.

(** From the text of the upstream answer to the value the tool returns.
    [JSON_parse] is the runtime's parser: the parsed value, or the message
    of the SyntaxError. *)
Definition search_response (JSON_parse : string -> result string js_value)
    (text : string) : result js_error string :=
  match JSON_parse text with
  | Throw parse_message =>
      Throw (Error ("Failed to parse search results JSON: " ++ parse_message))
  | Ok searchData =>
      match search_results searchData with
      | Throw e => Throw e
      | Ok results => Ok (Value.stringify_value (JArray results))
      end
  end.

(** ** The [session_stats] tool (lines 354-360) *)

Definition stats_line (entry : string * Z) : string :=
  "- " ++ fst entry ++ " tool: called "
  ++ number_to_string (Num (snd entry)) ++ " times".

Definition stats_lines (used_tools : list (string * Z)) : list string :=
  "Tool calls this session:" :: List.map stats_line used_tools.

(** [Object_entries] lists the counters in the order the runtime keeps
    them (the order in which the tools were first called). *)
Definition session_stats {D : Type}
    (Object_entries : gmap string Z -> list (string * Z))
  : tool_logic D string :=
  fun _ _ st =>
    Ok (Value.join (String newline "")
          (stats_lines (Object_entries (tool_calls st)))).

(** ** Vocabulary of the properties *)

(** The states the process can be in: [debug_stats] starts empty and is
    written by [check_rate_limit] and by the counters of [tool_fn] only. *)
Inductive reachable (cfg : option rate_limit_config) : debug_stats -> Prop :=
| reach_initial : reachable cfg initial_stats
| reach_check now st :
    reachable cfg st -> reachable cfg (snd (check_rate_limit cfg now st))
| reach_count name st :
    reachable cfg st -> reachable cfg (count_call name st).

Definition accepted {E A : Type} (r : result E A) : bool :=
  match r with
  | Ok _ => true
  | Throw _ => false
  end.

(** Successive rate-limit checks at the given instants: which of them were
    accepted, and the state left behind. *)
Fixpoint run_checks (cfg : option rate_limit_config) (times : list Z)
    (st : debug_stats) : list bool * debug_stats :=
  match times with
  | [] => ([], st)
  | now :: later =>
      let (r, st1) := check_rate_limit cfg now st in
      let (rs, st2) := run_checks cfg later st1 in
      (accepted r :: rs, st2)
  end.

Definition count_true (bs : list bool) : Z :=
  Z.of_nat (List.length (List.filter (fun b => b) bs)).

(** An instant lies in the window of length [W] that opens at [a]. *)
Definition within_window (a W x : Z) : Prop := a <= x < a + W.

(** The earliest of the recorded instants. *)
Definition earliest (timestamps : list Z) : option Z :=
  match timestamps with
  | [] => None
  | t :: rest => Some (List.fold_left Z.min rest t)
  end.

(** The sliding-window invariant at instant [now]: every recorded instant
    is strictly newer than [now - window], and there are at most [limit]. *)
Definition window_invariant (cfg : rate_limit_config) (now : Z)
    (st : debug_stats) : Prop :=
  Forall (fun timestamp =>
            gt (Num timestamp) (sub (Num now) (window cfg)) = true)
         (call_timestamps st)
  /\ ge (limit cfg) (Num (Z.of_nat (List.length (call_timestamps st)))) = true.

(** The number a run of decimal digits denotes. *)
Definition decimal_value (digits : string) : Z :=
  List.fold_left (fun acc c => 10 * acc + (code c - 48))
                 (String.list_ascii_of_string digits) 0.

Definition is_number_text (s : string) : Prop :=
  s <> "" /\ all_chars is_digit s = true.

(** The form [<digits>/<digits><unit>] with unit s, m or h. *)
Definition is_rate_limit_form (s : string) : Prop :=
  exists count duration unit,
    s = count ++ "/" ++ duration ++ String unit ""
    /\ is_number_text count /\ is_number_text duration
    /\ (unit = "s"%char \/ unit = "m"%char \/ unit = "h"%char).

Definition seconds_per_unit (unit : ascii) : Z :=
  if Ascii.eqb unit "s" then 1
  else if Ascii.eqb unit "m" then 60
  else 3600.

(** A status answer that keeps the loop going: [{status: "running"}], or a
    request that failed. *)
Definition pending (o : http_outcome) : bool :=
  match o with
  | Resolved body => Value.is_string "running" (Value.prop "status" body)
  | Rejected _ => true
  end.

(** Successive invocations of wrapped tools, given as (name, instant), with
    the same arguments and context: the state left behind. *)
Fixpoint run_tools {D R : Type} (env : process_env)
    (cfg : option rate_limit_config) (fn : tool_logic D R)
    (calls : list (string * Z)) (data : D) (c : context) (st : debug_stats)
  : debug_stats :=
  match calls with
  | [] => st
  | (name, now) :: later =>
      run_tools env cfg fn later data c
        (snd (tool_fn env cfg name fn now data c st))
  end.

(** The instants a check at [now] keeps when the window is [W]. *)
Definition kept_at (W now : Z) (timestamps : list Z) : list Z :=
  List.filter (fun t => now - W <? t) timestamps.

(** Instants of the window that opens at [a]: those recorded at or after
    [a]. *)
Definition recent (a : Z) (timestamps : list Z) : list Z :=
  List.filter (fun t => a <=? t) timestamps.

(** What stops a greedy run: the end of the text, or a character outside
    the class. *)
Definition stops (p : ascii -> bool) (rest : string) : Prop :=
  match rest with
  | EmptyString => True
  | String c _ => p c = false
  end.

(** One more call of the tool [name] in a table of counters. *)
Definition increment (calls : gmap string Z) (name : string)
  : gmap string Z :=
  <[name := default 0 (calls !! name) + 1]> calls.

(** The characters an encoded URI component is made of: the unreserved
    ones and the percent sign of an escape (the two hexadecimal digits of an
    escape are unreserved). *)
Definition url_safe (c : ascii) : bool :=
  is_unreserved c || Ascii.eqb c "%".

(** What holds of every run of the polling loop started in [st]: it ends;
    the counter only grows and stays within the bound; the number of status
    queries is within the attempts left; the loop condition was tested at
    the successive values of the counter; the run ends with the timeout
    error at the bound, or returns the body of a status answer that was not
    pending. *)
Definition poll_bounded (up : upstream) (snapshot_id : string)
    (st : poll_state) (out : poll_outcome * poll_state) : Prop :=
  fst out <> OutOfFuel
  /\ attempts st <= attempts (snd out) <= max_attempts
  /\ Z.of_nat (queries (snd out)) - Z.of_nat (queries st)
     <= max_attempts - attempts st
  /\ attempt_history (snd out)
     = (rev (seqZ (attempts st) (attempts (snd out) - attempts st + 1))
        ++ attempt_history st)%list
  /\ ((fst out = Thrown timeout_error /\ attempts (snd out) = max_attempts)
      \/ exists i body,
            snapshot up snapshot_id i = Resolved body
            /\ pending (Resolved body) = false
            /\ fst out = Returned (Value.JSON_stringify body)).

(** The progress callback, when the context has one, resolves on every
    report whose progress value is at most [K]. *)
Definition progress_resolves (c : extended_context) (K : Z) : Prop :=
  forall callback report,
    reportProgress (ctx c) = Some callback ->
    0 <= progress report <= K -> callback report = Ok tt.

Definition has_progress (c : extended_context) : bool :=
  match reportProgress (ctx c) with
  | Some _ => true
  | None => false
  end.

(** The value of a header in a list of headers. *)
Fixpoint header_value (name : string) (headers : list (string * string))
  : option string :=
  match headers with
  | [] => None
  | (k, v) :: rest =>
      if String.eqb k name then Some v else header_value name rest
  end.

(** The zone chosen at authentication: the URL parameter, else the
    environment variable, else the hard-coded name. *)
Definition chosen_zone (from_url from_env : option string)
    (hardcoded : string) : string :=
  match from_url with
  | Some zone => zone
  | None =>
      match from_env with
      | Some zone => if is_empty zone then hardcoded else zone
      | None => hardcoded
      end
  end.

(** The report made at the attempt counted [a] (lines 793-798). *)
Definition progress_report_at (a : Z) : progress_report :=
  {| progress := a;
     total := max_attempts;
     progress_message :=
       "Polling for data "
       ++ ("(attempt " ++ number_to_string (Num (a + 1)) ++ "/"
           ++ number_to_string (Num max_attempts) ++ ")") |}.

(** One for a run that returned data, zero for one that threw. *)
Definition answered (o : poll_outcome) : Z :=
  match o with
  | Returned _ => 1
  | _ => 0
  end.

(** Lines of a text, each one ended by a newline. *)
Fixpoint concat_lines (lines : list string) : string :=
  match lines with
  | [] => ""
  | line :: rest => line ++ String newline (concat_lines rest)
  end.

Definition no_newline (s : string) : bool :=
  all_chars (fun c => negb (Ascii.eqb c newline)) s.

Definition leading_space (s : string) : bool :=
  match s with
  | String c _ => is_space c
  | EmptyString => false
  end.

Fixpoint trailing_space (s : string) : bool :=
  match s with
  | EmptyString => false
  | String c EmptyString => is_space c
  | String _ rest => trailing_space rest
  end.

(** An entry of [organic] that the [search] tool keeps, and what it keeps
    of it. *)
Definition wanted (item : js_value) : bool :=
  Value.truthy (Value.prop "link" item)
  && Value.truthy (Value.prop "title" item).

Definition entry_of (item : js_value) : js_value :=
  search_entry (Value.prop "link" item) (Value.prop "title" item)
               (Value.prop "description" item).

Definition not_nullish (v : js_value) : bool :=
  match v with
  | JUndefined | JNull => false
  | _ => true
  end.

(** A zone entry: an object whose name is the given text. *)
Definition zone_named (zone_name : string) (v : js_value) : Prop :=
  exists fields,
    v = JObject fields
    /\ Value.lookup_field "name" fields = JString zone_name.

(** [s] begins with 0x or 0X: what [parseInt] reads as hexadecimal. *)
Definition hex_prefix (s : string) : bool :=
  match s with
  | String "0" (String "x" _) => true
  | String "0" (String "X" _) => true
  | _ => false
  end.

(** A number that is a natural number or infinite. *)
Definition natural_or_infinite (n : js_number) : Prop :=
  n = Infinity \/ exists v, n = Num v /\ 0 <= v.

(** The integers that every double of their size holds exactly. *)
Definition safe_integer (z : Z) : Prop := - 2 ^ 53 < z < 2 ^ 53.

(** A code unit of a JavaScript string. *)
Definition is_code_unit (u : Z) : Prop := 0 <= u < 65536.

(** No surrogate stands alone: every high surrogate is followed by a low
    one, and every low one follows a high one. *)
Fixpoint well_formed (units : list Z) : bool :=
  match units with
  | [] => true
  | u :: rest =>
      if is_low_surrogate u then false
      else if is_high_surrogate u
      then match rest with
           | low :: rest' => is_low_surrogate low && well_formed rest'
           | [] => false
           end
      else well_formed rest
  end.

(** * Properties *)

#[local] Arguments String.append !s1 s2 : simpl nomatch.

(** ** Character runs *)

Lemma app_empty_r (s : string) : s ++ "" = s.
Proof. induction s as [|c s IH]; [reflexivity | simpl; f_equal; exact IH]. Qed.

Lemma app_assoc_string (a b c : string) : (a ++ b) ++ c = a ++ (b ++ c).
Proof. induction a as [|x a IH]; [reflexivity | simpl; f_equal; exact IH]. Qed.

Lemma span_run (p : ascii -> bool) (run rest : string) :
  all_chars p run = true -> stops p rest -> span p (run ++ rest) = (run, rest).
Proof.
  intros Hrun Hrest. induction run as [|c run IH]; simpl in *.
  - destruct rest as [|c r]; simpl in *; [reflexivity | now rewrite Hrest].
  - apply andb_true_iff in Hrun as [Hc Hrun]. rewrite Hc, (IH Hrun). reflexivity.
Qed.

Lemma span_split (p : ascii -> bool) (s run rest : string) :
  span p s = (run, rest) ->
  s = run ++ rest /\ all_chars p run = true /\ stops p rest.
Proof.
  revert run rest. induction s as [|c s IH]; simpl; intros run rest H.
  - inversion H; subst. simpl. auto.
  - destruct (p c) eqn:Hc.
    + destruct (span p s) as [a b] eqn:Hs. inversion H; subst.
      destruct (IH a rest eq_refl) as (-> & Ha & Hb).
      simpl. rewrite Hc, Ha. auto.
    + inversion H; subst. simpl. auto.
Qed.

Lemma is_empty_true (s : string) : is_empty s = true <-> s = "".
Proof. destruct s; simpl; split; congruence. Qed.

Lemma is_empty_false (s : string) : is_empty s = false <-> s <> "".
Proof. destruct s; simpl; split; congruence. Qed.

(** ** Decimal numerals *)

Lemma digit_not_space (c : ascii) : is_digit c = true -> is_space c = false.
Proof.
  destruct c as [[] [] [] [] [] [] [] []]; vm_compute; congruence.
Qed.

Lemma digit_no_sign (c : ascii) (r : string) :
  is_digit c = true -> strip_sign (String c r) = (1, String c r).
Proof.
  destruct c as [[] [] [] [] [] [] [] []]; vm_compute; congruence.
Qed.

Lemma digits_no_radix (s : string) :
  all_chars is_digit s = true -> strip_radix s = (10, s).
Proof.
  destruct s as [|c1 [|c2 r]].
  - reflexivity.
  - intros _. destruct c1 as [[] [] [] [] [] [] [] []]; reflexivity.
  - simpl. intros H. apply andb_true_iff in H as [_ H].
    apply andb_true_iff in H as [H2 _].
    destruct c1 as [[] [] [] [] [] [] [] []]; try reflexivity;
      destruct c2 as [[] [] [] [] [] [] [] []]; try reflexivity;
      vm_compute in H2; congruence.
Qed.

Lemma digit_value_decimal (c : ascii) :
  is_digit c = true -> digit_value c = code c - 48.
Proof. unfold digit_value. now intros ->. Qed.

Lemma digits_value_fold (s : string) (acc : Z) :
  all_chars is_digit s = true ->
  digits_value 10 acc s
  = List.fold_left (fun a c => 10 * a + (code c - 48))
                   (String.list_ascii_of_string s) acc.
Proof.
  revert acc. induction s as [|c s IH]; simpl; intros acc H; [reflexivity|].
  apply andb_true_iff in H as [Hc Hs].
  rewrite (digit_value_decimal c Hc). now apply IH.
Qed.

Lemma decimal_value_nonneg (s : string) :
  all_chars is_digit s = true -> 0 <= decimal_value s.
Proof.
  unfold decimal_value.
  assert (Hfold : forall acc, 0 <= acc -> all_chars is_digit s = true ->
            0 <= List.fold_left (fun a c => 10 * a + (code c - 48))
                   (String.list_ascii_of_string s) acc).
  { induction s as [|c s IH]; simpl; intros acc Hacc H; [exact Hacc|].
    apply andb_true_iff in H as [Hc Hs]. apply IH; [|exact Hs].
    unfold is_digit, in_range in Hc. lia. }
  apply Hfold. lia.
Qed.

(** ** Doubles *)

Lemma nearest_double_safe (m : Z) : m < 2 ^ 53 -> nearest_double m = m.
Proof.
  intros H. unfold nearest_double. now rewrite (proj2 (Z.ltb_lt _ _) H).
Qed.

Lemma nearest_double_nonneg (m : Z) : 0 <= m -> 0 <= nearest_double m.
Proof.
  intros H. unfold nearest_double. destruct (m <? 2 ^ 53); [exact H|].
  cbv zeta. apply Z.mul_nonneg_nonneg; [|apply Z.pow_nonneg; lia].
  pose proof (Z.div_pos m (2 ^ (Z.log2 m - 52)) H) as Hq.
  destruct (Z.lt_total 0 (2 ^ (Z.log2 m - 52))) as [Hpos | [Hz | Hneg]].
  - specialize (Hq Hpos). destruct (_ || _); lia.
  - rewrite <- Hz, Z.div_0_r. destruct (_ || _); lia.
  - pose proof (Z.pow_nonneg 2 (Z.log2 m - 52)). lia.
Qed.

(** A safe integer is stored as it is. *)
Lemma to_double_safe (z : Z) : safe_integer z -> to_double z = Num z.
Proof.
  intros [Hlo Hhi]. unfold to_double.
  assert (Habs : Z.abs z < 2 ^ 53) by lia.
  rewrite (nearest_double_safe _ Habs).
  assert (Hfinite : (2 ^ 1024 <=? Z.abs z) = false).
  { apply Z.leb_gt. apply Z.lt_le_trans with (2 ^ 53); [exact Habs|].
    apply Z.pow_le_mono_r; lia. }
  rewrite Hfinite. f_equal. lia.
Qed.

(** What a natural number is stored as is a natural number or infinite. *)
Lemma to_double_nonneg (z : Z) :
  0 <= z ->
  (exists v, to_double z = Num v /\ 0 <= v) \/ to_double z = Infinity.
Proof.
  intros Hz. unfold to_double.
  destruct (2 ^ 1024 <=? nearest_double (Z.abs z)).
  - right. now rewrite (proj2 (Z.ltb_ge z 0)) by exact Hz.
  - left. eexists. split; [reflexivity|].
    pose proof (nearest_double_nonneg (Z.abs z) (Z.abs_nonneg z)).
    apply Z.mul_nonneg_nonneg; lia.
Qed.

(** The start of the window [now - window]: taken exactly or rounded to a
    double, it has the same instants after it. *)
Lemma window_start_rounding (now W t : Z) :
  0 <= now < 2 ^ 53 -> 0 <= W -> 0 < t ->
  gt (Num t) (to_double (now - W)) = gt (Num t) (Num (now - W)).
Proof.
  intros Hnow HW Ht.
  destruct (Z_lt_le_dec (- 2 ^ 53) (now - W)) as [Hsafe | Hlow].
  - now rewrite to_double_safe by (unfold safe_integer; lia).
  - assert (Hneg : now - W < 0).
    { assert (0 < 2 ^ 53) by (apply Z.pow_pos_nonneg; lia). lia. }
    transitivity true; [|symmetry; cbn [gt]; apply Z.ltb_lt; lia].
    unfold to_double.
    destruct (2 ^ 1024 <=? nearest_double (Z.abs (now - W))).
    + now rewrite (proj2 (Z.ltb_lt _ _) Hneg).
    + cbn [gt]. apply Z.ltb_lt.
      pose proof (nearest_double_nonneg _ (Z.abs_nonneg (now - W))).
      nia.
Qed.

(** On a run of decimal digits [parseInt] is the double nearest to the
    number the run denotes. *)
Lemma parseInt_number_text (s : string) :
  is_number_text s -> parseInt s = to_double (decimal_value s).
Proof.
  intros [Hne Hall]. destruct s as [|c r]; [congruence|].
  pose proof Hall as Hall'. simpl in Hall'.
  apply andb_true_iff in Hall' as [Hc Hr].
  unfold parseInt.
  replace (trim_start (String c r)) with (String c r)
    by (simpl; now rewrite (digit_not_space c Hc)).
  rewrite (digit_no_sign c r Hc), (digits_no_radix _ Hall).
  assert (Hspan : span (is_radix_digit 10) (String c r) = (String c r, "")).
  { rewrite <- (app_empty_r (String c r)) at 1.
    apply span_run; [exact Hall | exact I]. }
  cbv zeta. rewrite Hspan.
  cbn [fst is_empty]. rewrite (digits_value_fold _ 0 Hall).
  unfold decimal_value. f_equal. lia.
Qed.

(** ** The rate-limit pattern *)

Lemma unit_cases (u : ascii) :
  is_unit u = true <-> (u = "s"%char \/ u = "m"%char \/ u = "h"%char).
Proof.
  unfold is_unit. rewrite !orb_true_iff, !Ascii.eqb_eq. tauto.
Qed.

Lemma multiplier_seconds (u : ascii) :
  is_unit u = true -> multiplier u = seconds_per_unit u.
Proof.
  intros H. apply unit_cases in H as [-> | [-> | ->]]; reflexivity.
Qed.

Lemma match_rate_limit_complete (count duration : string) (unit : ascii) :
  is_number_text count -> is_number_text duration -> is_unit unit = true ->
  match_rate_limit (count ++ "/" ++ duration ++ String unit "")
  = Some (count, duration, unit).
Proof.
  intros [Hc1 Hc2] [Hd1 Hd2] Hu. unfold match_rate_limit.
  rewrite span_run; [| exact Hc2 | reflexivity].
  apply is_empty_false in Hc1. rewrite Hc1.
  change ("/" ++ duration ++ String unit "")
    with (String "/" (duration ++ String unit "")). cbv iota beta.
  rewrite span_run; [| exact Hd2 |].
  - apply is_empty_false in Hd1. now rewrite Hd1, Hu.
  - simpl. apply unit_cases in Hu as [-> | [-> | ->]]; reflexivity.
Qed.

Lemma match_rate_limit_sound (s count duration : string) (unit : ascii) :
  match_rate_limit s = Some (count, duration, unit) ->
  s = count ++ "/" ++ duration ++ String unit ""
  /\ is_number_text count /\ is_number_text duration /\ is_unit unit = true.
Proof.
  unfold match_rate_limit.
  destruct (span is_digit s) as [lim r1] eqn:H1.
  destruct (is_empty lim) eqn:E1; [discriminate|].
  destruct r1 as [|c1 r2]; [discriminate|].
  destruct (Ascii.eqb_spec c1 "/") as [-> | Hne].
  - destruct (span is_digit r2) as [time r3] eqn:H2.
    destruct (is_empty time) eqn:E2; [discriminate|].
    destruct r3 as [|u [|? ?]]; try discriminate.
    destruct (is_unit u) eqn:Hu; [|discriminate].
    intros H; inversion H; subst.
    apply span_split in H1 as (-> & Hl & _).
    apply span_split in H2 as (-> & Ht & _).
    apply is_empty_false in E1, E2.
    repeat split; auto.
  - intros H. exfalso.
    destruct c1 as [[] [] [] [] [] [] [] []]; try discriminate H.
    now apply Hne.
Qed.

Lemma not_rate_limit_form (text : string) :
  match_rate_limit text = None -> ~ is_rate_limit_form text.
Proof.
  intros Hnone (count & duration & unit & -> & Hc & Hd & Hu).
  apply unit_cases in Hu.
  rewrite (match_rate_limit_complete _ _ _ Hc Hd Hu) in Hnone. discriminate.
Qed.

(** The window of a well-formed text whose numbers are small enough to be
    held exactly. *)
Lemma window_safe (d : Z) (unit : ascii) :
  is_unit unit = true ->
  0 <= d -> d * seconds_per_unit unit * 1000 < 2 ^ 53 ->
  mul (mul (to_double d) (Num (seconds_per_unit unit))) (Num 1000)
  = Num (d * seconds_per_unit unit * 1000).
Proof.
  intros Hu Hd Hbound.
  assert (Hs : 1 <= seconds_per_unit unit).
  { apply unit_cases in Hu as [-> | [-> | ->]]; vm_compute; discriminate. }
  assert (H1 : safe_integer d) by (unfold safe_integer; nia).
  assert (H2 : safe_integer (d * seconds_per_unit unit))
    by (unfold safe_integer; nia).
  assert (H3 : safe_integer (d * seconds_per_unit unit * 1000))
    by (unfold safe_integer; nia).
  rewrite (to_double_safe _ H1). cbn [mul].
  rewrite (to_double_safe _ H2). cbn [mul].
  now rewrite (to_double_safe _ H3).
Qed.

(** C7 (amended). [parse_rate_limit] returns null for an absent
    specification; on every text of the form <digits>/<digits><unit>, unit
    among s, m, h, it returns a configuration whose display is the text
    itself, whose limit is the double nearest to the first number and whose
    window is the duration times 1, 60 or 3600 (for s, m, h) times 1000,
    each product rounded to a double: the first number and the exact
    product themselves when these are below 2^53; on every other non-empty
    text it throws, and start-up then ends before the server is started. *)
Theorem parse_rate_limit_spec :
  parse_rate_limit None = Ok None
  /\ (forall count duration unit,
         is_number_text count -> is_number_text duration ->
         (unit = "s"%char \/ unit = "m"%char \/ unit = "h"%char) ->
         let text := count ++ "/" ++ duration ++ String unit "" in
         parse_rate_limit (Some text)
         = Ok (Some {| limit := to_double (decimal_value count);
                       window :=
                         mul (mul (to_double (decimal_value duration))
                                  (Num (seconds_per_unit unit)))
                             (Num 1000);
                       display := text |})
         /\ (decimal_value count < 2 ^ 53 ->
             decimal_value duration * seconds_per_unit unit * 1000 < 2 ^ 53 ->
             parse_rate_limit (Some text)
             = Ok (Some {| limit := Num (decimal_value count);
                           window := Num (decimal_value duration
                                          * seconds_per_unit unit * 1000);
                           display := text |})))
  /\ (forall text,
         text <> "" -> ~ is_rate_limit_form text ->
         parse_rate_limit (Some text) = Throw invalid_rate_limit
         /\ forall env,
             RATE_LIMIT env = Some text ->
             startup env = Crashed invalid_rate_limit).
Proof.
  split; [reflexivity|]. split.
  - intros count duration unit Hc Hd Hu text. apply unit_cases in Hu.
    assert (Hparse :
      parse_rate_limit (Some text)
      = Ok (Some {| limit := to_double (decimal_value count);
                    window :=
                      mul (mul (to_double (decimal_value duration))
                               (Num (seconds_per_unit unit)))
                          (Num 1000);
                    display := text |})).
    { unfold parse_rate_limit.
      replace (is_empty text) with false.
      - subst text. rewrite (match_rate_limit_complete _ _ _ Hc Hd Hu).
        rewrite (parseInt_number_text _ Hc), (parseInt_number_text _ Hd).
        now rewrite (multiplier_seconds _ Hu).
      - subst text. destruct Hc as [Hne _].
        destruct count; [congruence | reflexivity]. }
    split; [exact Hparse|].
    intros Hcount Hwindow. rewrite Hparse.
    pose proof (decimal_value_nonneg _ (proj2 Hc)) as Hc0.
    pose proof (decimal_value_nonneg _ (proj2 Hd)) as Hd0.
    rewrite (to_double_safe (decimal_value count))
      by (unfold safe_integer; lia).
    now rewrite (window_safe _ _ Hu Hd0 Hwindow).
  - intros text Hne Hform.
    assert (Hthrow : parse_rate_limit (Some text) = Throw invalid_rate_limit).
    { unfold parse_rate_limit. apply is_empty_false in Hne. rewrite Hne.
      destruct (match_rate_limit text) as [[[lim time] unit]|] eqn:Hm;
        [|reflexivity].
      exfalso. apply Hform.
      apply match_rate_limit_sound in Hm as (-> & Hl & Ht & Hu).
      apply unit_cases in Hu. now exists lim, time, unit. }
    split; [exact Hthrow|].
    intros env Henv. unfold startup. now rewrite Henv, Hthrow.
Qed.

Lemma parse_rate_limit_spec_witness :
  parse_rate_limit (Some "100/1h")
  = Ok (Some {| limit := Num 100; window := Num 3600000;
                display := "100/1h" |})
  /\ startup {| WEB_UNLOCKER_ZONE := None; BROWSER_ZONE := None;
                RATE_LIMIT := Some "100 per hour" |}
     = Crashed invalid_rate_limit.
Proof.
  destruct parse_rate_limit_spec as (_ & Hform & Hother). split.
  - destruct (Hform "100" "1" "h"%char) as [_ Hexact].
    + split; [discriminate | reflexivity].
    + split; [discriminate | reflexivity].
    + right; right; reflexivity.
    + apply Hexact; reflexivity.
  - apply (Hother "100 per hour").
    + discriminate.
    + apply not_rate_limit_form. reflexivity.
    + reflexivity.
Defined.

(** A first number of 2^53 + 1 is no double: the limit read is 2^53, and
    the window is rounded likewise. *)
Lemma rate_limit_numbers_rounded :
  let text := "9007199254740993/9007199254740993s" in
  is_rate_limit_form text
  /\ decimal_value "9007199254740993" = 9007199254740993
  /\ exists cfg,
       parse_rate_limit (Some text) = Ok (Some cfg)
       /\ limit cfg = Num 9007199254740992
       /\ limit cfg <> Num (decimal_value "9007199254740993")
       /\ window cfg = Num 9007199254740992000
       /\ window cfg <> Num (decimal_value "9007199254740993" * 1 * 1000).
Proof.
  intros text. split; [|split; [reflexivity|]].
  - exists "9007199254740993", "9007199254740993", "s"%char.
    repeat split; try discriminate; auto.
  - eexists. split; [vm_compute; reflexivity|].
    repeat split; vm_compute; congruence.
Qed.

(** ** The sliding window *)

Section SlidingWindow.

Variable cfg : rate_limit_config.
Variables N W : Z.
Hypothesis limit_is : limit cfg = Num N.
Hypothesis window_is : window cfg = Num W.

Lemma check_rate_limit_unfold (now : Z) (st : debug_stats) :
  check_rate_limit (Some cfg) now st
  = if N <=? Z.of_nat (List.length (kept_at W now (call_timestamps st)))
    then (Throw (rate_limit_exceeded cfg),
          {| tool_calls := tool_calls st;
             session_calls := session_calls st;
             call_timestamps := kept_at W now (call_timestamps st) |})
    else (Ok true,
          {| tool_calls := tool_calls st;
             session_calls := session_calls st;
             call_timestamps := kept_at W now (call_timestamps st) ++ [now] |}).
Proof.
  unfold check_rate_limit. rewrite limit_is, window_is. reflexivity.
Qed.

Lemma kept_at_all_newer (now : Z) (timestamps : list Z) :
  Forall (fun t => now - W < t) (kept_at W now timestamps).
Proof.
  unfold kept_at. induction timestamps as [|t ts IH]; simpl.
  - constructor.
  - destruct (now - W <? t) eqn:E; [|exact IH].
    constructor; [lia | exact IH].
Qed.

Lemma kept_at_length (now : Z) (timestamps : list Z) :
  (List.length (kept_at W now timestamps) <= List.length timestamps)%nat.
Proof. apply List.filter_length_le. Qed.

(** An instant that is old enough is dropped, so fewer remain. *)
Lemma kept_at_drops (now e : Z) (timestamps : list Z) :
  In e timestamps -> e <= now - W ->
  (List.length (kept_at W now timestamps) < List.length timestamps)%nat.
Proof.
  unfold kept_at. induction timestamps as [|t ts IH]; simpl; [tauto|].
  intros [-> | Hin] Hold.
  - replace (now - W <? e) with false by lia.
    pose proof (List.filter_length_le (fun t => now - W <? t) ts). lia.
  - specialize (IH Hin Hold). destruct (now - W <? t); simpl; lia.
Qed.

Lemma recent_kept_at (a now : Z) (timestamps : list Z) :
  within_window a W now ->
  recent a (kept_at W now timestamps) = recent a timestamps.
Proof.
  intros [Hlo Hhi]. unfold recent, kept_at.
  induction timestamps as [|t ts IH]; simpl; [reflexivity|].
  destruct (now - W <? t) eqn:E1; simpl; destruct (a <=? t) eqn:E2;
    try (now rewrite IH); lia.
Qed.

Lemma recent_length_le_kept (a now : Z) (timestamps : list Z) :
  within_window a W now ->
  (List.length (recent a timestamps)
   <= List.length (kept_at W now timestamps))%nat.
Proof.
  intros [Hlo Hhi]. unfold recent, kept_at.
  induction timestamps as [|t ts IH]; simpl; [lia|].
  destruct (now - W <? t) eqn:E1; destruct (a <=? t) eqn:E2; simpl; lia.
Qed.

Lemma recent_after_check (a now : Z) (st : debug_stats) :
  within_window a W now ->
  Z.of_nat (List.length
              (recent a (call_timestamps
                           (snd (check_rate_limit (Some cfg) now st)))))
  = Z.of_nat (List.length (recent a (call_timestamps st)))
    + (if accepted (fst (check_rate_limit (Some cfg) now st))
       then 1 else 0).
Proof.
  intros Hin. rewrite check_rate_limit_unfold.
  destruct (N <=? _); simpl.
  - rewrite (recent_kept_at _ _ _ Hin). lia.
  - unfold recent at 1. rewrite List.filter_app, List.length_app.
    fold (recent a (kept_at W now (call_timestamps st))).
    rewrite (recent_kept_at _ _ _ Hin). simpl.
    destruct Hin as [Hlo _]. replace (a <=? now) with true by lia.
    simpl. lia.
Qed.

Lemma recent_after_run (a : Z) (times : list Z) (st : debug_stats) :
  Forall (within_window a W) times ->
  Z.of_nat (List.length
              (recent a (call_timestamps
                           (snd (run_checks (Some cfg) times st)))))
  = Z.of_nat (List.length (recent a (call_timestamps st)))
    + count_true (fst (run_checks (Some cfg) times st)).
Proof.
  intros Hall. revert st.
  induction Hall as [|now later Hnow _ IH]; intros st; cbn [run_checks].
  - unfold count_true. simpl. lia.
  - pose proof (recent_after_check a now st Hnow) as Hstep.
    destruct (check_rate_limit (Some cfg) now st) as [r st1].
    specialize (IH st1).
    destruct (run_checks (Some cfg) later st1) as [rs st2].
    cbn [fst snd] in *. rewrite IH, Hstep. unfold count_true.
    destruct (accepted r); simpl; lia.
Qed.

(** In every reachable state at most [N] instants are recorded, unless
    none is. *)
Lemma reachable_bounded (st : debug_stats) :
  reachable (Some cfg) st ->
  call_timestamps st = []
  \/ Z.of_nat (List.length (call_timestamps st)) <= N.
Proof.
  induction 1 as [|now st Hreach IH|name st Hreach IH].
  - left. reflexivity.
  - rewrite check_rate_limit_unfold.
    destruct (N <=? _) eqn:E; simpl.
    + pose proof (kept_at_length now (call_timestamps st)).
      destruct IH as [Hnil | Hle]; [|right; lia].
      left. rewrite Hnil. reflexivity.
    + right. rewrite List.length_app. simpl. lia.
  - exact IH.
Qed.

Lemma earliest_in (timestamps : list Z) (e : Z) :
  earliest timestamps = Some e -> In e timestamps.
Proof.
  destruct timestamps as [|t rest]; simpl; [discriminate|].
  intros H; inversion H; subst; clear H.
  assert (Hfold : forall l t0,
             List.fold_left Z.min l t0 = t0 \/ In (List.fold_left Z.min l t0) l).
  { induction l as [|x l IH]; intros t0; simpl; [now left|].
    destruct (IH (Z.min t0 x)) as [Heq | Hin]; [|now right; right].
    rewrite Heq.
    destruct (Z.min_spec t0 x) as [[_ Hm] | [_ Hm]]; rewrite Hm;
      [now left | now right; left]. }
  destruct (Hfold rest t) as [Heq | Hin]; [left | right]; auto.
Qed.

End SlidingWindow.

Lemma reachable_run (cfg : option rate_limit_config) (times : list Z)
    (st : debug_stats) :
  reachable cfg st -> reachable cfg (snd (run_checks cfg times st)).
Proof.
  revert st. induction times as [|now later IH]; intros st Hst;
    cbn [run_checks]; [exact Hst|].
  pose proof (reach_check cfg now st Hst) as Hstep.
  destruct (check_rate_limit cfg now st) as [r st1].
  specialize (IH st1 Hstep).
  now destruct (run_checks cfg later st1) as [rs st2].
Qed.

Lemma run_checks_unlimited (times : list Z) (st : debug_stats) :
  run_checks None times st = (List.map (fun _ => true) times, st).
Proof.
  induction times as [|now later IH]; cbn [run_checks]; [reflexivity|].
  simpl. now rewrite IH.
Qed.

(** C3. With a limit [N] and a window [W]: a check keeps the instants
    strictly newer than [now - W]; if at least [N] remain it throws the
    rate-limit error carrying the display text and does not record [now],
    otherwise it records [now] and succeeds.  Hence once [N] calls made
    inside a window of length [W] were accepted, a further call inside that
    window is refused; a call made when [W] has elapsed since the earliest
    recorded instant succeeds; and without a configuration every call
    passes and nothing is recorded. *)
Theorem rate_limit_window (cfg : rate_limit_config) (N W : Z) :
  limit cfg = Num N -> window cfg = Num W ->
  (forall now st,
      let kept := List.filter (fun t => now - W <? t) (call_timestamps st) in
      let out := check_rate_limit (Some cfg) now st in
      if N <=? Z.of_nat (List.length kept)
      then fst out = Throw (Error ("Rate limit exceeded: " ++ display cfg))
           /\ call_timestamps (snd out) = kept
      else fst out = Ok true
           /\ call_timestamps (snd out) = (kept ++ [now])%list)
  /\ (forall a times t st,
         Forall (within_window a W) times -> within_window a W t ->
         N <= count_true (fst (run_checks (Some cfg) times st)) ->
         fst (check_rate_limit (Some cfg) t
                (snd (run_checks (Some cfg) times st)))
         = Throw (Error ("Rate limit exceeded: " ++ display cfg)))
  /\ (forall st e now,
         reachable (Some cfg) st ->
         earliest (call_timestamps st) = Some e -> W <= now - e ->
         fst (check_rate_limit (Some cfg) now st) = Ok true)
  /\ (forall times st,
         run_checks None times st = (List.map (fun _ => true) times, st)).
Proof.
  intros HN HW. repeat split.
  - intros now st kept out. subst out.
    rewrite (check_rate_limit_unfold cfg N W HN HW).
    fold (kept_at W now (call_timestamps st)) in kept. subst kept. destruct (N <=? _); simpl; auto.
  - intros a times t st Htimes Ht Hcount.
    rewrite (check_rate_limit_unfold cfg N W HN HW).
    pose proof (recent_after_run cfg N W HN HW a times st Htimes) as Hrun.
    pose proof (recent_length_le_kept W a t
                  (call_timestamps (snd (run_checks (Some cfg) times st))) Ht).
    replace (N <=? _) with true by lia. reflexivity.
  - intros st e now Hreach He Hold.
    rewrite (check_rate_limit_unfold cfg N W HN HW).
    pose proof (earliest_in _ _ He) as Hin.
    pose proof (kept_at_drops W now e _ Hin ltac:(lia)) as Hdrop.
    destruct (reachable_bounded cfg N W HN HW st Hreach) as [Hnil | Hle].
    + rewrite Hnil in Hin. destruct Hin.
    + replace (N <=? _) with false by lia. reflexivity.
  - apply run_checks_unlimited.
Qed.

Lemma rate_limit_window_witness :
  let cfg := {| limit := Num 2; window := Num 1000; display := "2/1s" |} in
  fst (check_rate_limit (Some cfg) 20
         (snd (run_checks (Some cfg) [0; 10] initial_stats)))
  = Throw (Error "Rate limit exceeded: 2/1s")
  /\ fst (check_rate_limit (Some cfg) 1000
            (snd (run_checks (Some cfg) [0; 10] initial_stats)))
     = Ok true.
Proof.
  intros cfg.
  destruct (rate_limit_window cfg 2 1000 eq_refl eq_refl)
    as (_ & Hfull & Hfree & _).
  split.
  - apply (Hfull 0 [0; 10] 20 initial_stats).
    + repeat constructor; unfold within_window; lia.
    + unfold within_window; lia.
    + vm_compute. discriminate.
  - apply (Hfree _ 0 1000).
    + apply reachable_run. constructor.
    + reflexivity.
    + lia.
Defined.

(** ** The invariant of the recorded instants *)

Lemma to_double_natural (z : Z) :
  0 <= z -> natural_or_infinite (to_double z).
Proof.
  intros Hz. destruct (to_double_nonneg z Hz) as [(v & -> & Hv) | ->].
  - right. now exists v.
  - now left.
Qed.

Lemma mul_natural (n : js_number) (k : Z) :
  0 < k -> natural_or_infinite n -> natural_or_infinite (mul n (Num k)).
Proof.
  intros Hk [-> | (v & -> & Hv)]; cbn [mul].
  - rewrite (proj2 (Z.eqb_neq k 0)) by lia.
    rewrite (proj2 (Z.ltb_lt 0 k)) by lia. now left.
  - apply to_double_natural. nia.
Qed.

(** The numbers of a configuration read from a text. *)
Lemma parsed_config_shape (text : string) (cfg : rate_limit_config) :
  parse_rate_limit (Some text) = Ok (Some cfg) ->
  natural_or_infinite (limit cfg) /\ natural_or_infinite (window cfg).
Proof.
  unfold parse_rate_limit. destruct (is_empty text); [discriminate|].
  destruct (match_rate_limit text) as [[[lim time] unit]|] eqn:Hm;
    [|discriminate].
  apply match_rate_limit_sound in Hm as (_ & Hl & Ht & Hu).
  rewrite (parseInt_number_text _ Hl), (parseInt_number_text _ Ht).
  intros H; inversion H; subst; clear H. cbn [limit window].
  pose proof (decimal_value_nonneg _ (proj2 Hl)).
  pose proof (decimal_value_nonneg _ (proj2 Ht)).
  split; [now apply to_double_natural|].
  apply mul_natural; [lia|]. apply mul_natural.
  - apply unit_cases in Hu as [-> | [-> | ->]]; reflexivity.
  - now apply to_double_natural.
Qed.

(** Right after a check every recorded instant is newer than the start
    of the window, as soon as the instant of the check itself is. *)
Lemma checked_all_newer (cfg : rate_limit_config) (now : Z)
    (st : debug_stats) :
  gt (Num now) (sub (Num now) (window cfg)) = true ->
  Forall (fun t => gt (Num t) (sub (Num now) (window cfg)) = true)
         (call_timestamps (snd (check_rate_limit (Some cfg) now st))).
Proof.
  intros Hnow. unfold check_rate_limit. cbv zeta.
  set (newer := fun t => gt (Num t) (sub (Num now) (window cfg))).
  assert (Hkept : Forall (fun t => newer t = true)
                    (List.filter newer (call_timestamps st))).
  { apply List.Forall_forall. intros t Hin.
    apply List.filter_In in Hin. tauto. }
  destruct (ge _ _); cbn [snd call_timestamps]; [exact Hkept|].
  apply Forall_app. split; [exact Hkept|].
  constructor; [exact Hnow | constructor].
Qed.

(** In every state the process can reach no more instants are recorded
    than the limit allows. *)
Lemma reachable_within_limit (cfg : rate_limit_config) (st : debug_stats) :
  natural_or_infinite (limit cfg) ->
  reachable (Some cfg) st ->
  ge (limit cfg) (Num (Z.of_nat (List.length (call_timestamps st)))) = true.
Proof.
  intros Hlimit. induction 1 as [|now st Hreach IH|name st Hreach IH].
  - destruct Hlimit as [-> | (N & -> & HN)]; [reflexivity|].
    cbn [ge initial_stats call_timestamps List.length]. now apply Z.leb_le.
  - unfold check_rate_limit. cbv zeta.
    set (newer := fun t => gt (Num t) (sub (Num now) (window cfg))).
    pose proof (List.filter_length_le newer (call_timestamps st)) as Hlen.
    destruct (ge (Num _) (limit cfg)) eqn:E; cbn [snd call_timestamps].
    + destruct Hlimit as [Hinf | (N & HN & _)].
      * rewrite Hinf. reflexivity.
      * rewrite HN in *. cbn [ge] in *. apply Z.leb_le.
        apply Z.leb_le in IH. lia.
    + destruct Hlimit as [Hinf | (N & HN & _)].
      * rewrite Hinf. reflexivity.
      * rewrite HN in *. cbn [ge] in *. apply Z.leb_le.
        apply Z.leb_gt in E. rewrite List.length_app. cbn [List.length]. lia.
  - exact IH.
Qed.

(** C8 (amended). For a configuration read by [parse_rate_limit] whose
    window is not zero: right after every rate-limit check, made in any
    state the process can reach, each recorded instant is strictly newer
    than [now - window] and at most [limit] instants are recorded. *)
Theorem sliding_window_invariant (text : string) (cfg : rate_limit_config)
    (st : debug_stats) (now : Z) :
  parse_rate_limit (Some text) = Ok (Some cfg) ->
  window cfg <> Num 0 ->
  reachable (Some cfg) st ->
  window_invariant cfg now (snd (check_rate_limit (Some cfg) now st)).
Proof.
  intros Hparse Hwin Hreach.
  destruct (parsed_config_shape _ _ Hparse) as [Hlimit Hwindow].
  split.
  - apply checked_all_newer.
    destruct Hwindow as [-> | (W & HW & HW0)]; [reflexivity|].
    rewrite HW in *. cbn [gt sub]. apply Z.ltb_lt.
    assert (W <> 0) by congruence. lia.
  - apply reachable_within_limit; [exact Hlimit|]. now apply reach_check.
Qed.

Lemma sliding_window_invariant_witness :
  window_invariant
    {| limit := Num 5; window := Num 1000; display := "5/1s" |} 7000
    (snd (check_rate_limit
            (Some {| limit := Num 5; window := Num 1000; display := "5/1s" |})
            7000 initial_stats)).
Proof.
  apply (sliding_window_invariant "5/1s").
  - reflexivity.
  - discriminate.
  - constructor.
Defined.

(** A window of zero length is accepted by [parse_rate_limit]; the instant
    a check then records is [now] itself, which is not strictly newer than
    [now - 0]. *)
Lemma sliding_window_zero_duration :
  let cfg := {| limit := Num 5; window := Num 0; display := "5/0s" |} in
  parse_rate_limit (Some "5/0s") = Ok (Some cfg)
  /\ reachable (Some cfg) initial_stats
  /\ ~ window_invariant cfg 7000
         (snd (check_rate_limit (Some cfg) 7000 initial_stats)).
Proof.
  intros cfg. split; [reflexivity|]. split; [constructor|].
  intros [Hnewer _]. vm_compute in Hnewer.
  inversion Hnewer as [|? ? Hhead _]. discriminate Hhead.
Qed.

(** ** Credentials *)

Lemma match_param_sound (key url tok : string) :
  match_param key url = Some tok ->
  tok <> "" /\ all_chars is_token_char tok = true.
Proof.
  induction url as [|c rest IH]; cbn [match_param].
  - destruct key; simpl; intros H; discriminate H.
  - destruct (starts_with key (String c rest)).
    + destruct (span is_token_char _) as [run after] eqn:Hspan. cbn [fst].
      destruct (truthy_string run) eqn:Hrun.
      * intros H; inversion H; subst.
        apply span_split in Hspan as (_ & Hall & _).
        split; [|exact Hall]. intros ->. discriminate.
      * exact IH.
    + cbn [truthy_string is_empty negb]. exact IH.
Qed.

Lemma matches_token_format_iff (tok : string) :
  matches_token_format tok = true
  <-> tok <> "" /\ all_chars is_token_char tok = true.
Proof.
  unfold matches_token_format, truthy_string.
  rewrite andb_true_iff, negb_true_iff, is_empty_false. tauto.
Qed.

Lemma match_param_token (good rest : string) :
  good <> "" -> all_chars is_token_char good = true ->
  stops is_token_char rest ->
  match_param "token=" ("/mcp?token=" ++ good ++ rest) = Some good.
Proof.
  intros Hne Hall Hstop.
  change (match_param "token=" ("/mcp?token=" ++ good ++ rest))
    with (if truthy_string (fst (span is_token_char (good ++ rest)))
          then Some (fst (span is_token_char (good ++ rest)))
          else match_param "token=" ("oken=" ++ good ++ rest)).
  rewrite (span_run _ _ _ Hall Hstop). cbn [fst].
  destruct good; [congruence | reflexivity].
Qed.

(** What [authenticate] answers once the token has been picked. *)
Lemma authenticate_with_token (env : process_env) (req : request)
    (tok : string) :
  (match authorization req with
   | Some h => if truthy_string h && starts_with "Bearer " h
               then Some (substring_from 7 h)
               else match_param "token=" (request_url req)
   | None => match_param "token=" (request_url req)
   end) = Some tok ->
  (tok = "" -> authenticate env req = Throw missing_token)
  /\ (tok <> "" -> all_chars is_token_char tok = false ->
      authenticate env req = Throw invalid_token_format)
  /\ (tok <> "" -> all_chars is_token_char tok = true ->
      exists s, authenticate env req = Ok s /\ apiToken s = Some tok).
Proof.
  intros Hpick. unfold authenticate. cbn [token extractUrlParams].
  rewrite Hpick. repeat split.
  - intros ->. reflexivity.
  - intros Hne Hbad. apply is_empty_false in Hne. rewrite Hne.
    unfold matches_token_format. rewrite Hbad, andb_false_r. reflexivity.
  - intros Hne Hgood. pose proof Hne as Hne'.
    apply is_empty_false in Hne'. rewrite Hne'.
    replace (matches_token_format tok) with true
      by (symmetry; now apply matches_token_format_iff).
    cbn [negb]. eexists. split; reflexivity.
Qed.

(** C4 (amended). A token sent in a bearer Authorization header passes
    when it is a non-empty run of characters of [a-zA-Z0-9_-], is refused
    with 401 "Invalid API Token Format" when it holds any other character,
    and counts as missing when it is empty.  Without a bearer header the
    token is what the URL pattern reads: the longest run of characters of
    the class that follows [token=]; such a token always passes the format
    test (whatever follows the run is ignored), and when the pattern reads
    nothing the request is refused with the 401 missing-token answer. *)
Theorem authenticate_credentials (env : process_env) (req : request) :
  (forall tok,
      authorization req = Some ("Bearer " ++ tok) ->
      (tok = "" -> authenticate env req = Throw missing_token)
      /\ (tok <> "" -> all_chars is_token_char tok = false ->
          authenticate env req = Throw invalid_token_format)
      /\ (tok <> "" -> all_chars is_token_char tok = true ->
          exists s, authenticate env req = Ok s /\ apiToken s = Some tok))
  /\ ((authorization req = None
       \/ exists h, authorization req = Some h
                    /\ starts_with "Bearer " h = false) ->
      match match_param "token=" (request_url req) with
      | Some tok =>
          matches_token_format tok = true
          /\ exists s, authenticate env req = Ok s /\ apiToken s = Some tok
      | None => authenticate env req = Throw missing_token
      end)
  /\ (forall good rest,
         good <> "" -> all_chars is_token_char good = true ->
         stops is_token_char rest ->
         url req = Some ("/mcp?token=" ++ good ++ rest) ->
         match_param "token=" (request_url req) = Some good).
Proof.
  split; [|split].
  - intros tok Hheader. apply authenticate_with_token.
    rewrite Hheader. reflexivity.
  - intros Hnone.
    assert (Hpick :
              (match authorization req with
               | Some h => if truthy_string h && starts_with "Bearer " h
                           then Some (substring_from 7 h)
                           else match_param "token=" (request_url req)
               | None => match_param "token=" (request_url req)
               end) = match_param "token=" (request_url req)).
    { destruct Hnone as [-> | (h & -> & Hh)]; [reflexivity|].
      now rewrite Hh, andb_false_r. }
    destruct (match_param "token=" (request_url req)) as [tok|] eqn:Hurl.
    + destruct (match_param_sound _ _ _ Hurl) as [Hne Hall].
      split; [now apply matches_token_format_iff|].
      apply (authenticate_with_token env req tok); auto.
      rewrite Hurl. exact Hpick.
    + unfold authenticate. cbn [token extractUrlParams].
      rewrite Hurl, Hpick. reflexivity.
  - intros good rest Hne Hall Hstop Hurl.
    unfold request_url. rewrite Hurl. cbn [or_default truthy_string is_empty negb String.append].
    now apply match_param_token.
Qed.

Lemma authenticate_credentials_witness :
  authenticate
    {| WEB_UNLOCKER_ZONE := None; BROWSER_ZONE := None; RATE_LIMIT := None |}
    {| url := Some "/mcp"; authorization := Some "Bearer abc def" |}
  = Throw invalid_token_format
  /\ match_param "token="
       (request_url {| url := Some "/mcp?token=abc_1&unlocker=zone";
                       authorization := None |})
     = Some "abc_1".
Proof.
  split.
  - destruct (authenticate_credentials
                {| WEB_UNLOCKER_ZONE := None; BROWSER_ZONE := None;
                   RATE_LIMIT := None |}
                {| url := Some "/mcp"; authorization := Some "Bearer abc def" |})
      as (Hheader & _ & _).
    destruct (Hheader "abc def" eq_refl) as (_ & Hbad & _).
    apply Hbad; [discriminate | reflexivity].
  - destruct (authenticate_credentials
                {| WEB_UNLOCKER_ZONE := None; BROWSER_ZONE := None;
                   RATE_LIMIT := None |}
                {| url := Some "/mcp?token=abc_1&unlocker=zone";
                   authorization := None |})
      as (_ & _ & Hurl).
    apply (Hurl "abc_1" "&unlocker=zone");
      [discriminate | reflexivity | reflexivity | reflexivity].
Defined.

(** A token in the URL that holds a character outside the class is not
    refused: the pattern reads the run before that character. *)
Lemma url_token_not_rejected :
  let env := {| WEB_UNLOCKER_ZONE := None; BROWSER_ZONE := None;
                RATE_LIMIT := None |} in
  let req := {| url := Some "/mcp?token=abc;def"; authorization := None |} in
  all_chars is_token_char "abc;def" = false
  /\ authenticate env req
     = Ok {| apiToken := Some "abc";
             unlockerZone := Some "mcp_unlocker";
             browserZone := Some "mcp_browser" |}
  /\ authenticate env req <> Throw invalid_token_format.
Proof.
  intros env req. split; [reflexivity|]. split; [reflexivity|].
  vm_compute. discriminate.
Qed.

(** ** The wrapper *)

Section Wrapper.

Context {D R : Type}.
Variable env : process_env.
Variable cfg : option rate_limit_config.
Variable name : string.
Variable fn : tool_logic D R.
Variable now : Z.
Variable args : D.
Variable c : context.
Variable st : debug_stats.

Lemma tool_fn_refused (e : js_error) :
  fst (check_rate_limit cfg now st) = Throw e ->
  tool_fn env cfg name fn now args c st
  = (Throw e, snd (check_rate_limit cfg now st)).
Proof.
  unfold tool_fn.
  destruct (check_rate_limit cfg now st) as [[b | e'] st1]; simpl;
    [discriminate | now intros [= ->]].
Qed.

Lemma tool_fn_no_token :
  accepted (fst (check_rate_limit cfg now st)) = true ->
  truthy_opt (session_field apiToken c) = false ->
  tool_fn env cfg name fn now args c st = (Throw no_api_token,
     count_call name (snd (check_rate_limit cfg now st))).
Proof.
  unfold tool_fn.
  destruct (check_rate_limit cfg now st) as [[b | e] st1]; simpl;
    [|discriminate].
  intros _. destruct (session_field apiToken c) as [tok|]; simpl;
    [|reflexivity].
  unfold truthy_string. rewrite negb_false_iff. now intros ->.
Qed.

Lemma tool_fn_runs (tok : string) :
  accepted (fst (check_rate_limit cfg now st)) = true ->
  session_field apiToken c = Some tok -> tok <> "" ->
  tool_fn env cfg name fn now args c st
  = (match fn args (extend_context env c tok)
                (count_call name (snd (check_rate_limit cfg now st))) with
     | Ok r => Ok r
     | Throw e => Throw (normalize_error e)
     end, count_call name (snd (check_rate_limit cfg now st))).
Proof.
  unfold tool_fn.
  destruct (check_rate_limit cfg now st) as [[b | e] st1]; simpl;
    [|discriminate].
  intros _ -> Hne. apply is_empty_false in Hne. rewrite Hne.
  now destruct (fn args _ _).
Qed.

(** The counters move when the check passes, whatever happens next. *)
Lemma tool_fn_state :
  snd (tool_fn env cfg name fn now args c st)
  = if accepted (fst (check_rate_limit cfg now st))
    then count_call name (snd (check_rate_limit cfg now st))
    else snd (check_rate_limit cfg now st).
Proof.
  unfold tool_fn.
  destruct (check_rate_limit cfg now st) as [[b | e] st1]; simpl;
    [|reflexivity].
  destruct (session_field apiToken c) as [tok|]; [|reflexivity].
  destruct (is_empty tok); [reflexivity|].
  now destruct (fn args _ _).
Qed.

End Wrapper.

Lemma count_call_tool_calls (name : string) (st : debug_stats) :
  tool_calls (count_call name st)
  = <[name := default 0 (tool_calls st !! name) + 1]> (tool_calls st).
Proof.
  unfold count_call. cbn [tool_calls].
  rewrite lookup_insert_eq. cbn [default]. apply insert_insert_eq.
Qed.

Lemma check_keeps_counters (cfg : option rate_limit_config) (now : Z)
    (st : debug_stats) :
  tool_calls (snd (check_rate_limit cfg now st)) = tool_calls st
  /\ session_calls (snd (check_rate_limit cfg now st)) = session_calls st.
Proof.
  unfold check_rate_limit. destruct cfg as [cfg|]; [|auto].
  destruct (ge _ _); auto.
Qed.

(** The check looks at the recorded instants only. *)
Lemma check_by_timestamps (cfg : option rate_limit_config) (now : Z)
    (st st' : debug_stats) :
  call_timestamps st = call_timestamps st' ->
  accepted (fst (check_rate_limit cfg now st))
  = accepted (fst (check_rate_limit cfg now st'))
  /\ call_timestamps (snd (check_rate_limit cfg now st))
     = call_timestamps (snd (check_rate_limit cfg now st')).
Proof.
  intros Heq. unfold check_rate_limit. destruct cfg as [cfg|]; [|auto].
  rewrite Heq. destruct (ge _ _); auto.
Qed.

Lemma run_tools_counters {D R : Type} (env : process_env)
    (cfg : option rate_limit_config) (fn : tool_logic D R) (args : D)
    (c : context) (calls : list (string * Z)) (st st' : debug_stats) :
  call_timestamps st = call_timestamps st' ->
  Forall (fun b => b = true)
         (fst (run_checks cfg (List.map snd calls) st')) ->
  tool_calls (run_tools env cfg fn calls args c st)
  = List.fold_left increment (List.map fst calls) (tool_calls st)
  /\ session_calls (run_tools env cfg fn calls args c st)
     = session_calls st + Z.of_nat (List.length calls).
Proof.
  revert st st'. induction calls as [|[name now] later IH]; intros st st' Hts.
  - intros _. simpl. split; [reflexivity | lia].
  - cbn [List.map snd fst run_checks run_tools List.fold_left List.length].
    destruct (check_by_timestamps cfg now st st' Hts) as [Hacc Hkept].
    destruct (check_keeps_counters cfg now st) as [Hcalls Htotal].
    rewrite tool_fn_state.
    destruct (check_rate_limit cfg now st') as [r st1'].
    destruct (run_checks cfg (List.map snd later) st1') as [rs st2'] eqn:Hrun.
    cbn [fst snd] in *. intros Hall.
    inversion Hall as [|? ? Hr Hrs]; subst.
    rewrite Hacc, Hr.
    destruct (IH (count_call name (snd (check_rate_limit cfg now st))) st1')
      as [IHcalls IHtotal].
    + cbn [count_call call_timestamps]. exact Hkept.
    + rewrite Hrun. exact Hrs.
    + rewrite IHcalls, IHtotal, count_call_tool_calls, Hcalls.
      cbn [count_call session_calls]. rewrite Htotal.
      split; [reflexivity | lia].
Qed.

(** C9 (amended). A wrapped tool invocation that passes the rate-limit
    check adds exactly one to the counter of its tool and to the session
    total, whether or not the tool then succeeds, and leaves the other
    counters alone; an invocation the rate limiter refuses changes no
    counter.  In particular, when none of them is refused, three
    invocations of "scrape_as_html" and one of "search" in a fresh process
    give the counters {scrape_as_html: 3, search: 1} and a session total
    of 4. *)
Theorem usage_counters {D R : Type} (env : process_env)
    (cfg : option rate_limit_config) (fn : tool_logic D R) (args : D)
    (c : context) :
  (forall name now st,
      let out := tool_fn env cfg name fn now args c st in
      (accepted (fst (check_rate_limit cfg now st)) = true ->
       tool_calls (snd out) !! name
       = Some (default 0 (tool_calls st !! name) + 1)
       /\ (forall other, other <> name ->
                         tool_calls (snd out) !! other
                         = tool_calls st !! other)
       /\ session_calls (snd out) = session_calls st + 1)
      /\ (accepted (fst (check_rate_limit cfg now st)) = false ->
          tool_calls (snd out) = tool_calls st
          /\ session_calls (snd out) = session_calls st))
  /\ (forall t1 t2 t3 t4,
         fst (run_checks cfg [t1; t2; t3; t4] initial_stats)
         = [true; true; true; true] ->
         let final :=
           run_tools env cfg fn
             [("scrape_as_html", t1); ("scrape_as_html", t2);
              ("scrape_as_html", t3); ("search", t4)]
             args c initial_stats in
         tool_calls final = {[ "scrape_as_html" := 3; "search" := 1 ]}
         /\ session_calls final = 4).
Proof.
  split.
  - intros name now st out. subst out. rewrite tool_fn_state.
    destruct (check_keeps_counters cfg now st) as [Hcalls Htotal].
    split; intros Hacc; rewrite Hacc.
    + rewrite count_call_tool_calls, Hcalls.
      cbn [count_call session_calls]. rewrite Htotal.
      split; [apply lookup_insert_eq|].
      split; [|reflexivity].
      intros other Hother. now apply lookup_insert_ne.
    + auto.
  - intros t1 t2 t3 t4 Hall final.
    destruct (run_tools_counters env cfg fn args c
                [("scrape_as_html", t1); ("scrape_as_html", t2);
                 ("scrape_as_html", t3); ("search", t4)]
                initial_stats initial_stats eq_refl) as [Hcalls Htotal].
    + cbn [List.map snd]. rewrite Hall. repeat constructor.
    + subst final. rewrite Hcalls, Htotal. split; reflexivity.
Qed.

Lemma usage_counters_witness :
  let env := {| WEB_UNLOCKER_ZONE := None; BROWSER_ZONE := None;
                RATE_LIMIT := None |} in
  let fn : tool_logic unit string := fun _ _ _ => Ok "<html></html>" in
  let c := {| session := None; reportProgress := None |} in
  session_calls (snd (tool_fn env None "search" fn 5 tt c initial_stats)) = 1
  /\ tool_calls
       (run_tools env None fn
          [("scrape_as_html", 1); ("scrape_as_html", 2);
           ("scrape_as_html", 3); ("search", 4)] tt c initial_stats)
     = {[ "scrape_as_html" := 3; "search" := 1 ]}.
Proof.
  intros env fn c.
  destruct (usage_counters env None fn tt c) as [Hone Hfour]. split.
  - destruct (Hone "search" 5 initial_stats) as [Hpass _].
    destruct (Hpass eq_refl) as (_ & _ & Htotal). exact Htotal.
  - destruct (Hfour 1 2 3 4 eq_refl) as [Hcalls _]. exact Hcalls.
Defined.

(** With the limit 2/1h the third and fourth invocation are refused and
    are not counted. *)
Lemma refused_call_not_counted :
  let env := {| WEB_UNLOCKER_ZONE := None; BROWSER_ZONE := None;
                RATE_LIMIT := Some "2/1h" |} in
  let cfg := {| limit := Num 2; window := Num 3600000;
                display := "2/1h" |} in
  let fn : tool_logic unit string := fun _ _ _ => Ok "<html></html>" in
  let c := {| session := Some {| apiToken := Some "key";
                                 unlockerZone := None;
                                 browserZone := None |};
              reportProgress := None |} in
  let final :=
    run_tools env (Some cfg) fn
      [("scrape_as_html", 1); ("scrape_as_html", 2);
       ("scrape_as_html", 3); ("search", 4)] tt c initial_stats in
  parse_rate_limit (RATE_LIMIT env) = Ok (Some cfg)
  /\ tool_calls final = {[ "scrape_as_html" := 2 ]}
  /\ session_calls final = 2
  /\ session_calls final <> 4.
Proof.
  intros env cfg fn c final.
  split; [reflexivity|]. split; [reflexivity|]. split; [reflexivity|].
  vm_compute. discriminate.
Qed.

(** ** Failures of the tool logic *)

(** C5 (amended). When the tool logic fails with an error that carries an
    upstream HTTP response whose body has a non-zero length (a non-empty
    text, for one), the wrapper throws one new error with the message
    "HTTP <status>: <body>"; when the body has no length or length zero
    (an empty text, a JSON object, nothing), and when the error carries no
    HTTP response, the wrapper throws the original error unchanged. *)
Theorem tool_failure_normalized {D R : Type} (env : process_env)
    (cfg : option rate_limit_config) (name : string) (fn : tool_logic D R)
    (now : Z) (args : D) (c : context) (st : debug_stats)
    (tok : string) (e : js_error) :
  accepted (fst (check_rate_limit cfg now st)) = true ->
  session_field apiToken c = Some tok -> tok <> "" ->
  fn args (extend_context env c tok)
     (count_call name (snd (check_rate_limit cfg now st))) = Throw e ->
  let thrown := fst (tool_fn env cfg name fn now args c st) in
  (forall resp,
      response e = Some resp ->
      Value.truthy (Value.prop "length" (data resp)) = true ->
      thrown = Throw (Error ("HTTP " ++ number_to_string (Num (status resp))
                             ++ ": " ++ Value.to_string (data resp))))
  /\ (forall resp body,
         response e = Some resp -> data resp = JString body -> body <> "" ->
         thrown = Throw (Error ("HTTP " ++ number_to_string (Num (status resp))
                                ++ ": " ++ body)))
  /\ (forall resp,
         response e = Some resp ->
         Value.truthy (Value.prop "length" (data resp)) = false ->
         thrown = Throw e)
  /\ (response e = None -> thrown = Throw e).
Proof.
  intros Hacc Htok Hne Hfn thrown. subst thrown.
  rewrite (tool_fn_runs env cfg name fn now args c st tok Hacc Htok Hne), Hfn.
  cbn [fst]. unfold normalize_error. repeat split.
  - intros resp -> Hlen. now rewrite Hlen.
  - intros resp body -> Hbody Hnonempty. rewrite Hbody.
    cbn [Value.prop Value.to_string]. cbn [String.eqb Ascii.eqb].
    destruct body as [|b body]; [congruence | reflexivity].
  - intros resp -> Hlen. now rewrite Hlen.
  - now intros ->.
Qed.

Lemma tool_failure_normalized_witness :
  let env := {| WEB_UNLOCKER_ZONE := None; BROWSER_ZONE := None;
                RATE_LIMIT := None |} in
  let c := {| session := Some {| apiToken := Some "key";
                                 unlockerZone := None;
                                 browserZone := None |};
              reportProgress := None |} in
  let e := {| message := "Request failed with status code 403";
              response := Some {| status := 403; statusText := "Forbidden";
                                  data := JString "zone not found" |} |} in
  fst (tool_fn env None "scrape_as_html"
         (fun (_ : unit) _ _ => @Throw js_error string e) 0 tt c initial_stats)
  = Throw (Error "HTTP 403: zone not found").
Proof.
  intros env c e.
  destruct (tool_failure_normalized env None "scrape_as_html"
              (fun (_ : unit) _ _ => @Throw js_error string e) 0 tt c
              initial_stats "key" e eq_refl eq_refl ltac:(discriminate)
              eq_refl) as (_ & Htext & _ & _).
  exact (Htext {| status := 403; statusText := "Forbidden";
                  data := JString "zone not found" |}
               "zone not found" eq_refl eq_refl ltac:(discriminate)).
Defined.

(** An upstream error whose body is a parsed JSON object (or an empty
    text) is thrown as it came. *)
Lemma http_failure_without_text_body :
  let env := {| WEB_UNLOCKER_ZONE := None; BROWSER_ZONE := None;
                RATE_LIMIT := None |} in
  let c := {| session := Some {| apiToken := Some "key";
                                 unlockerZone := None;
                                 browserZone := None |};
              reportProgress := None |} in
  let resp := {| status := 400; statusText := "Bad Request";
                 data := JObject [("error", JString "invalid input")] |} in
  let e := {| message := "Request failed with status code 400";
              response := Some resp |} in
  let thrown :=
    fst (tool_fn env None "web_data_reddit_posts"
           (fun (_ : unit) _ _ => @Throw js_error string e) 0 tt c
           initial_stats) in
  thrown = Throw e
  /\ thrown <> Throw (Error ("HTTP " ++ number_to_string (Num (status resp))
                             ++ ": " ++ Value.to_string (data resp))).
Proof.
  intros env c resp e thrown. split; [reflexivity|].
  vm_compute. discriminate.
Qed.

(** ** The session token *)

Lemma or_default_truthy (a : option string) (b z : string) :
  a = Some z -> z <> "" -> or_default a b = z.
Proof.
  intros -> Hne. unfold or_default, truthy_string.
  apply is_empty_false in Hne. now rewrite Hne.
Qed.

Lemma or_default_falsy (a : option string) (b : string) :
  truthy_opt a = false -> or_default a b = b.
Proof.
  destruct a as [z|]; simpl; [|reflexivity]. now intros ->.
Qed.

Lemma or_else_falsy (a b : option string) :
  truthy_opt a = false -> or_else a b = b.
Proof. unfold or_else. now intros ->. Qed.

Lemma or_else_truthy (a b : option string) (z : string) :
  a = Some z -> z <> "" -> or_else a b = Some z.
Proof.
  intros -> Hne. unfold or_else, truthy_opt, truthy_string.
  apply is_empty_false in Hne. now rewrite Hne.
Qed.

(** C10 (amended). For a wrapped tool invocation that passes the
    rate-limit check: when the context carries no session API token the
    wrapper throws "No API token available in session" and the tool logic
    is not run, whatever the environment holds; when it carries one, the
    tool logic receives exactly that token, while the unlocker and browser
    zones are taken from the session, else from the environment, else are
    "mcp_unlocker" and "mcp_browser". *)
Theorem missing_session_token {D R : Type} (env : process_env)
    (cfg : option rate_limit_config) (name : string) (fn : tool_logic D R)
    (now : Z) (args : D) (c : context) (st : debug_stats) :
  accepted (fst (check_rate_limit cfg now st)) = true ->
  (truthy_opt (session_field apiToken c) = false ->
   forall (any_env : process_env) (any_fn : tool_logic D R),
     tool_fn any_env cfg name any_fn now args c st
     = (Throw no_api_token,
        count_call name (snd (check_rate_limit cfg now st))))
  /\ (forall tok,
         session_field apiToken c = Some tok -> tok <> "" ->
         let ext := extend_context env c tok in
         tool_fn env cfg name fn now args c st
         = (match fn args ext
                    (count_call name (snd (check_rate_limit cfg now st)))
            with
            | Ok r => Ok r
            | Throw e => Throw (normalize_error e)
            end,
            count_call name (snd (check_rate_limit cfg now st)))
         /\ ctx_apiToken ext = tok
         /\ (forall z, session_field unlockerZone c = Some z -> z <> "" ->
                       ctx_unlockerZone ext = z)
         /\ (truthy_opt (session_field unlockerZone c) = false ->
             (forall z, WEB_UNLOCKER_ZONE env = Some z -> z <> "" ->
                        ctx_unlockerZone ext = z)
             /\ (truthy_opt (WEB_UNLOCKER_ZONE env) = false ->
                 ctx_unlockerZone ext = "mcp_unlocker"))
         /\ (forall z, session_field browserZone c = Some z -> z <> "" ->
                       ctx_browserZone ext = z)
         /\ (truthy_opt (session_field browserZone c) = false ->
             (forall z, BROWSER_ZONE env = Some z -> z <> "" ->
                        ctx_browserZone ext = z)
             /\ (truthy_opt (BROWSER_ZONE env) = false ->
                 ctx_browserZone ext = "mcp_browser"))).
Proof.
  intros Hacc. split.
  - intros Hnone any_env any_fn. now apply tool_fn_no_token.
  - intros tok Htok Hne ext. subst ext.
    split; [now apply tool_fn_runs|]. split; [reflexivity|].
    unfold extend_context, unlocker_zone.
    cbn [ctx_unlockerZone ctx_browserZone].
    split; [|split; [|split]].
    + intros z Hz Hzne. now apply or_default_truthy.
    + intros Hsession. rewrite (or_default_falsy _ _ Hsession). split.
      * intros z Hz Hzne. now apply or_default_truthy.
      * intros Henv. now apply or_default_falsy.
    + intros z Hz Hzne.
      now rewrite (or_else_truthy _ _ z Hz Hzne),
        (or_default_truthy _ _ z eq_refl).
    + intros Hsession. rewrite (or_else_falsy _ _ Hsession). split.
      * intros z Hz Hzne. now apply or_default_truthy.
      * intros Henv. now apply or_default_falsy.
Qed.

Lemma missing_session_token_witness :
  let env := {| WEB_UNLOCKER_ZONE := Some "env_unlocker";
                BROWSER_ZONE := None; RATE_LIMIT := None |} in
  let fn : tool_logic unit string :=
    fun _ ext _ => Ok (ctx_apiToken ext ++ "," ++ ctx_unlockerZone ext
                       ++ "," ++ ctx_browserZone ext) in
  let anonymous := {| session := None; reportProgress := None |} in
  let known := {| session := Some {| apiToken := Some "key";
                                     unlockerZone := None;
                                     browserZone := Some "my_browser" |};
                  reportProgress := None |} in
  fst (tool_fn env None "search" fn 0 tt anonymous initial_stats)
  = Throw no_api_token
  /\ fst (tool_fn env None "search" fn 0 tt known initial_stats)
     = Ok "key,env_unlocker,my_browser".
Proof.
  intros env fn anonymous known. split.
  - destruct (missing_session_token env None "search" fn 0 tt anonymous
                initial_stats eq_refl) as [Hnone _].
    now rewrite (Hnone eq_refl env fn).
  - destruct (missing_session_token env None "search" fn 0 tt known
                initial_stats eq_refl) as [_ Hsome].
    destruct (Hsome "key" eq_refl ltac:(discriminate)) as [Hrun _].
    now rewrite Hrun.
Defined.

(** An invocation without a session token that the rate limiter refuses
    fails with the rate-limit error, not with the missing-token error. *)
Lemma rate_limit_precedes_token_check :
  let env := {| WEB_UNLOCKER_ZONE := None; BROWSER_ZONE := None;
                RATE_LIMIT := Some "1/1h" |} in
  let cfg := {| limit := Num 1; window := Num 3600000;
                display := "1/1h" |} in
  let fn : tool_logic unit string := fun _ _ _ => Ok "[]" in
  let known := {| session := Some {| apiToken := Some "key";
                                     unlockerZone := None;
                                     browserZone := None |};
                  reportProgress := None |} in
  let anonymous := {| session := None; reportProgress := None |} in
  let st1 := snd (tool_fn env (Some cfg) "search" fn 0 tt known
                    initial_stats) in
  let out := tool_fn env (Some cfg) "search" fn 1 tt anonymous st1 in
  parse_rate_limit (RATE_LIMIT env) = Ok (Some cfg)
  /\ session_field apiToken anonymous = None
  /\ fst out = Throw (Error "Rate limit exceeded: 1/1h")
  /\ fst out <> Throw no_api_token.
Proof.
  intros env cfg fn known anonymous st1 out.
  split; [reflexivity|]. split; [reflexivity|]. split; [reflexivity|].
  vm_compute. discriminate.
Qed.

(** ** Search URLs *)

Lemma all_chars_app (p : ascii -> bool) (a b : string) :
  all_chars p (a ++ b) = all_chars p a && all_chars p b.
Proof.
  induction a as [|x a IH]; simpl; [reflexivity|].
  now rewrite IH, andb_assoc.
Qed.

Lemma percent_safe (byte : Z) :
  0 <= byte < 256 -> all_chars url_safe (percent byte) = true.
Proof.
  intros Hb.
  assert (Hall : List.forallb
                   (fun n => all_chars url_safe (percent (Z.of_nat n)))
                   (List.seq 0 256) = true) by (vm_compute; reflexivity).
  rewrite List.forallb_forall in Hall.
  specialize (Hall (Z.to_nat byte)). rewrite Z2Nat.id in Hall by lia.
  apply Hall. apply List.in_seq. lia.
Qed.

Lemma encode_code_point_safe (cp : Z) :
  0 <= cp < 1114112 -> all_chars url_safe (encode_code_point cp) = true.
Proof.
  intros Hcp. unfold encode_code_point.
  destruct (cp <? 128) eqn:E1; [apply percent_safe; lia|].
  destruct (cp <? 2048) eqn:E2; [|destruct (cp <? 65536) eqn:E3];
    rewrite ?all_chars_app, ?andb_true_iff; repeat split;
    apply percent_safe; Z.to_euclidean_division_equations; lia.
Qed.

Lemma unreserved_unit_char (u : Z) :
  is_unreserved_unit u = true ->
  is_unreserved (unit_char u) = true
  /\ is_low_surrogate u = false /\ is_high_surrogate u = false.
Proof.
  unfold is_unreserved_unit, is_low_surrogate, is_high_surrogate.
  intros H. apply andb_true_iff in H as [H Hc].
  apply andb_true_iff in H as [H0 H1].
  split; [exact Hc|]. split; apply andb_false_iff; lia.
Qed.

Lemma unreserved_code (c : ascii) :
  is_unreserved c = true ->
  is_unreserved_unit (code c) = true /\ unit_char (code c) = c.
Proof.
  destruct c as [[] [] [] [] [] [] [] []]; vm_compute; intros H;
    first [discriminate H | split; reflexivity].
Qed.

(** One step of the encoder: it throws exactly on a text that is not well
    formed, and what it writes is made of unreserved characters and
    escapes. *)
Lemma encode_step (u : Z) (rest : list Z) :
  match encodeURIComponent rest with
  | Ok q => well_formed rest = true
            /\ (Forall is_code_unit rest -> all_chars url_safe q = true)
  | Throw _ => well_formed rest = false
  end ->
  (forall low rest', rest = low :: rest' ->
     match encodeURIComponent rest' with
     | Ok q => well_formed rest' = true
               /\ (Forall is_code_unit rest' -> all_chars url_safe q = true)
     | Throw _ => well_formed rest' = false
     end) ->
  match encodeURIComponent (u :: rest) with
  | Ok q => well_formed (u :: rest) = true
            /\ (Forall is_code_unit (u :: rest) ->
                all_chars url_safe q = true)
  | Throw _ => well_formed (u :: rest) = false
  end.
Proof.
  intros Hrest Hpair. cbn [encodeURIComponent well_formed].
  destruct (is_unreserved_unit u) eqn:Hu.
  { apply unreserved_unit_char in Hu as (Hc & -> & ->).
    destruct (encodeURIComponent rest) as [q|e]; cbn [followed_by];
      [|exact Hrest].
    destruct Hrest as [Hwf Hsafe]. split; [exact Hwf|].
    intros Hunits. apply Forall_cons in Hunits as [_ Hunits].
    cbn [String.append all_chars]. unfold url_safe at 1.
    now rewrite Hc, (Hsafe Hunits). }
  destruct (is_low_surrogate u) eqn:Hl; [reflexivity|].
  destruct (is_high_surrogate u) eqn:Hh.
  - destruct rest as [|low rest']; [reflexivity|].
    destruct (is_low_surrogate low) eqn:Hl2; [|reflexivity].
    cbn [andb]. specialize (Hpair low rest' eq_refl).
    destruct (encodeURIComponent rest') as [q|e]; cbn [followed_by];
      [|exact Hpair].
    destruct Hpair as [Hwf Hsafe]. split; [exact Hwf|].
    intros Hunits. apply Forall_cons in Hunits as [_ Hunits].
    apply Forall_cons in Hunits as [_ Hunits].
    rewrite all_chars_app, (Hsafe Hunits), andb_true_r.
    apply encode_code_point_safe. unfold pair_code_point.
    unfold is_high_surrogate in Hh. unfold is_low_surrogate in Hl2. lia.
  - destruct (encodeURIComponent rest) as [q|e]; cbn [followed_by];
      [|exact Hrest].
    destruct Hrest as [Hwf Hsafe]. split; [exact Hwf|].
    intros Hunits. apply Forall_cons in Hunits as [Hunit Hunits].
    rewrite all_chars_app, (Hsafe Hunits), andb_true_r.
    apply encode_code_point_safe. unfold is_code_unit in Hunit. lia.
Qed.

Lemma encodeURIComponent_agrees (units : list Z) :
  match encodeURIComponent units with
  | Ok q => well_formed units = true
            /\ (Forall is_code_unit units -> all_chars url_safe q = true)
  | Throw _ => well_formed units = false
  end.
Proof.
  enough (Hboth :
    match encodeURIComponent units with
    | Ok q => well_formed units = true
              /\ (Forall is_code_unit units -> all_chars url_safe q = true)
    | Throw _ => well_formed units = false
    end
    /\ forall u,
        match encodeURIComponent (u :: units) with
        | Ok q => well_formed (u :: units) = true
                  /\ (Forall is_code_unit (u :: units) ->
                      all_chars url_safe q = true)
        | Throw _ => well_formed (u :: units) = false
        end) by exact (proj1 Hboth).
  induction units as [|low rest [IHrest IHcons]].
  - split; [cbn; auto|]. intros u. apply encode_step; [cbn; auto|].
    intros ? ? Heq. discriminate Heq.
  - split; [apply IHcons|]. intros u. apply encode_step; [apply IHcons|].
    intros ? ? Heq. inversion Heq; subst. exact IHrest.
Qed.

Lemma encodeURIComponent_throws (units : list Z) :
  well_formed units = false -> encodeURIComponent units = Throw URIError.
Proof.
  intros Hwf. pose proof (encodeURIComponent_agrees units) as H.
  destruct (encodeURIComponent units) as [q|[]]; [|reflexivity].
  destruct H as [H _]. congruence.
Qed.

(** A text of the restricted kind holds no surrogate. *)
Lemma code_units_well_formed (text : string) :
  well_formed (code_units text) = true
  /\ Forall is_code_unit (code_units text).
Proof.
  unfold code_units. induction text as [|c text [IHwf IHunits]].
  - split; [reflexivity | constructor].
  - cbn [String.list_ascii_of_string List.map well_formed].
    assert (Hc : 0 <= code c < 256).
    { unfold code. pose proof (N_ascii_bounded c). lia. }
    unfold is_low_surrogate, is_high_surrogate.
    rewrite (proj2 (Z.leb_gt 56320 (code c))) by lia.
    rewrite (proj2 (Z.leb_gt 55296 (code c))) by lia.
    cbn [andb]. split; [exact IHwf|].
    constructor; [unfold is_code_unit; lia | exact IHunits].
Qed.

Lemma encodeURIComponent_unreserved (text : string) :
  all_chars is_unreserved text = true ->
  encodeURIComponent (code_units text) = Ok text.
Proof.
  unfold code_units.
  induction text as [|c text IH]; cbn [all_chars]; [reflexivity|].
  intros H. apply andb_true_iff in H as [Hc Hs].
  cbn [String.list_ascii_of_string List.map encodeURIComponent].
  destruct (unreserved_code c Hc) as [-> ->].
  now rewrite (IH Hs).
Qed.

Lemma page_of_number_text (digits : string) :
  is_number_text digits ->
  page_of (Some digits) = to_double (decimal_value digits).
Proof.
  intros Hd. unfold page_of, truthy_opt, truthy_string.
  destruct Hd as [Hne Hall]. pose proof Hne as Hne'.
  apply is_empty_false in Hne'. rewrite Hne'. cbn [negb].
  now apply parseInt_number_text.
Qed.

(** A natural number below 2^53 is rendered by its decimal digits. *)
Lemma number_to_string_safe (z : Z) :
  0 <= z < 2 ^ 53 -> number_to_string (Num z) = decimal z.
Proof.
  intros [Hlo Hhi]. unfold number_to_string, magnitude_to_string.
  rewrite (proj2 (Z.ltb_ge z 0)) by exact Hlo.
  now rewrite (proj2 (Z.ltb_lt _ _) Hhi).
Qed.

(** C6 (amended). [search_url] is a function of the engine, the query and
    the cursor alone.  A query in which a surrogate stands alone makes it
    throw a URIError; every other query is URL-encoded, and with [page]
    read from the cursor by [parseInt], or 0 when there is no cursor (or an
    empty one), the yandex URL carries [p = page], the bing URL
    [first = page * 10 + 1] and the google URL (the one built for any other
    engine) [start = page * 10], computed and rendered as doubles: for a
    cursor that is a decimal numeral of value [n] with [n * 10 + 1] below
    2^53 these are the integers [n], [n * 10 + 1] and [n * 10], written
    in decimal digits.  So cursor 2 gives first=21 for bing and p=2 for
    yandex, and no cursor gives start=0 for google. *)
Theorem search_url_spec (query : list Z) (cursor : option string) :
  let page := page_of cursor in
  (well_formed query = false ->
   forall engine, search_url engine query cursor = Throw URIError)
  /\ (well_formed query = true -> exists q, encodeURIComponent query = Ok q)
  /\ (forall q,
         encodeURIComponent query = Ok q ->
         (Forall is_code_unit query -> all_chars url_safe q = true)
         /\ search_url "yandex" query cursor
            = Ok ("https://yandex.com/search/?text=" ++ q ++ "&p="
                  ++ number_to_string page)
         /\ search_url "bing" query cursor
            = Ok ("https://www.bing.com/search?q=" ++ q ++ "&first="
                  ++ number_to_string (add (mul page (Num 10)) (Num 1)))
         /\ (forall engine,
                engine <> "yandex" -> engine <> "bing" ->
                search_url engine query cursor
                = Ok ("https://www.google.com/search?q=" ++ q ++ "&start="
                      ++ number_to_string (mul page (Num 10))))
         /\ search_url "google" query cursor
            = Ok ("https://www.google.com/search?q=" ++ q ++ "&start="
                  ++ number_to_string (mul page (Num 10))))
  /\ (forall text,
         well_formed (code_units text) = true
         /\ (all_chars is_unreserved text = true ->
             encodeURIComponent (code_units text) = Ok text))
  /\ page_of None = Num 0
  /\ (forall digits,
         is_number_text digits ->
         decimal_value digits * 10 + 1 < 2 ^ 53 ->
         let n := decimal_value digits in
         page_of (Some digits) = Num n
         /\ mul (page_of (Some digits)) (Num 10) = Num (n * 10)
         /\ add (mul (page_of (Some digits)) (Num 10)) (Num 1)
            = Num (n * 10 + 1)
         /\ number_to_string (Num n) = decimal n
         /\ number_to_string (Num (n * 10)) = decimal (n * 10)
         /\ number_to_string (Num (n * 10 + 1)) = decimal (n * 10 + 1))
  /\ search_url "bing" (code_units "cats") (Some "2")
     = Ok "https://www.bing.com/search?q=cats&first=21"
  /\ search_url "yandex" (code_units "cats") (Some "2")
     = Ok "https://yandex.com/search/?text=cats&p=2"
  /\ search_url "google" (code_units "cats") None
     = Ok "https://www.google.com/search?q=cats&start=0".
Proof.
  intros page. subst page.
  split.
  { intros Hwf engine. unfold search_url.
    now rewrite (encodeURIComponent_throws _ Hwf). }
  split.
  { intros Hwf. pose proof (encodeURIComponent_agrees query) as H.
    destruct (encodeURIComponent query) as [q|e]; [now exists q|].
    congruence. }
  split.
  { intros q Hq. split.
    { pose proof (encodeURIComponent_agrees query) as H.
      rewrite Hq in H. apply H. }
    unfold search_url. rewrite Hq.
    split; [reflexivity|]. split; [reflexivity|]. split; [|reflexivity].
    intros engine Hy Hb. apply String.eqb_neq in Hy, Hb. now rewrite Hy, Hb. }
  split.
  { intros text. split; [apply code_units_well_formed|].
    apply encodeURIComponent_unreserved. }
  split; [reflexivity|]. split.
  { intros digits Hd Hbound n.
    pose proof (decimal_value_nonneg _ (proj2 Hd)) as Hn. fold n in Hn, Hbound.
    rewrite (page_of_number_text _ Hd). fold n.
    rewrite (to_double_safe n) by (unfold safe_integer; lia).
    cbn [mul]. rewrite (to_double_safe (n * 10))
      by (unfold safe_integer; lia).
    cbn [add]. rewrite (to_double_safe (n * 10 + 1))
      by (unfold safe_integer; lia).
    repeat split; apply number_to_string_safe; lia. }
  repeat split.
Qed.

Lemma search_url_spec_witness :
  search_url "bing" (code_units "cats & dogs") (Some "12")
  = Ok "https://www.bing.com/search?q=cats%20%26%20dogs&first=121"
  /\ add (mul (page_of (Some "12")) (Num 10)) (Num 1) = Num 121
  /\ search_url "google" [55357] (Some "12") = Throw URIError
  /\ encodeURIComponent (code_units "cats_(1)") = Ok "cats_(1)".
Proof.
  destruct (search_url_spec (code_units "cats & dogs") (Some "12"))
    as (_ & _ & Hurl & Hsame & _ & Hpage & _).
  destruct (Hurl "cats%20%26%20dogs" eq_refl) as (_ & _ & Hbing & _).
  destruct (Hpage "12") as (_ & _ & Hfirst & _);
    [split; [discriminate | reflexivity] | reflexivity |].
  destruct (search_url_spec [55357] (Some "12")) as (Hthrow & _).
  split; [exact Hbing|]. split; [exact Hfirst|].
  split; [exact (Hthrow eq_refl "google")|].
  exact (proj2 (Hsame "cats_(1)") eq_refl).
Defined.

(** A page whose tenfold plus one is no double, a cursor of 2^53 + 1, an
    offset of 10^22, and a query that ends in a high surrogate. *)
Lemma search_url_beyond_exact :
  search_url "bing" (code_units "cats") (Some "900719925474100")
  = Ok "https://www.bing.com/search?q=cats&first=9007199254741000"
  /\ decimal_value "900719925474100" * 10 + 1 = 9007199254741001
  /\ search_url "bing" (code_units "cats") (Some "900719925474100")
     <> Ok ("https://www.bing.com/search?q=cats&first="
            ++ decimal (decimal_value "900719925474100" * 10 + 1))
  /\ search_url "yandex" (code_units "cats") (Some "9007199254740993")
     = Ok "https://yandex.com/search/?text=cats&p=9007199254740992"
  /\ search_url "google" (code_units "cats") (Some "1000000000000000000000")
     = Ok "https://www.google.com/search?q=cats&start=1e+22"
  /\ search_url "google" (code_units "cats" ++ [55357])%list None
     = Throw URIError.
Proof.
  repeat split; vm_compute; first [reflexivity | congruence].
Qed.

(** ** The polling loop *)

Section Poller.

Variable id : string.
Variable up : upstream.
Variable sid : string.
Variable c : extended_context.

Lemma poll_loop_at_bound (fuel : nat) (st : poll_state) :
  max_attempts <= attempts st ->
  poll_loop fuel id up sid c st = (Thrown timeout_error, tested st).
Proof.
  intros Hge.
  assert (Htest : (attempts (tested st) <? max_attempts) = false)
    by (cbn [tested attempts]; lia).
  destruct fuel; cbn [poll_loop]; now rewrite Htest.
Qed.

Lemma seqZ_step (a n : Z) :
  0 <= n ->
  (rev (seqZ (a + 1) n) ++ [a])%list = rev (seqZ a (n + 1)).
Proof.
  intros Hn. rewrite (seqZ_cons a (n + 1)) by lia.
  replace (Z.succ a) with (a + 1) by lia.
  replace (Z.pred (n + 1)) with n by lia. reflexivity.
Qed.

(** The loop ends within the fuel it is given, and within the bound. *)
Lemma poll_loop_bounded (fuel : nat) (st : poll_state) :
  0 <= attempts st <= max_attempts ->
  max_attempts - attempts st <= Z.of_nat fuel ->
  poll_bounded up sid st (poll_loop fuel id up sid c st).
Proof.
  revert st. induction fuel as [|fuel IH]; intros st Hatt Hfuel.
  - rewrite poll_loop_at_bound by lia.
    unfold poll_bounded. cbn [fst snd tested attempts queries attempt_history].
    replace (attempts st - attempts st + 1) with 1 by lia.
    repeat split; try discriminate; try lia.
    left. split; [reflexivity | lia].
  - destruct (Z.ltb_spec (attempts st) max_attempts) as [Hlt | Hge].
    2:{ rewrite poll_loop_at_bound by lia.
        unfold poll_bounded.
        cbn [fst snd tested attempts queries attempt_history].
        replace (attempts st - attempts st + 1) with 1 by lia.
        repeat split; try discriminate; try lia.
        left. split; [reflexivity | lia]. }
    assert (Hrec : forall st1,
               attempts st1 = attempts st + 1 ->
               (queries st <= queries st1 <= S (queries st))%nat ->
               attempt_history st1 = attempts st :: attempt_history st ->
               poll_bounded up sid st (poll_loop fuel id up sid c st1)).
    { intros st1 Ha Hq Hh.
      destruct (IH st1) as (Hend & Hgrow & Hqueries & Hhist & Hout);
        [lia | lia |].
      unfold poll_bounded. rewrite Ha, Hh in *.
      split; [exact Hend|]. split; [lia|]. split; [lia|].
      split; [|exact Hout].
      rewrite Hhist.
      set (n := attempts (snd (poll_loop fuel id up sid c st1))
                - (attempts st + 1) + 1).
      replace (attempts (snd (poll_loop fuel id up sid c st1))
               - attempts st + 1) with (n + 1) by (subst n; lia).
      rewrite <- (seqZ_step (attempts st) n) by (subst n; lia).
      now rewrite <- List.app_assoc. }
    assert (Hret : forall st1 body,
               attempts st1 = attempts st ->
               queries st1 = S (queries st) ->
               attempt_history st1 = attempts st :: attempt_history st ->
               snapshot up sid (queries st) = Resolved body ->
               pending (Resolved body) = false ->
               poll_bounded up sid st
                 (Returned (Value.JSON_stringify body), st1)).
    { intros st1 body Ha Hq Hh Hsnap Hpend.
      unfold poll_bounded. cbn [fst snd]. rewrite Ha, Hq, Hh.
      replace (attempts st - attempts st + 1) with 1 by lia.
      split; [discriminate|]. split; [lia|]. split; [lia|].
      split; [reflexivity|]. right. now exists (queries st), body. }
    cbn [poll_loop].
    replace (attempts (tested st) <? max_attempts) with true
      by (cbn [tested attempts]; lia).
    unfold report_progress, query_snapshot.
    destruct (reportProgress (ctx c)) as [callback|].
    + destruct (callback _) as [[]|e].
      * cbn [queries attempts tested].
        destruct (snapshot up sid (queries st)) as [body|e] eqn:Hsnap.
        -- destruct (Value.is_string "running" (Value.prop "status" body))
             eqn:Hrun.
           ++ apply Hrec; cbn; [reflexivity | lia | reflexivity].
           ++ apply Hret with (body := body); auto.
        -- apply Hrec; cbn; [reflexivity | lia | reflexivity].
      * apply Hrec; cbn; [reflexivity | lia | reflexivity].
    + cbn [queries attempts tested].
      destruct (snapshot up sid (queries st)) as [body|e] eqn:Hsnap.
      * destruct (Value.is_string "running" (Value.prop "status" body))
          eqn:Hrun.
        -- apply Hrec; cbn; [reflexivity | lia | reflexivity].
        -- apply Hret with (body := body); auto.
      * apply Hrec; cbn; [reflexivity | lia | reflexivity].
Qed.

End Poller.

Section PollerResolves.

Variable id : string.
Variable up : upstream.
Variable sid : string.
Variable c : extended_context.
Variable final : js_value.
Hypothesis final_ready : pending (Resolved final) = false.

(** After [K] pending answers the next answer is returned. *)
Lemma poll_loop_resolves (K fuel : nat) (st : poll_state) :
  0 <= attempts st ->
  attempts st + Z.of_nat K < max_attempts ->
  (K < fuel)%nat ->
  (forall i, (i < K)%nat ->
             pending (snapshot up sid (queries st + i)) = true) ->
  snapshot up sid (queries st + K) = Resolved final ->
  progress_resolves c (attempts st + Z.of_nat K) ->
  let out := poll_loop fuel id up sid c st in
  fst out = Returned (Value.JSON_stringify final)
  /\ attempts (snd out) = attempts st + Z.of_nat K
  /\ queries (snd out) = (queries st + K + 1)%nat
  /\ List.length (reports (snd out))
     = (List.length (reports st) + if has_progress c then K + 1 else 0)%nat.
Proof.
  revert fuel st.
  induction K as [|K IH]; intros fuel st Hatt Hbound Hfuel Hpend Hfinal Hprog;
    (destruct fuel as [|fuel]; [lia|]).
  - (* the first answer is the final one *)
    cbn [poll_loop].
    replace (attempts (tested st) <? max_attempts) with true
      by (cbn [tested attempts]; lia).
    rewrite Nat.add_0_r in Hfinal.
    assert (Hrun : Value.is_string "running" (Value.prop "status" final)
                   = false) by exact final_ready.
    unfold report_progress, query_snapshot, has_progress.
    destruct (reportProgress (ctx c)) as [callback|] eqn:Hcb.
    + rewrite (Hprog callback _ Hcb) by (cbn [progress tested attempts]; lia).
      cbn [queries tested]. rewrite Hfinal, Hrun.
      cbn [fst snd log attempts queries reports tested].
      rewrite List.length_app. cbn [List.length].
      repeat split; lia.
    + cbn [queries tested]. rewrite Hfinal, Hrun.
      cbn [fst snd log attempts queries reports tested].
      repeat split; lia.
  - (* a pending answer, then [K] more *)
    assert (Hrec : forall st1,
               attempts st1 = attempts st + 1 ->
               queries st1 = S (queries st) ->
               List.length (reports st1)
               = (List.length (reports st)
                  + if has_progress c then 1 else 0)%nat ->
               let out := poll_loop fuel id up sid c st1 in
               fst out = Returned (Value.JSON_stringify final)
               /\ attempts (snd out) = attempts st + Z.of_nat (S K)
               /\ queries (snd out) = (queries st + S K + 1)%nat
               /\ List.length (reports (snd out))
                  = (List.length (reports st)
                     + if has_progress c then S K + 1 else 0)%nat).
    { intros st1 Ha Hq Hr.
      destruct (IH fuel st1) as (Hout & Hatt' & Hq' & Hr'); try lia.
      - intros i Hi. rewrite Hq.
        replace (S (queries st) + i)%nat with (queries st + S i)%nat by lia.
        apply Hpend. lia.
      - rewrite Hq.
        replace (S (queries st) + K)%nat with (queries st + S K)%nat by lia.
        exact Hfinal.
      - intros callback report Hcb Hrange. apply (Hprog callback report Hcb).
        lia.
      - cbv zeta. rewrite Hout, Hatt', Hq', Hr', Ha, Hq, Hr.
        destruct (has_progress c); repeat split; lia. }
    pose proof (Hpend 0%nat ltac:(lia)) as Hfirst.
    rewrite Nat.add_0_r in Hfirst.
    cbn [poll_loop].
    replace (attempts (tested st) <? max_attempts) with true
      by (cbn [tested attempts]; lia).
    unfold report_progress, query_snapshot.
    unfold has_progress in Hrec |- *.
    destruct (reportProgress (ctx c)) as [callback|] eqn:Hcb.
    + rewrite (Hprog callback _ Hcb) by (cbn [progress tested attempts]; lia).
      cbn [queries tested].
      destruct (snapshot up sid (queries st)) as [body|e].
      * cbn [pending] in Hfirst. rewrite Hfirst.
        apply Hrec; cbn; [reflexivity | reflexivity |].
        rewrite List.length_app. reflexivity.
      * apply Hrec; cbn; [reflexivity | reflexivity |].
        rewrite List.length_app. reflexivity.
    + cbn [queries tested].
      destruct (snapshot up sid (queries st)) as [body|e].
      * cbn [pending] in Hfirst. rewrite Hfirst.
        apply Hrec; cbn; [reflexivity | reflexivity | lia].
      * apply Hrec; cbn; [reflexivity | reflexivity | lia].
Qed.

End PollerResolves.

(** The state in which [web_data_execute] enters the loop. *)
Lemma web_data_execute_polls (id : string) (up : upstream)
    (c : extended_context) (body : js_value) :
  trigger up = Resolved body ->
  Value.truthy (Value.prop "snapshot_id" body) = true ->
  exists st,
    web_data_execute id up c
    = poll_loop (Z.to_nat max_attempts) id up
        (Value.to_string (Value.prop "snapshot_id" body)) c st
    /\ attempts st = 0 /\ queries st = 0%nat /\ reports st = []
    /\ attempt_history st = [].
Proof.
  intros Htrigger Hid. unfold web_data_execute. rewrite Htrigger, Hid.
  cbn [negb]. eexists. split; [reflexivity|]. repeat split.
Qed.

(** C1 (amended). For a dataset tool invocation whose trigger call
    returns a snapshot id: if the first [K] status answers, [K] < 600, are
    {status: "running"} or a failed request, the next answer has a status
    that is absent or not "running", and no progress notification of the
    caller fails, then the tool returns that answer's body (serialized)
    after exactly [K] + 1 status queries, with the attempt counter at [K],
    and has reported progress [K] + 1 times when the caller has a progress
    callback (and not at all otherwise). *)
Theorem snapshot_polling_resolves (id : string) (up : upstream)
    (c : extended_context) (body final : js_value) (K : nat) :
  trigger up = Resolved body ->
  Value.truthy (Value.prop "snapshot_id" body) = true ->
  Z.of_nat K < 600 ->
  (forall i, (i < K)%nat ->
             pending (snapshot up
                        (Value.to_string (Value.prop "snapshot_id" body)) i)
             = true) ->
  snapshot up (Value.to_string (Value.prop "snapshot_id" body)) K
  = Resolved final ->
  pending (Resolved final) = false ->
  progress_resolves c (Z.of_nat K) ->
  let out := web_data_execute id up c in
  fst out = Returned (Value.JSON_stringify final)
  /\ queries (snd out) = S K
  /\ attempts (snd out) = Z.of_nat K
  /\ List.length (reports (snd out)) = if has_progress c then S K else 0%nat.
Proof.
  intros Htrigger Hid HK Hpend Hfinal Hready Hprog out. subst out.
  destruct (web_data_execute_polls id up c body Htrigger Hid)
    as (st & -> & Ha & Hq & Hr & _).
  destruct (poll_loop_resolves id up
              (Value.to_string (Value.prop "snapshot_id" body)) c final
              Hready K (Z.to_nat max_attempts) st)
    as (Hout & Hatt & Hqueries & Hreports).
  - lia.
  - unfold max_attempts. lia.
  - unfold max_attempts. lia.
  - intros i Hi. rewrite Hq. now apply Hpend.
  - rewrite Hq. exact Hfinal.
  - rewrite Ha. exact Hprog.
  - rewrite Hout, Hatt, Hqueries, Hreports, Ha, Hq, Hr. cbn [List.length].
    destruct (has_progress c); repeat split; lia.
Qed.

Lemma snapshot_polling_resolves_witness :
  let up :=
    {| trigger := Resolved (JObject [("snapshot_id", JString "s_1")]);
       snapshot := fun _ n =>
         match n with
         | 0%nat => Resolved (JObject [("status", JString "running")])
         | 1%nat => Rejected (Error "socket hang up")
         | _ => Resolved (JArray [JObject [("title", JString "post")]])
         end |} in
  let c :=
    {| ctx := {| session := None; reportProgress := Some (fun _ => Ok tt) |};
       ctx_apiToken := "key"; ctx_unlockerZone := "mcp_unlocker";
       ctx_browserZone := "mcp_browser" |} in
  let out := web_data_execute "reddit_posts" up c in
  fst out
  = Returned (Value.JSON_stringify
                (JArray [JObject [("title", JString "post")]]))
  /\ queries (snd out) = 3%nat
  /\ attempts (snd out) = 2
  /\ List.length (reports (snd out)) = 3%nat.
Proof.
  intros up c.
  apply (snapshot_polling_resolves "reddit_posts" up c
           (JObject [("snapshot_id", JString "s_1")])
           (JArray [JObject [("title", JString "post")]]) 2).
  - reflexivity.
  - reflexivity.
  - lia.
  - intros [|[|i]] Hi; [reflexivity | reflexivity | lia].
  - reflexivity.
  - reflexivity.
  - intros callback report Hcb _. inversion Hcb; subst. reflexivity.
Defined.

(** A caller whose progress notification fails: every attempt is used up
    by the failed notification, no status query is made, and the tool times
    out although the upstream would answer with the data at once. *)
Lemma rejected_progress_uses_attempts :
  let up :=
    {| trigger := Resolved (JObject [("snapshot_id", JString "s_1")]);
       snapshot := fun _ _ =>
         Resolved (JArray [JObject [("title", JString "post")]]) |} in
  let c :=
    {| ctx := {| session := None;
                 reportProgress :=
                   Some (fun _ => Throw (Error "Not connected")) |};
       ctx_apiToken := "key"; ctx_unlockerZone := "mcp_unlocker";
       ctx_browserZone := "mcp_browser" |} in
  let out := web_data_execute "reddit_posts" up c in
  pending (snapshot up "s_1" 0) = false
  /\ fst out = Thrown timeout_error
  /\ queries (snd out) = 0%nat
  /\ List.length (reports (snd out)) = 600%nat
  /\ fst out <> Returned (Value.JSON_stringify
                            (JArray [JObject [("title", JString "post")]])).
Proof.
  intros up c out.
  split; [reflexivity|]. split; [vm_compute; reflexivity|].
  split; [vm_compute; reflexivity|]. split; [vm_compute; reflexivity|].
  vm_compute. discriminate.
Qed.



(** * Further properties *)

(** ** URL parameters *)

Lemma starts_with_split (key url : string) :
  starts_with key url = true ->
  url = key ++ substring_from (String.length key) url.
Proof.
  revert url. induction key as [|k key IH]; intros url; simpl.
  - reflexivity.
  - destruct url as [|c url]; [discriminate|].
    intros H. apply andb_true_iff in H as [Hc Hrest].
    apply Ascii.eqb_eq in Hc. subst c. f_equal. now apply IH.
Qed.

Lemma starts_with_app (key rest : string) :
  starts_with key (key ++ rest) = true
  /\ substring_from (String.length key) (key ++ rest) = rest.
Proof.
  induction key as [|k key [IH1 IH2]]; simpl; [auto|].
  now rewrite Ascii.eqb_refl, IH1, IH2.
Qed.

Lemma match_param_unfold (key url : string) :
  match_param key url
  = let here :=
      if starts_with key url
      then fst (span is_token_char (substring_from (String.length key) url))
      else "" in
    if truthy_string here then Some here
    else match url with
         | EmptyString => None
         | String _ rest => match_param key rest
         end.
Proof. destruct url; reflexivity. Qed.

Lemma span_head (p : ascii -> bool) (c : ascii) (r : string) :
  p c = true -> truthy_string (fst (span p (String c r))) = true.
Proof.
  intros Hc. simpl. rewrite Hc. now destruct (span p r).
Qed.

Lemma span_head_stops (p : ascii -> bool) (s : string) :
  stops p s -> fst (span p s) = "".
Proof.
  destruct s as [|c r]; simpl; [reflexivity|]. now intros ->.
Qed.

(** X1. A URL parameter is found exactly when the URL holds the key
    followed by a character of [a-zA-Z0-9_-]; the value read is a
    non-empty run of such characters that stands right after an occurrence
    of the key and ends where the URL ends or another character begins. *)
Theorem match_param_characterized (key url : string) :
  (match_param key url = None
   <-> forall pre c rest,
         url = pre ++ key ++ String c rest -> is_token_char c = false)
  /\ (forall tok,
         match_param key url = Some tok ->
         exists pre rest,
           url = pre ++ key ++ tok ++ rest
           /\ tok <> "" /\ all_chars is_token_char tok = true
           /\ stops is_token_char rest).
Proof.
  split; [split|].
  - (* nothing read: no occurrence is followed by a character of the class *)
    induction url as [|a url IH]; intros Hnone pre c rest Hurl.
    + destruct pre; [|discriminate Hurl].
      destruct key; discriminate Hurl.
    + rewrite match_param_unfold in Hnone. cbv zeta in Hnone.
      destruct (truthy_string _) eqn:Hhere in Hnone; [discriminate|].
      destruct pre as [|b pre].
      * cbn [String.append] in Hurl. rewrite Hurl in Hhere.
        destruct (starts_with_app key (String c rest)) as [Hs Hsub].
        rewrite Hs, Hsub in Hhere.
        destruct (is_token_char c) eqn:Hc; [|reflexivity].
        now rewrite (span_head _ _ _ Hc) in Hhere.
      * cbn [String.append] in Hurl. inversion Hurl; subst.
        now apply (IH Hnone pre c rest).
  - (* no such occurrence: nothing is read *)
    induction url as [|a url IH]; intros Hfree.
    + rewrite match_param_unfold. cbv zeta.
      destruct key; reflexivity.
    + rewrite match_param_unfold. cbv zeta.
      assert (Hhere : (if starts_with key (String a url)
                       then fst (span is_token_char
                                   (substring_from (String.length key)
                                      (String a url)))
                       else "") = "").
      { destruct (starts_with key (String a url)) eqn:Hs; [|reflexivity].
        apply span_head_stops.
        pose proof (starts_with_split _ _ Hs) as Hsplit.
        destruct (substring_from (String.length key) (String a url))
          as [|c rest]; [exact I|].
        simpl. apply (Hfree "" c rest). exact Hsplit. }
      rewrite Hhere. cbn [truthy_string is_empty negb].
      apply IH. intros pre c rest Hurl.
      apply (Hfree (String a pre) c rest). cbn [String.append]. now rewrite Hurl.
  - (* what is read *)
    induction url as [|a url IH]; intros tok Hsome.
    + destruct key; simpl in Hsome; discriminate Hsome.
    + rewrite match_param_unfold in Hsome. cbv zeta in Hsome.
      destruct (starts_with key (String a url)) eqn:Hs.
      * destruct (span is_token_char
                    (substring_from (String.length key) (String a url)))
          as [run after] eqn:Hspan.
        cbn [fst] in Hsome.
        destruct (truthy_string run) eqn:Hrun.
        -- inversion Hsome; subst tok.
           apply span_split in Hspan as (Hcut & Hall & Hstop).
           exists "", after. cbn [String.append].
           rewrite <- Hcut. split; [now apply starts_with_split|].
           split; [|auto]. intros ->. discriminate Hrun.
        -- destruct (IH tok Hsome) as (pre & rest & -> & Hrest).
           exists (String a pre), rest. auto.
      * cbn [truthy_string is_empty negb] in Hsome.
        destruct (IH tok Hsome) as (pre & rest & -> & Hrest).
        exists (String a pre), rest. auto.
Qed.

Lemma match_param_characterized_witness :
  is_token_char "." = false
  /\ exists pre rest,
       "/mcp?mytoken=abc.def" = pre ++ "token=" ++ "abc" ++ rest
       /\ stops is_token_char rest.
Proof.
  split.
  - exact (proj1 (proj1 (match_param_characterized "unlocker="
                           "/mcp?unlocker=.x"))
             eq_refl "/mcp?" "."%char "x" eq_refl).
  - destruct (proj2 (match_param_characterized "token="
                       "/mcp?mytoken=abc.def") "abc" eq_refl)
      as (pre & rest & Hurl & _ & _ & Hstop).
    now exists pre, rest.
Defined.

(** ** Sessions *)

Lemma or_default_nonempty (a : option string) (b : string) :
  b <> "" -> or_default a b <> "".
Proof.
  intros Hb. unfold or_default. destruct a as [s|]; [|exact Hb].
  unfold truthy_string. destruct (is_empty s) eqn:Hs; simpl; [exact Hb|].
  now apply is_empty_false.
Qed.

Lemma chosen_zone_spec (url key : string) (from_env : option string)
    (hardcoded : string) :
  or_default (or_else (match_param key url) from_env) hardcoded
  = chosen_zone (match_param key url) from_env hardcoded.
Proof.
  unfold chosen_zone.
  destruct (match_param key url) as [zone|] eqn:Hurl.
  - destruct (match_param_sound _ _ _ Hurl) as [Hne _].
    rewrite (or_else_truthy _ _ zone eq_refl Hne).
    now apply or_default_truthy.
  - rewrite or_else_falsy by reflexivity.
    destruct from_env as [zone|]; [|reflexivity].
    unfold or_default, truthy_string. now destruct (is_empty zone).
Qed.

(** The session of a request that is let in. *)
Lemma authenticate_session (env : process_env) (req : request)
    (s : auth_session) :
  authenticate env req = Ok s ->
  exists tok,
    matches_token_format tok = true
    /\ s = {| apiToken := Some tok;
              unlockerZone :=
                Some (chosen_zone (match_param "unlocker=" (request_url req))
                                  (WEB_UNLOCKER_ZONE env) "mcp_unlocker");
              browserZone :=
                Some (chosen_zone (match_param "browser=" (request_url req))
                                  (BROWSER_ZONE env) "mcp_browser") |}.
Proof.
  unfold authenticate.
  cbn [token unlocker browser extractUrlParams].
  rewrite !chosen_zone_spec.
  destruct (match authorization req with
            | Some h => _
            | None => _
            end) as [tok|]; [|discriminate].
  destruct (is_empty tok); [discriminate|].
  destruct (matches_token_format tok) eqn:Hformat; [|discriminate].
  cbn [negb]. intros H. inversion H; subst. now exists tok.
Qed.

Lemma chosen_zone_nonempty (url key : string) (from_env : option string)
    (hardcoded : string) :
  hardcoded <> "" ->
  chosen_zone (match_param key url) from_env hardcoded <> "".
Proof.
  intros Hhard. rewrite <- chosen_zone_spec. now apply or_default_nonempty.
Qed.

(** X2. [authenticate] lets a request in only with a well-formed
    session: the token is a non-empty run of [a-zA-Z0-9_-] and both zones
    are set and not empty; every refusal carries the status 401. *)
Theorem authenticate_outcome (env : process_env) (req : request) :
  match authenticate env req with
  | Ok s =>
      exists tok unlocker_name browser_name,
        apiToken s = Some tok /\ tok <> ""
        /\ all_chars is_token_char tok = true
        /\ unlockerZone s = Some unlocker_name /\ unlocker_name <> ""
        /\ browserZone s = Some browser_name /\ browser_name <> ""
  | Throw failure => failure_status failure = 401
  end.
Proof.
  destruct (authenticate env req) as [s | failure] eqn:Hauth.
  - destruct (authenticate_session env req s Hauth) as (tok & Hformat & ->).
    apply matches_token_format_iff in Hformat as [Hne Hall].
    eexists tok, _, _. cbn [apiToken unlockerZone browserZone].
    repeat split; auto; apply chosen_zone_nonempty; discriminate.
  - unfold authenticate in Hauth.
    destruct (match authorization req with
              | Some h => _
              | None => _
              end) as [tok|].
    + destruct (is_empty tok); [now inversion Hauth|].
      destruct (negb (matches_token_format tok)); now inversion Hauth.
    + now inversion Hauth.
Qed.

(** X3. The session made at authentication decides what a wrapped tool
    receives: for a request that [authenticate] lets in, an invocation that
    passes the rate-limit check runs the tool logic with the token of the
    request and with the zones chosen at authentication (the URL parameter,
    else the environment variable of that time, else the hard-coded name);
    the environment at the time of the call plays no part. *)
Theorem session_reaches_tool {D R : Type} (env : process_env)
    (req : request) (s : auth_session)
    (call_env : process_env) (cfg : option rate_limit_config)
    (name : string) (fn : tool_logic D R) (now : Z) (args : D)
    (report : option (progress_report -> result js_error unit))
    (st : debug_stats) :
  authenticate env req = Ok s ->
  accepted (fst (check_rate_limit cfg now st)) = true ->
  let c := {| session := Some s; reportProgress := report |} in
  exists tok,
    apiToken s = Some tok
    /\ tool_fn call_env cfg name fn now args c st
       = (match fn args
                  {| ctx := c;
                     ctx_apiToken := tok;
                     ctx_unlockerZone :=
                       chosen_zone
                         (match_param "unlocker=" (request_url req))
                         (WEB_UNLOCKER_ZONE env) "mcp_unlocker";
                     ctx_browserZone :=
                       chosen_zone
                         (match_param "browser=" (request_url req))
                         (BROWSER_ZONE env) "mcp_browser" |}
                  (count_call name (snd (check_rate_limit cfg now st)))
          with
          | Ok r => Ok r
          | Throw e => Throw (normalize_error e)
          end,
          count_call name (snd (check_rate_limit cfg now st))).
Proof.
  intros Hauth Hacc c.
  destruct (authenticate_session env req s Hauth) as (tok & Hformat & Hs).
  apply matches_token_format_iff in Hformat as [Hne Hall].
  exists tok. split; [now rewrite Hs|].
  rewrite (tool_fn_runs call_env cfg name fn now args c st tok Hacc);
    [| now subst s | exact Hne].
  unfold extend_context, c, session_field. cbn [session]. rewrite Hs.
  cbn [unlockerZone browserZone].
  assert (Hu : chosen_zone (match_param "unlocker=" (request_url req))
                 (WEB_UNLOCKER_ZONE env) "mcp_unlocker" <> "")
    by (apply chosen_zone_nonempty; discriminate).
  assert (Hb : chosen_zone (match_param "browser=" (request_url req))
                 (BROWSER_ZONE env) "mcp_browser" <> "")
    by (apply chosen_zone_nonempty; discriminate).
  rewrite (or_default_truthy _ _ _ eq_refl Hu).
  rewrite (or_else_truthy _ _ _ eq_refl Hb).
  rewrite (or_default_truthy _ _ _ eq_refl Hb).
  reflexivity.
Qed.

Lemma session_reaches_tool_witness :
  let env := {| WEB_UNLOCKER_ZONE := Some "old_zone"; BROWSER_ZONE := None;
                RATE_LIMIT := None |} in
  let call_env := {| WEB_UNLOCKER_ZONE := Some "new_zone";
                     BROWSER_ZONE := Some "new_browser";
                     RATE_LIMIT := None |} in
  let req := {| url := Some "/mcp?token=key&browser=my.zone";
                authorization := None |} in
  let fn : tool_logic unit string :=
    fun _ ext _ => Ok (ctx_apiToken ext ++ "," ++ ctx_unlockerZone ext
                       ++ "," ++ ctx_browserZone ext) in
  exists s,
    authenticate env req = Ok s
    /\ fst (tool_fn call_env None "search" fn 0 tt
              {| session := Some s; reportProgress := None |} initial_stats)
       = Ok "key,old_zone,my".
Proof.
  intros env call_env req fn.
  set (s := {| apiToken := Some "key"; unlockerZone := Some "old_zone";
               browserZone := Some "my" |}).
  exists s. split; [reflexivity|].
  destruct (session_reaches_tool env req s call_env None "search" fn 0 tt
              None initial_stats eq_refl eq_refl) as (tok & Htok & Hrun).
  inversion Htok; subst tok. rewrite Hrun. reflexivity.
Defined.

(** X4. The bearer header the gateway writes with [api_headers] for a
    token is one that [authenticate] reads back to that token: the request
    is let in with exactly this token when the token is a non-empty run of
    [a-zA-Z0-9_-], and is refused for its format when the token is not
    empty and holds another character, whatever the URL says. *)
Theorem api_headers_authenticate (pkg : package_json) (env : process_env)
    (tok : string) (address : option string) :
  tok <> "" ->
  let req := {| url := address;
                authorization :=
                  header_value "authorization" (api_headers pkg tok) |} in
  (all_chars is_token_char tok = true ->
   exists s, authenticate env req = Ok s /\ apiToken s = Some tok)
  /\ (all_chars is_token_char tok = false ->
      authenticate env req = Throw invalid_token_format).
Proof.
  intros Hne req.
  destruct (authenticate_with_token env req tok) as (_ & Hbad & Hgood).
  - reflexivity.
  - split; auto.
Qed.

Lemma api_headers_authenticate_witness :
  exists s,
    authenticate
      {| WEB_UNLOCKER_ZONE := None; BROWSER_ZONE := None;
         RATE_LIMIT := None |}
      {| url := Some "/mcp?token=other";
         authorization :=
           header_value "authorization"
             (api_headers {| package_name := "@brightdata/mcp";
                             package_version := "1.0.0" |} "key_1") |}
    = Ok s
    /\ apiToken s = Some "key_1".
Proof.
  destruct (api_headers_authenticate
              {| package_name := "@brightdata/mcp";
                 package_version := "1.0.0" |}
              {| WEB_UNLOCKER_ZONE := None; BROWSER_ZONE := None;
                 RATE_LIMIT := None |}
              "key_1" (Some "/mcp?token=other") ltac:(discriminate))
    as [Hgood _].
  exact (Hgood eq_refl).
Defined.

(** ** More on the rate limiter *)

Lemma parsed_display (text : string) (cfg : rate_limit_config) :
  parse_rate_limit (Some text) = Ok (Some cfg) -> display cfg = text.
Proof.
  unfold parse_rate_limit. destruct (is_empty text); [discriminate|].
  destruct (match_rate_limit text) as [[[lim time] unit]|]; [|discriminate].
  intros H; inversion H; subst. reflexivity.
Qed.

(** X5. A limit of zero, which [parse_rate_limit] accepts (as in 0/1h),
    locks every wrapped tool: each check throws the rate-limit error with
    the configured text, in every state and at every instant, and no tool
    logic is run. *)
Theorem zero_limit_refuses_all {D R : Type} (text : string)
    (cfg : rate_limit_config) :
  parse_rate_limit (Some text) = Ok (Some cfg) ->
  limit cfg = Num 0 ->
  forall (env : process_env) (name : string) (fn : tool_logic D R)
         (now : Z) (args : D) (c : context) (st : debug_stats),
    fst (check_rate_limit (Some cfg) now st)
    = Throw (Error ("Rate limit exceeded: " ++ text))
    /\ fst (tool_fn env (Some cfg) name fn now args c st)
       = Throw (Error ("Rate limit exceeded: " ++ text)).
Proof.
  intros Hparse Hzero env name fn now args c st.
  assert (Hcheck : fst (check_rate_limit (Some cfg) now st)
                   = Throw (Error ("Rate limit exceeded: " ++ text))).
  { unfold check_rate_limit. cbv zeta. rewrite Hzero. cbn [ge].
    rewrite (proj2 (Z.leb_le 0 _)) by lia.
    cbn [fst]. unfold rate_limit_exceeded.
    now rewrite (parsed_display _ _ Hparse). }
  split; [exact Hcheck|].
  now rewrite (tool_fn_refused env (Some cfg) name fn now args c st _ Hcheck).
Qed.

Lemma zero_limit_refuses_all_witness :
  fst (tool_fn
         {| WEB_UNLOCKER_ZONE := None; BROWSER_ZONE := None;
            RATE_LIMIT := Some "0/1h" |}
         (Some {| limit := Num 0; window := Num 3600000;
                  display := "0/1h" |})
         "search" (fun (_ : unit) _ _ => @Ok js_error string "[]") 5 tt
         {| session := None; reportProgress := None |} initial_stats)
  = Throw (Error "Rate limit exceeded: 0/1h").
Proof.
  apply (zero_limit_refuses_all "0/1h"
           {| limit := Num 0; window := Num 3600000; display := "0/1h" |}
           eq_refl eq_refl).
Defined.

(** X6. A window of zero length, which [parse_rate_limit] accepts (as
    in 5/0s), switches the limit off when the limit is at least one: a
    check made at an instant that no recorded instant lies after drops all
    of them and is accepted. *)
Theorem zero_window_never_refuses (cfg : rate_limit_config)
    (N now : Z) (st : debug_stats) :
  window cfg = Num 0 -> limit cfg = Num N -> 1 <= N ->
  Forall (fun t => t <= now) (call_timestamps st) ->
  fst (check_rate_limit (Some cfg) now st) = Ok true
  /\ call_timestamps (snd (check_rate_limit (Some cfg) now st)) = [now].
Proof.
  intros HW HN Hpos Hpast.
  rewrite (check_rate_limit_unfold cfg N 0 HN HW).
  assert (Hkept : kept_at 0 now (call_timestamps st) = []).
  { unfold kept_at. induction Hpast as [|t ts Ht _ IH]; simpl; [reflexivity|].
    replace (now - 0 <? t) with false by lia. exact IH. }
  rewrite Hkept. cbn [List.length].
  rewrite (proj2 (Z.leb_gt N (Z.of_nat 0))) by lia. split; reflexivity.
Qed.

Lemma zero_window_never_refuses_witness :
  let cfg := {| limit := Num 1; window := Num 0; display := "1/0s" |} in
  parse_rate_limit (Some "1/0s") = Ok (Some cfg)
  /\ fst (check_rate_limit (Some cfg) 9
            (snd (check_rate_limit (Some cfg) 9 initial_stats)))
     = Ok true.
Proof.
  intros cfg. split; [reflexivity|].
  apply (zero_window_never_refuses cfg 1 9
           (snd (check_rate_limit (Some cfg) 9 initial_stats))
           eq_refl eq_refl).
  - lia.
  - vm_compute. repeat constructor. discriminate.
Defined.

(** X7. A refusal by the rate limiter ends the invocation at once: the
    wrapper throws the limiter's error, leaves the counters as they were
    and does not run the tool logic (the outcome is the same for every
    tool logic and every context). *)
Theorem refusal_short_circuits {D R : Type} (env : process_env)
    (cfg : option rate_limit_config) (name : string) (fn : tool_logic D R)
    (now : Z) (args : D) (c : context) (st : debug_stats) :
  accepted (fst (check_rate_limit cfg now st)) = false ->
  exists limits,
    cfg = Some limits
    /\ forall (any_fn : tool_logic D R) (any_c : context),
         tool_fn env cfg name any_fn now args any_c st
         = (Throw (Error ("Rate limit exceeded: " ++ display limits)),
            snd (check_rate_limit cfg now st))
         /\ tool_calls (snd (check_rate_limit cfg now st)) = tool_calls st
         /\ session_calls (snd (check_rate_limit cfg now st))
            = session_calls st.
Proof.
  intros Hrefused. destruct cfg as [limits|]; [|discriminate Hrefused].
  exists limits. split; [reflexivity|]. intros any_fn any_c.
  assert (Hthrow : fst (check_rate_limit (Some limits) now st)
                   = Throw (rate_limit_exceeded limits)).
  { unfold check_rate_limit in *. destruct (ge _ _); [reflexivity|].
    discriminate Hrefused. }
  split; [now apply tool_fn_refused|].
  apply check_keeps_counters.
Qed.

Lemma refusal_short_circuits_witness :
  let cfg := {| limit := Num 1; window := Num 1000; display := "1/1s" |} in
  let st := snd (check_rate_limit (Some cfg) 0 initial_stats) in
  fst (tool_fn
         {| WEB_UNLOCKER_ZONE := None; BROWSER_ZONE := None;
            RATE_LIMIT := Some "1/1s" |}
         (Some cfg) "search"
         (fun (_ : unit) _ _ => @Ok js_error string "[]") 10 tt
         {| session := None; reportProgress := None |} st)
  = Throw (Error "Rate limit exceeded: 1/1s").
Proof.
  intros cfg st.
  destruct (refusal_short_circuits
              {| WEB_UNLOCKER_ZONE := None; BROWSER_ZONE := None;
                 RATE_LIMIT := Some "1/1s" |}
              (Some cfg) "search"
              (fun (_ : unit) _ _ => @Ok js_error string "[]") 10 tt
              {| session := None; reportProgress := None |} st eq_refl)
    as (limits & Hcfg & Hall).
  inversion Hcfg; subst limits.
  destruct (Hall (fun (_ : unit) _ _ => @Ok js_error string "[]")
                 {| session := None; reportProgress := None |}) as [Hrun _].
  now rewrite Hrun.
Defined.

Lemma filter_sublist (f : Z -> bool) (l : list Z) :
  List.filter f l `sublist_of` l.
Proof.
  induction l as [|x l IH]; simpl; [constructor|].
  destruct (f x); now constructor.
Qed.

Lemma filter_length_sublist (f : Z -> bool) (l1 l2 : list Z) :
  l1 `sublist_of` l2 ->
  (List.length (List.filter f l1) <= List.length (List.filter f l2))%nat.
Proof.
  induction 1 as [|x l1 l2 _ IH|x l1 l2 _ IH]; simpl; [lia| |];
    destruct (f x); simpl; lia.
Qed.

Lemma sublist_strongly_sorted (l1 l2 : list Z) :
  l1 `sublist_of` l2 -> StronglySorted Z.le l2 -> StronglySorted Z.le l1.
Proof.
  induction 1 as [|x l1 l2 Hsub IH|x l1 l2 Hsub IH]; intros Hsorted.
  - constructor.
  - apply StronglySorted_inv in Hsorted as [Htail Hhead].
    constructor; [now apply IH|].
    apply List.Forall_forall. intros y Hy.
    apply (proj1 (List.Forall_forall _ _) Hhead).
    apply (proj1 (list_elem_of_In _ _)).
    apply (sublist_subseteq _ _ Hsub).
    now apply (proj2 (list_elem_of_In _ _)).
  - apply StronglySorted_inv in Hsorted as [Htail _]. now apply IH.
Qed.

Lemma check_timestamps_sublist (cfg : option rate_limit_config) (now : Z)
    (st : debug_stats) :
  call_timestamps (snd (check_rate_limit cfg now st))
  `sublist_of` (call_timestamps st ++ [now])%list.
Proof.
  unfold check_rate_limit. destruct cfg as [cfg|].
  - destruct (ge _ _); cbn [snd call_timestamps].
    + apply sublist_inserts_r, filter_sublist.
    + apply sublist_app; [apply filter_sublist | reflexivity].
  - cbn [snd]. now apply sublist_inserts_r.
Qed.

(** X8. The recorded instants are always a subsequence of the instants
    at which the limiter was called: whatever the configuration, after any
    run of checks the list holds some of the earlier records followed by
    some of the call instants, in the order of the calls; so when the clock
    never goes back the list is sorted. *)
Theorem timestamps_subsequence (cfg : option rate_limit_config)
    (times : list Z) (st : debug_stats) :
  call_timestamps (snd (run_checks cfg times st))
  `sublist_of` (call_timestamps st ++ times)%list
  /\ (StronglySorted Z.le (call_timestamps st ++ times)%list ->
      StronglySorted Z.le (call_timestamps (snd (run_checks cfg times st)))).
Proof.
  assert (Hsub : forall st0,
             call_timestamps (snd (run_checks cfg times st0))
             `sublist_of` (call_timestamps st0 ++ times)%list).
  { induction times as [|now later IH]; intros st0; cbn [run_checks].
    - cbn [snd]. now rewrite List.app_nil_r.
    - pose proof (check_timestamps_sublist cfg now st0) as Hstep.
      destruct (check_rate_limit cfg now st0) as [r st1].
      specialize (IH st1).
      destruct (run_checks cfg later st1) as [rs st2]. cbn [snd] in *.
      etransitivity; [exact IH|].
      replace (call_timestamps st0 ++ now :: later)%list
        with ((call_timestamps st0 ++ [now]) ++ later)%list
        by now rewrite <- List.app_assoc.
      apply sublist_app; [exact Hstep | reflexivity]. }
  split; [apply Hsub|].
  intros Hsorted. exact (sublist_strongly_sorted _ _ (Hsub st) Hsorted).
Qed.

Lemma timestamps_subsequence_witness :
  StronglySorted Z.le
    (call_timestamps
       (snd (run_checks
               (Some {| limit := Num 2; window := Num 100;
                        display := "2/100s" |})
               [10; 20; 30; 150] initial_stats))).
Proof.
  apply (proj2 (timestamps_subsequence
                  (Some {| limit := Num 2; window := Num 100;
                           display := "2/100s" |})
                  [10; 20; 30; 150] initial_stats)).
  cbn [initial_stats call_timestamps List.app].
  repeat (constructor; [|repeat (constructor; [lia|]); constructor]).
  constructor.
Defined.

Lemma sorted_lookup (l : list Z) (i j : nat) (a b : Z) :
  StronglySorted Z.le l -> (i <= j)%nat ->
  l !! i = Some a -> l !! j = Some b -> a <= b.
Proof.
  intros Hsorted. revert i j.
  induction Hsorted as [|x l Htail IH Hhead]; intros i j Hij Ha Hb.
  - discriminate Ha.
  - destruct i as [|i]; destruct j as [|j]; simpl in *.
    + inversion Ha; inversion Hb; subst. lia.
    + inversion Ha; subst.
      apply (proj1 (List.Forall_forall _ _) Hhead).
      apply (proj1 (list_elem_of_In _ _)).
      eapply list_elem_of_lookup_2. exact Hb.
    + lia.
    + apply (IH i j); [lia | exact Ha | exact Hb].
Qed.

Lemma filter_none (f : Z -> bool) (l : list Z) :
  (forall i x, l !! i = Some x -> f x = false) -> List.filter f l = [].
Proof.
  induction l as [|y l IH]; intros Hall; simpl; [reflexivity|].
  rewrite (Hall 0%nat y eq_refl). apply IH.
  intros i x Hx. exact (Hall (S i) x Hx).
Qed.

Section SpacedCalls.

Variable cfg : rate_limit_config.
Variable N : nat.
Variable W : Z.
Variable times : list Z.
Hypothesis limit_is : limit cfg = Num (Z.of_nat N).
Hypothesis window_is : window cfg = Num W.
Hypothesis limit_positive : (0 < N)%nat.
Hypothesis clock_monotone : StronglySorted Z.le times.
Hypothesis spaced :
  forall i earlier later,
    times !! i = Some earlier -> times !! (i + N)%nat = Some later ->
    earlier + W <= later.

(** Fewer than [N] of the instants before the call at index
    [length done] are still inside its window. *)
Lemma few_recent (done todo : list Z) (t : Z) :
  times = (done ++ t :: todo)%list ->
  (List.length (kept_at W t done) < N)%nat.
Proof.
  intros Htimes. set (j := List.length done).
  assert (Ht : times !! j = Some t).
  { rewrite Htimes. rewrite lookup_app_r by (subst j; lia).
    replace (j - length done)%nat with 0%nat by (subst j; lia). reflexivity. }
  destruct (Nat.lt_ge_cases j N) as [Hshort | Hlong].
  - pose proof (kept_at_length W t done). lia.
  - set (k := (j - N + 1)%nat).
    rewrite <- (take_drop k done). unfold kept_at.
    rewrite List.filter_app, List.length_app.
    rewrite (filter_none _ (take k done)).
    + pose proof (List.filter_length_le (fun x => t - W <? x) (drop k done)).
      pose proof (length_drop done k). cbn [List.length]. lia.
    + intros i x Hx.
      apply lookup_take_Some in Hx as [Hx Hi].
      assert (Hearlier : times !! i = Some x).
      { rewrite Htimes. now apply lookup_app_l_Some. }
      assert (Hsome : is_Some (times !! (i + N)%nat)).
      { apply lookup_lt_is_Some. apply lookup_lt_Some in Ht. lia. }
      destruct Hsome as [later Hlater].
      pose proof (spaced i x later Hearlier Hlater).
      pose proof (sorted_lookup times (i + N) j later t clock_monotone
                    ltac:(lia) Hlater Ht).
      lia.
Qed.

Lemma spaced_run (todo done : list Z) (st : debug_stats) :
  times = (done ++ todo)%list ->
  call_timestamps st `sublist_of` done ->
  fst (run_checks (Some cfg) todo st) = List.map (fun _ => true) todo.
Proof.
  revert done st. induction todo as [|t todo IH]; intros done st Htimes Hsub.
  - reflexivity.
  - cbn [run_checks List.map].
    pose proof (few_recent done todo t Htimes) as Hfew.
    pose proof (filter_length_sublist (fun x => t - W <? x) _ _ Hsub) as Hle.
    fold (kept_at W t (call_timestamps st)) in Hle.
    fold (kept_at W t done) in Hle.
    rewrite (check_rate_limit_unfold cfg (Z.of_nat N) W limit_is window_is).
    rewrite (proj2 (Z.leb_gt _ _)) by lia.
    specialize (IH (done ++ [t])%list
                  {| tool_calls := tool_calls st;
                     session_calls := session_calls st;
                     call_timestamps :=
                       (kept_at W t (call_timestamps st) ++ [t])%list |}).
    destruct (run_checks (Some cfg) todo _) as [rs st2].
    cbn [fst accepted] in *. f_equal. apply IH.
    + now rewrite <- List.app_assoc.
    + cbn [call_timestamps]. apply sublist_app; [|reflexivity].
      etransitivity; [apply filter_sublist | exact Hsub].
Qed.

End SpacedCalls.

(** X9. The limiter refuses no caller that keeps to the limit: with a
    limit [N] of at least one and a window [W], when the clock never goes
    back and any call and the [N]-th call after it are at least [W] apart,
    every call of the run, started in a fresh process, is accepted. *)
Theorem spaced_calls_accepted (cfg : rate_limit_config) (N : nat) (W : Z)
    (times : list Z) :
  limit cfg = Num (Z.of_nat N) -> window cfg = Num W -> (0 < N)%nat ->
  StronglySorted Z.le times ->
  (forall i earlier later,
      times !! i = Some earlier -> times !! (i + N)%nat = Some later ->
      earlier + W <= later) ->
  fst (run_checks (Some cfg) times initial_stats)
  = List.map (fun _ => true) times.
Proof.
  intros HN HW Hpos Hsorted Hspaced.
  apply (spaced_run cfg N W times HN HW Hpos Hsorted Hspaced times []);
    [reflexivity | constructor].
Qed.

Lemma spaced_calls_accepted_witness :
  fst (run_checks
         (Some {| limit := Num 2; window := Num 1000; display := "2/1s" |})
         [0; 400; 1000; 1400; 2000] initial_stats)
  = [true; true; true; true; true].
Proof.
  apply (spaced_calls_accepted
           {| limit := Num 2; window := Num 1000; display := "2/1s" |}
           2 1000 [0; 400; 1000; 1400; 2000] eq_refl eq_refl).
  - lia.
  - repeat (constructor; [|repeat (constructor; [lia|]); constructor]).
    constructor.
  - intros [|[|[|[|[|i]]]]] earlier later He Hl; simpl in He, Hl;
      inversion He; inversion Hl; subst; lia.
Defined.

(** ** More on the dataset tools *)

(** X10. A dataset tool fails in three ways only: with the error of the
    trigger request, with "No snapshot ID returned from request" when the
    trigger answer holds no snapshot id, and with the timeout error when
    the attempt counter has reached 600.  In the first two cases no status
    query and no progress report is made; an error of a status query is
    never what the tool throws. *)
Theorem dataset_tool_errors (id : string) (up : upstream)
    (c : extended_context) (e : js_error) :
  fst (web_data_execute id up c) = Thrown e ->
  (trigger up = Rejected e
   /\ queries (snd (web_data_execute id up c)) = 0%nat
   /\ reports (snd (web_data_execute id up c)) = [])
  \/ (e = no_snapshot_id
      /\ (exists body,
             trigger up = Resolved body
             /\ Value.truthy (Value.prop "snapshot_id" body) = false)
      /\ queries (snd (web_data_execute id up c)) = 0%nat
      /\ reports (snd (web_data_execute id up c)) = [])
  \/ (e = timeout_error
      /\ attempts (snd (web_data_execute id up c)) = 600).
Proof.
  destruct (trigger up) as [body|e0] eqn:Htrigger.
  - destruct (Value.truthy (Value.prop "snapshot_id" body)) eqn:Hid.
    + destruct (web_data_execute_polls id up c body Htrigger Hid)
        as (st & -> & Ha & Hq & _ & _).
      destruct (poll_loop_bounded id up
                  (Value.to_string (Value.prop "snapshot_id" body)) c
                  (Z.to_nat max_attempts) st)
        as (_ & _ & _ & _ & Hout);
        [unfold max_attempts; lia | unfold max_attempts; lia |].
      intros Hthrown. right; right.
      destruct Hout as [[Hout Hmax] | (i & answer & _ & _ & Hout)].
      * rewrite Hout in Hthrown. inversion Hthrown. now split.
      * rewrite Hout in Hthrown. discriminate Hthrown.
    + unfold web_data_execute. rewrite Htrigger, Hid. cbn [negb fst snd].
      intros Hthrown. inversion Hthrown. right; left.
      split; [reflexivity|]. split; [now exists body|]. now split.
  - unfold web_data_execute. rewrite Htrigger. cbn [fst snd].
    intros Hthrown. inversion Hthrown. left. now repeat split.
Qed.

Lemma dataset_tool_errors_witness :
  let up :=
    {| trigger := Resolved (JObject [("error", JString "bad input")]);
       snapshot := fun _ _ => Rejected (Error "unreachable") |} in
  let c :=
    {| ctx := {| session := None; reportProgress := None |};
       ctx_apiToken := "key"; ctx_unlockerZone := "mcp_unlocker";
       ctx_browserZone := "mcp_browser" |} in
  queries (snd (web_data_execute "reddit_posts" up c)) = 0%nat.
Proof.
  intros up c.
  destruct (dataset_tool_errors "reddit_posts" up c no_snapshot_id eq_refl)
    as [(Htrigger & _) | [(_ & _ & Hq & _) | (Htimeout & _)]].
  - discriminate Htrigger.
  - exact Hq.
  - discriminate Htimeout.
Defined.

Section PollerReports.

Variable id : string.
Variable up : upstream.
Variable sid : string.
Variable c : extended_context.

Lemma poll_loop_reports (fuel : nat) (st : poll_state) :
  0 <= attempts st <= max_attempts ->
  max_attempts - attempts st <= Z.of_nat fuel ->
  let out := poll_loop fuel id up sid c st in
  let n := attempts (snd out) - attempts st + answered (fst out) in
  0 <= n /\ attempts st + n <= max_attempts
  /\ reports (snd out)
     = (reports st
        ++ if has_progress c
           then List.map progress_report_at (seqZ (attempts st) n)
           else [])%list.
Proof.
  revert st. induction fuel as [|fuel IH]; intros st Hatt Hfuel.
  - rewrite poll_loop_at_bound by lia.
    cbn [fst snd tested attempts reports answered].
    replace (attempts st - attempts st + 0) with 0 by lia.
    split; [lia|]. split; [lia|].
    destruct (has_progress c); cbn; now rewrite List.app_nil_r.
  - destruct (Z.ltb_spec (attempts st) max_attempts) as [Hlt | Hge].
    2:{ rewrite poll_loop_at_bound by lia.
        cbn [fst snd tested attempts reports answered].
        replace (attempts st - attempts st + 0) with 0 by lia.
        split; [lia|]. split; [lia|].
        destruct (has_progress c); cbn; now rewrite List.app_nil_r. }
    assert (Hrec : forall st1,
               attempts st1 = attempts st + 1 ->
               reports st1
               = (reports st
                  ++ if has_progress c
                     then [progress_report_at (attempts st)] else [])%list ->
               let out := poll_loop fuel id up sid c st1 in
               let n := attempts (snd out) - attempts st
                        + answered (fst out) in
               0 <= n /\ attempts st + n <= max_attempts
               /\ reports (snd out)
                  = (reports st
                     ++ if has_progress c
                        then List.map progress_report_at
                               (seqZ (attempts st) n)
                        else [])%list).
    { intros st1 Ha Hr. cbv zeta.
      destruct (IH st1) as (Hn & Hmax & Hreports); [lia | lia |].
      rewrite Ha in *. rewrite Hreports, Hr.
      set (n1 := attempts (snd (poll_loop fuel id up sid c st1))
                 - (attempts st + 1)
                 + answered (fst (poll_loop fuel id up sid c st1))) in *.
      replace (attempts (snd (poll_loop fuel id up sid c st1)) - attempts st
               + answered (fst (poll_loop fuel id up sid c st1)))
        with (n1 + 1) by (subst n1; lia).
      split; [lia|]. split; [lia|].
      destruct (has_progress c); [|now rewrite !List.app_nil_r].
      rewrite (seqZ_cons (attempts st) (n1 + 1)) by lia.
      replace (Z.succ (attempts st)) with (attempts st + 1) by lia.
      replace (Z.pred (n1 + 1)) with n1 by lia.
      cbn [List.map]. now rewrite <- List.app_assoc. }
    assert (Hret : forall st1 r,
               attempts st1 = attempts st ->
               reports st1
               = (reports st
                  ++ if has_progress c
                     then [progress_report_at (attempts st)] else [])%list ->
               let out := (Returned r, st1) in
               let n := attempts (snd out) - attempts st
                        + answered (fst out) in
               0 <= n /\ attempts st + n <= max_attempts
               /\ reports (snd out)
                  = (reports st
                     ++ if has_progress c
                        then List.map progress_report_at
                               (seqZ (attempts st) n)
                        else [])%list).
    { intros st1 r Ha Hr. cbv zeta. cbn [fst snd answered].
      rewrite Ha, Hr.
      replace (attempts st - attempts st + 1) with 1 by lia.
      split; [lia|]. split; [lia|]. reflexivity. }
    cbn [poll_loop].
    replace (attempts (tested st) <? max_attempts) with true
      by (cbn [tested attempts]; lia).
    unfold report_progress, query_snapshot.
    unfold has_progress in Hrec, Hret |- *.
    destruct (reportProgress (ctx c)) as [callback|].
    + destruct (callback _) as [[]|e].
      * cbn [queries attempts tested].
        destruct (snapshot up sid (queries st)) as [body|e].
        -- destruct (Value.is_string "running" (Value.prop "status" body)).
           ++ apply Hrec; reflexivity.
           ++ apply Hret; reflexivity.
        -- apply Hrec; reflexivity.
      * apply Hrec; reflexivity.
    + cbn [queries attempts tested].
      destruct (snapshot up sid (queries st)) as [body|e].
      * destruct (Value.is_string "running" (Value.prop "status" body)).
        -- apply Hrec; cbn; [reflexivity | now rewrite List.app_nil_r].
        -- apply Hret; cbn; [reflexivity | now rewrite List.app_nil_r].
      * apply Hrec; cbn; [reflexivity | now rewrite List.app_nil_r].
Qed.

End PollerReports.

(** X11. What a dataset tool reports to a caller with a progress
    callback: one report at the start of each attempt, the k-th of them
    (from 0) with progress k, total 600 and the text "Polling for data
    (attempt k+1/600)"; their number is the final value of the attempt
    counter, plus one when the tool returned data, and never exceeds 600.
    A caller without a callback gets none. *)
Theorem progress_reports_sequence (id : string) (up : upstream)
    (c : extended_context) :
  let out := web_data_execute id up c in
  let n := attempts (snd out) + answered (fst out) in
  0 <= n <= 600
  /\ reports (snd out)
     = if has_progress c
       then List.map progress_report_at (seqZ 0 n)
       else [].
Proof.
  intros out n. subst out n.
  destruct (trigger up) as [body|e] eqn:Htrigger.
  2:{ unfold web_data_execute. rewrite Htrigger.
      cbn [fst snd poll_start attempts reports answered].
      split; [lia|]. now destruct (has_progress c). }
  destruct (Value.truthy (Value.prop "snapshot_id" body)) eqn:Hid.
  2:{ unfold web_data_execute. rewrite Htrigger, Hid.
      cbn [negb fst snd poll_start attempts reports answered].
      split; [lia|]. now destruct (has_progress c). }
  destruct (web_data_execute_polls id up c body Htrigger Hid)
    as (st & -> & Ha & _ & Hr & _).
  destruct (poll_loop_reports id up
              (Value.to_string (Value.prop "snapshot_id" body)) c
              (Z.to_nat max_attempts) st)
    as (Hn & Hmax & Hreports);
    [unfold max_attempts; lia | unfold max_attempts; lia |].
  rewrite Ha, Hr in *. rewrite Z.sub_0_r in *.
  pose proof (eq_refl : max_attempts = 600) as Hbound.
  split; [lia|]. exact Hreports.
Qed.

(** ** The title of a fetched document *)

Lemma split_on_cons (sep : ascii) (s : string) :
  exists first others, split_on sep s = first :: others.
Proof.
  induction s as [|c s (first & others & IH)]; simpl.
  - now exists "", [].
  - destruct (Ascii.eqb c sep); [now eexists _, _|].
    rewrite IH. now eexists _, _.
Qed.

Lemma split_on_no_separator (s : string) :
  Forall (fun line => no_newline line = true) (split_on newline s).
Proof.
  induction s as [|c s IH]; simpl.
  - repeat constructor.
  - destruct (Ascii.eqb c newline) eqn:Hc.
    + constructor; [reflexivity | exact IH].
    + destruct (split_on newline s) as [|first others]; inversion IH; subst.
      * repeat constructor. unfold no_newline. simpl. now rewrite Hc.
      * constructor; [|assumption].
        unfold no_newline in *. simpl. now rewrite Hc.
Qed.

(** Splitting a text that begins with a line. *)
Lemma split_on_line (line rest : string) :
  no_newline line = true ->
  split_on newline (line ++ String newline rest)
  = line :: split_on newline rest.
Proof.
  unfold no_newline. induction line as [|c line IH]; simpl; intros H.
  - reflexivity.
  - apply andb_true_iff in H as [Hc Hline].
    apply negb_true_iff in Hc. rewrite Hc, (IH Hline). reflexivity.
Qed.

Lemma split_on_last_line (line : string) :
  no_newline line = true -> split_on newline line = [line].
Proof.
  unfold no_newline. induction line as [|c line IH]; simpl; intros H.
  - reflexivity.
  - apply andb_true_iff in H as [Hc Hline].
    apply negb_true_iff in Hc. rewrite Hc, (IH Hline). reflexivity.
Qed.

Lemma all_chars_trim_start (p : ascii -> bool) (s : string) :
  all_chars p s = true -> all_chars p (trim_start s) = true.
Proof.
  induction s as [|c s IH]; simpl; [auto|]. intros H.
  destruct (is_space c); [|exact H].
  apply andb_true_iff in H as [_ H]. now apply IH.
Qed.

Lemma all_chars_trim_end (p : ascii -> bool) (s : string) :
  all_chars p s = true -> all_chars p (trim_end s) = true.
Proof.
  induction s as [|c s IH]; simpl; [auto|]. intros H.
  apply andb_true_iff in H as [Hc Hs]. specialize (IH Hs).
  destruct (trim_end s) as [|d kept].
  - destruct (is_space c); simpl; [reflexivity | now rewrite Hc].
  - simpl in *. now rewrite Hc, IH.
Qed.

Lemma all_chars_substring_from (p : ascii -> bool) (n : nat) (s : string) :
  all_chars p s = true -> all_chars p (substring_from n s) = true.
Proof.
  revert s. induction n as [|n IH]; intros s H; [exact H|].
  destruct s as [|c s]; [exact H|]. simpl in *.
  apply andb_true_iff in H as [_ H]. now apply IH.
Qed.

Lemma trim_start_leading (s : string) : leading_space (trim_start s) = false.
Proof.
  induction s as [|c s IH]; simpl; [reflexivity|].
  destruct (is_space c) eqn:Hc; [exact IH | simpl; exact Hc].
Qed.

Lemma trim_end_leading (s : string) :
  leading_space s = false -> leading_space (trim_end s) = false.
Proof.
  destruct s as [|c s]; simpl; [auto|]. intros Hc.
  destruct (trim_end s); [rewrite Hc|]; simpl; auto.
Qed.

Lemma trim_end_trailing (s : string) : trailing_space (trim_end s) = false.
Proof.
  induction s as [|c s IH]; simpl; [reflexivity|].
  destruct (trim_end s) as [|d kept] eqn:Hkept.
  - destruct (is_space c) eqn:Hc; simpl; auto.
  - simpl in *. exact IH.
Qed.

Lemma trim_clean (p : ascii -> bool) (s : string) :
  leading_space (trim s) = false /\ trailing_space (trim s) = false
  /\ (all_chars p s = true -> all_chars p (trim s) = true).
Proof.
  unfold trim. split; [|split].
  - apply trim_end_leading, trim_start_leading.
  - apply trim_end_trailing.
  - intros H. now apply all_chars_trim_end, all_chars_trim_start.
Qed.

Lemma title_of_lines_clean (lines : list string) :
  Forall (fun line => no_newline line = true) lines ->
  leading_space (title_of_lines lines) = false
  /\ trailing_space (title_of_lines lines) = false
  /\ no_newline (title_of_lines lines) = true.
Proof.
  induction 1 as [|line rest Hline _ IH]; cbn [title_of_lines].
  - repeat split.
  - destruct (starts_with "# " line); [|exact IH].
    destruct (trim_clean (fun c => negb (Ascii.eqb c newline))
                (substring_from 2 line)) as (Hl & Ht & Hn).
    repeat split; auto. apply Hn. now apply all_chars_substring_from.
Qed.

Lemma title_without_heading (lines : list string) :
  Forall (fun line => starts_with "# " line = false) lines ->
  title_of_lines lines = "Untitled Document".
Proof.
  induction 1 as [|line rest Hline _ IH]; cbn [title_of_lines];
    [reflexivity|].
  now rewrite Hline.
Qed.

(** X12. The title the [fetch] tool gives a document: the text of the
    first line that begins with "# ", without that mark and without white
    space around it, whatever lines come before (none of them beginning
    with "# ") or after; "Untitled Document" when no line begins with
    "# ".  The title never holds a line break nor white space at either
    end; a heading that is only white space gives the empty title. *)
Theorem title_extraction :
  (forall content,
      leading_space (extractTitleFromMarkdown content) = false
      /\ trailing_space (extractTitleFromMarkdown content) = false
      /\ no_newline (extractTitleFromMarkdown content) = true)
  /\ (forall before heading rest,
         Forall (fun line => no_newline line = true
                             /\ starts_with "# " line = false) before ->
         no_newline heading = true ->
         (rest = "" \/ exists r, rest = String newline r) ->
         extractTitleFromMarkdown
           (concat_lines before ++ "# " ++ heading ++ rest)
         = trim heading)
  /\ (forall content,
         Forall (fun line => starts_with "# " line = false)
                (split_on newline content) ->
         extractTitleFromMarkdown content = "Untitled Document")
  /\ (forall heading, all_chars is_space heading = true -> trim heading = "").
Proof.
  split; [|split; [|split]].
  - intros content. apply title_of_lines_clean, split_on_no_separator.
  - intros before heading rest Hbefore Hheading Hrest.
    unfold extractTitleFromMarkdown.
    induction Hbefore as [|line before [Hline Hplain] _ IH].
    + cbn [concat_lines String.append].
      assert (Hsplit : exists others,
                 split_on newline (String "#" (String " " (heading ++ rest)))
                 = String "#" (String " " heading) :: others).
      { destruct Hrest as [-> | (r & ->)].
        - exists []. rewrite app_empty_r.
          apply (split_on_last_line (String "#" (String " " heading))).
          exact Hheading.
        - exists (split_on newline r).
          apply (split_on_line (String "#" (String " " heading)) r).
          exact Hheading. }
      destruct Hsplit as (others & ->). reflexivity.
    + cbn [concat_lines]. rewrite app_assoc_string.
      cbn [String.append]. rewrite (split_on_line _ _ Hline).
      cbn [title_of_lines]. rewrite Hplain. exact IH.
  - intros content Hplain. now apply title_without_heading.
  - intros heading Hspaces. unfold trim.
    replace (trim_start heading) with "";
      [reflexivity|].
    induction heading as [|c heading IH]; simpl in *; [reflexivity|].
    apply andb_true_iff in Hspaces as [Hc Hrest]. rewrite Hc. now apply IH.
Qed.

Lemma title_extraction_witness :
  extractTitleFromMarkdown
    (concat_lines ["---"; "## Menu"] ++ "# " ++ "  Prices 2024 "
     ++ String newline "# Other")
  = "Prices 2024".
Proof.
  destruct title_extraction as (_ & Hfirst & _ & _).
  apply (Hfirst ["---"; "## Menu"] "  Prices 2024 "
           (String newline "# Other")).
  - repeat constructor.
  - reflexivity.
  - right. now eexists.
Defined.

(** ** The results of the [search] tool *)

Lemma member_not_nullish (name : string) (v : js_value) :
  not_nullish v = true -> member name v = Ok (Value.prop name v).
Proof. destruct v; simpl; congruence. Qed.

Lemma member_nullish (name : string) (v : js_value) :
  not_nullish v = false -> exists e, member name v = Throw e.
Proof. destruct v; simpl; try discriminate; eauto. Qed.

Lemma collect_results_filter (organic : list js_value) :
  Forall (fun item => not_nullish item = true) organic ->
  collect_results organic
  = Ok (List.map entry_of (List.filter wanted organic)).
Proof.
  induction 1 as [|item rest Hitem _ IH]; cbn [collect_results];
    [reflexivity|].
  rewrite (member_not_nullish _ _ Hitem), IH.
  cbn [List.filter]. fold (wanted item).
  destruct (wanted item); reflexivity.
Qed.

Lemma collect_results_throws (organic : list js_value) :
  Exists (fun item => not_nullish item = false) organic ->
  exists e, collect_results organic = Throw e.
Proof.
  induction organic as [|item rest IH]; intros Hex;
    [inversion Hex|].
  cbn [collect_results].
  destruct (not_nullish item) eqn:Hitem.
  - rewrite (member_not_nullish _ _ Hitem).
    inversion Hex as [? ? Hhead | ? ? Htail]; subst; [congruence|].
    destruct (IH Htail) as (e & ->). eauto.
  - destruct (member_nullish "link" item Hitem) as (e & ->). eauto.
Qed.

Lemma entry_of_fields (item : js_value) :
  wanted item = true ->
  Value.prop "id" (entry_of item) = Value.prop "link" item
  /\ Value.prop "url" (entry_of item) = Value.prop "link" item
  /\ Value.prop "title" (entry_of item) = Value.prop "title" item
  /\ Value.prop "text" (entry_of item)
     = or_value (Value.prop "description" item) (JString "").
Proof.
  unfold wanted. intros H. apply andb_true_iff in H as [Hlink Htitle].
  unfold entry_of, search_entry, or_value. rewrite Hlink, Htitle.
  repeat split.
Qed.

(** X13. What the [search] tool makes of the parsed answer: when
    [organic] is an array without null entries, the results are, in the
    order of the array, the entries that have a truthy link and a truthy
    title, each given as {id, title, text, url} with id and url the link,
    title the title and text the description or the empty text; so there
    are never more results than entries, and the fallbacks 'Untitled' and
    '' for title and url are never used.  Without an [organic] array
    the tool returns the text of the empty list; a null entry in the array
    makes the tool throw. *)
Theorem search_results_shape (searchData : js_value) :
  not_nullish searchData = true ->
  (forall organic,
      Value.prop "organic" searchData = JArray organic ->
      Forall (fun item => not_nullish item = true) organic ->
      search_results searchData
      = Ok (List.map entry_of (List.filter wanted organic))
      /\ (List.length (List.filter wanted organic)
          <= List.length organic)%nat
      /\ Forall (fun item =>
                   Value.prop "id" (entry_of item) = Value.prop "link" item
                   /\ Value.prop "url" (entry_of item)
                      = Value.prop "link" item
                   /\ Value.prop "title" (entry_of item)
                      = Value.prop "title" item
                   /\ Value.prop "text" (entry_of item)
                      = or_value (Value.prop "description" item)
                                 (JString ""))
                (List.filter wanted organic))
  /\ (forall organic,
         Value.prop "organic" searchData = JArray organic ->
         Exists (fun item => not_nullish item = false) organic ->
         exists e, search_results searchData = Throw e)
  /\ ((forall organic, Value.prop "organic" searchData <> JArray organic) ->
      forall JSON_parse text,
        JSON_parse text = Ok searchData ->
        search_response JSON_parse text = Ok "[]").
Proof.
  intros Hdata. split; [|split].
  - intros organic Horganic Hitems. unfold search_results.
    rewrite (member_not_nullish _ _ Hdata), Horganic.
    split; [now apply collect_results_filter|].
    split; [apply List.filter_length_le|].
    apply List.Forall_forall. intros item Hitem.
    apply List.filter_In in Hitem as [_ Hwanted].
    now apply entry_of_fields.
  - intros organic Horganic Hnull. unfold search_results.
    rewrite (member_not_nullish _ _ Hdata), Horganic.
    now apply collect_results_throws.
  - intros Hnone JSON_parse text Hparse.
    unfold search_response, search_results.
    rewrite Hparse, (member_not_nullish _ _ Hdata).
    destruct (Value.prop "organic" searchData) eqn:Horganic;
      try reflexivity.
    now destruct (Hnone items).
Qed.

Lemma search_results_shape_witness :
  search_results
    (JObject
       [("organic",
         JArray [JObject [("link", JString "https://a.example");
                          ("title", JString "A");
                          ("description", JString "first")];
                 JObject [("link", JString "https://b.example")];
                 JObject [("title", JString "C")];
                 JObject [("link", JString "https://d.example");
                          ("title", JString "D")]])])
  = Ok [JObject [("id", JString "https://a.example"); ("title", JString "A");
                 ("text", JString "first");
                 ("url", JString "https://a.example")];
        JObject [("id", JString "https://d.example"); ("title", JString "D");
                 ("text", JString "");
                 ("url", JString "https://d.example")]].
Proof.
  match goal with
  | |- search_results ?d = _ =>
      destruct (search_results_shape d eq_refl) as (Hshape & _ & _)
  end.
  match goal with
  | |- search_results (JObject [(_, JArray ?o)]) = _ =>
      destruct (Hshape o eq_refl) as (Hresults & _ & _);
        [repeat constructor | exact Hresults]
  end.
Defined.

(** ** The guard of the browser tools *)

(** X14. A browser tool is run only with a browser zone: when the
    session is absent or carries no browser zone, the wrapper throws
    "Browser tools require a browser zone. ..." and the tool's own function
    is not called.  For a session made by [authenticate] the guard always
    passes, since a zone is always chosen there: the tool's function is
    called with the session's token and the zone chosen at authentication. *)
Theorem browser_zone_guard {P R : Type} (params : P) (c : context) :
  (truthy_opt (session_field browserZone c) = false ->
   forall originalExecute : P -> browser_context -> result js_error R,
     browser_tool_execute originalExecute params c
     = Throw browser_zone_required)
  /\ (forall env req s,
         authenticate env req = Ok s ->
         session c = Some s ->
         forall originalExecute : P -> browser_context -> result js_error R,
           browser_tool_execute originalExecute params c
           = originalExecute params
               {| browser_ctx := c;
                  browser_apiToken := apiToken s;
                  browser_browserZone :=
                    chosen_zone (match_param "browser=" (request_url req))
                                (BROWSER_ZONE env) "mcp_browser" |}).
Proof.
  split.
  - intros Hnone originalExecute. unfold browser_tool_execute.
    destruct (session_field browserZone c) as [zone|]; [|reflexivity].
    cbn [truthy_opt] in Hnone. unfold truthy_string in Hnone.
    apply negb_false_iff in Hnone. now rewrite Hnone.
  - intros env req s Hauth Hsession originalExecute.
    destruct (authenticate_session env req s Hauth) as (tok & _ & Hs).
    unfold browser_tool_execute, session_field. rewrite Hsession, Hs.
    cbn [browserZone apiToken].
    pose proof (chosen_zone_nonempty (request_url req) "browser="
                  (BROWSER_ZONE env) "mcp_browser" ltac:(discriminate))
      as Hzone.
    apply is_empty_false in Hzone. now rewrite Hzone.
Qed.

Lemma browser_zone_guard_witness :
  browser_tool_execute
    (fun (_ : unit) bc => @Ok js_error string (browser_browserZone bc)) tt
    {| session := Some {| apiToken := Some "key";
                          unlockerZone := Some "mcp_unlocker";
                          browserZone := Some "" |};
       reportProgress := None |}
  = Throw browser_zone_required
  /\ browser_tool_execute
       (fun (_ : unit) bc => @Ok js_error string (browser_browserZone bc)) tt
       {| session := Some {| apiToken := Some "key";
                             unlockerZone := Some "mcp_unlocker";
                             browserZone := Some "mcp_browser" |};
          reportProgress := None |}
     = Ok "mcp_browser".
Proof.
  split.
  - apply (proj1 (browser_zone_guard tt _)). reflexivity.
  - set (s := {| apiToken := Some "key";
                 unlockerZone := Some "mcp_unlocker";
                 browserZone := Some "mcp_browser" |}).
    rewrite (proj2 (browser_zone_guard tt
                      {| session := Some s; reportProgress := None |})
               {| WEB_UNLOCKER_ZONE := None; BROWSER_ZONE := None;
                  RATE_LIMIT := None |}
               {| url := Some "/mcp?token=key"; authorization := None |}
               s eq_refl eq_refl).
    reflexivity.
Defined.

(** ** Zone provisioning *)

Section Zones.

Variable pkg : package_json.
Variable loosely_equals : js_value -> string -> bool.
Variable api : axios_config -> http_outcome.
Variables apiToken unlockerZone : string.

Hypothesis loosely_equals_text :
  forall s t, loosely_equals (JString s) t = String.eqb s t.

Lemma some_zone_named_found (before after : list js_value)
    (zone : js_value) :
  Forall (fun z => not_nullish z = true) before ->
  zone_named unlockerZone zone ->
  some_zone_named loosely_equals unlockerZone (before ++ zone :: after)
  = Ok true.
Proof.
  intros Hbefore (fields & -> & Hname).
  induction Hbefore as [|z before Hz _ IH]; cbn [List.app some_zone_named].
  - cbn [member Value.prop]. rewrite Hname, loosely_equals_text.
    now rewrite String.eqb_refl.
  - rewrite (member_not_nullish _ _ Hz).
    destruct (loosely_equals _ _); [reflexivity | exact IH].
Qed.

Lemma some_zone_named_absent (zones : list js_value) :
  Forall (fun z => exists other,
                     zone_named other z /\ other <> unlockerZone) zones ->
  some_zone_named loosely_equals unlockerZone zones = Ok false.
Proof.
  induction 1 as [|z zones (other & (fields & -> & Hname) & Hother) _ IH];
    cbn [some_zone_named]; [reflexivity|].
  cbn [member Value.prop]. rewrite Hname, loosely_equals_text.
  apply String.eqb_neq in Hother. now rewrite Hother.
Qed.

Lemma zone_requests_shape :
  snd (ensure_required_zones pkg loosely_equals api apiToken unlockerZone)
  = [get_active_zones pkg apiToken]
  \/ (snd (ensure_required_zones pkg loosely_equals api apiToken unlockerZone)
      = [get_active_zones pkg apiToken;
         create_zone pkg apiToken unlockerZone]
      /\ exists body zones,
           api (get_active_zones pkg apiToken) = Resolved body
           /\ or_value body (JArray []) = JArray zones
           /\ some_zone_named loosely_equals unlockerZone zones = Ok false).
Proof.
  unfold ensure_required_zones.
  destruct (api (get_active_zones pkg apiToken)) as [body|e];
    [|now left].
  destruct (or_value body (JArray [])) as [| | | | |zones|] eqn:Hzones;
    try now left.
  destruct (some_zone_named loosely_equals unlockerZone zones)
    as [[|]|e] eqn:Hsome; try now left.
  right. split.
  - now destruct (api (create_zone pkg apiToken unlockerZone)).
  - now exists body, zones.
Qed.

End Zones.

(** X15. Zone provisioning sends the listing request first and at most
    one creation request after it, for the unlocker zone and with the type
    'unblocker'; it creates nothing when the listing fails, and nothing when
    the listing holds an entry named like the zone (with no null entry
    before it); it does send the creation request when the listing is
    empty or absent or holds only entries with other names. *)
Theorem zone_provisioning (pkg : package_json)
    (loosely_equals : js_value -> string -> bool)
    (api : axios_config -> http_outcome) (apiToken unlockerZone : string) :
  (forall s t, loosely_equals (JString s) t = String.eqb s t) ->
  let out :=
    ensure_required_zones pkg loosely_equals api apiToken unlockerZone in
  let listing := get_active_zones pkg apiToken in
  let creation := create_zone pkg apiToken unlockerZone in
  (snd out = [listing] \/ snd out = [listing; creation])
  /\ Value.prop "name" (Value.prop "zone" (axios_data creation))
     = JString unlockerZone
  /\ (forall e, api listing = Rejected e -> snd out = [listing])
  /\ (forall before zone after,
         api listing = Resolved (JArray (before ++ zone :: after)) ->
         Forall (fun z => not_nullish z = true) before ->
         zone_named unlockerZone zone ->
         out = (ZoneExists, [listing]))
  /\ (forall body zones,
         api listing = Resolved body ->
         or_value body (JArray []) = JArray zones ->
         Forall (fun z => exists other,
                            zone_named other z /\ other <> unlockerZone)
                zones ->
         snd out = [listing; creation]
         /\ (forall answer, api creation = Resolved answer ->
                            fst out = ZoneCreated)).
Proof.
  intros Htext out listing creation. subst out listing creation.
  split; [|split; [reflexivity|split; [|split]]].
  - destruct (zone_requests_shape pkg loosely_equals api apiToken
                unlockerZone) as [H | [H _]]; auto.
  - intros e Hlisting. unfold ensure_required_zones. now rewrite Hlisting.
  - intros before zone after Hlisting Hbefore Hzone.
    unfold ensure_required_zones. rewrite Hlisting.
    cbn [or_value Value.truthy].
    now rewrite (some_zone_named_found loosely_equals unlockerZone Htext
                   before after zone Hbefore Hzone).
  - intros body zones Hlisting Hzones Hothers.
    unfold ensure_required_zones. rewrite Hlisting, Hzones.
    rewrite (some_zone_named_absent loosely_equals unlockerZone Htext
               zones Hothers).
    split.
    + now destruct (api (create_zone pkg apiToken unlockerZone)).
    + intros answer Hcreated. now rewrite Hcreated.
Qed.

Lemma zone_provisioning_witness :
  let pkg := {| package_name := "@brightdata/mcp";
                package_version := "1.0.0" |} in
  let eq_text := fun v t => Value.is_string t v in
  let listed :=
    fun _ : axios_config =>
      Resolved (JArray [JObject [("name", JString "static");
                                 ("type", JString "static")];
                        JObject [("name", JString "mcp_unlocker");
                                 ("type", JString "unblocker")]]) in
  let empty :=
    fun request : axios_config =>
      if String.eqb (axios_method request) "GET"
      then Resolved JUndefined else Resolved (JObject []) in
  ensure_required_zones pkg eq_text listed "key" "mcp_unlocker"
  = (ZoneExists, [get_active_zones pkg "key"])
  /\ ensure_required_zones pkg eq_text empty "key" "mcp_unlocker"
     = (ZoneCreated,
        [get_active_zones pkg "key"; create_zone pkg "key" "mcp_unlocker"]).
Proof.
  intros pkg eq_text listed empty. split.
  - destruct (zone_provisioning pkg eq_text listed "key" "mcp_unlocker")
      as (_ & _ & _ & Hexists & _).
    + intros s t. reflexivity.
    + apply (Hexists [JObject [("name", JString "static");
                               ("type", JString "static")]]
               (JObject [("name", JString "mcp_unlocker");
                         ("type", JString "unblocker")]) []).
      * reflexivity.
      * repeat constructor.
      * now eexists.
  - destruct (zone_provisioning pkg eq_text empty "key" "mcp_unlocker")
      as (_ & _ & _ & _ & Hcreate).
    + intros s t. reflexivity.
    + destruct (Hcreate JUndefined [] eq_refl eq_refl ltac:(constructor))
        as [Hrequests Hcreated].
      specialize (Hcreated (JObject []) eq_refl).
      rewrite <- Hrequests, <- Hcreated. now destruct (ensure_required_zones _ _ _ _ _).
Defined.

(** ** Usage statistics *)

(** X16. The [session_stats] tool counts its own invocation: called
    through the wrapper with a session token, after a check that passes, it
    returns the heading line followed by one line per tool used so far, and
    among them the line of [session_stats] itself with its count already
    raised by this call. *)
Theorem session_stats_counts_itself {D : Type}
    (Object_entries : gmap string Z -> list (string * Z))
    (env : process_env) (cfg : option rate_limit_config) (now : Z)
    (args : D) (c : context) (st : debug_stats) (tok : string) :
  (forall calls, Object_entries calls ≡ₚ map_to_list calls) ->
  accepted (fst (check_rate_limit cfg now st)) = true ->
  session_field apiToken c = Some tok -> tok <> "" ->
  exists lines,
    fst (tool_fn env cfg "session_stats" (session_stats Object_entries)
           now args c st)
    = Ok (Value.join (String newline "")
            ("Tool calls this session:" :: lines))
    /\ In ("- session_stats tool: called "
           ++ number_to_string
                (Num (default 0 (tool_calls st !! "session_stats") + 1))
           ++ " times") lines
    /\ List.length lines
       = size (increment (tool_calls st) "session_stats").
Proof.
  intros Hentries Hacc Htok Hne.
  rewrite (tool_fn_runs env cfg "session_stats" (session_stats Object_entries)
             now args c st tok Hacc Htok Hne).
  unfold session_stats, stats_lines. cbn [fst].
  rewrite count_call_tool_calls.
  destruct (check_keeps_counters cfg now st) as [-> _].
  fold (increment (tool_calls st) "session_stats").
  exists (List.map stats_line
            (Object_entries (increment (tool_calls st) "session_stats"))).
  split; [reflexivity|]. split.
  - apply (List.in_map stats_line _
             ("session_stats",
              default 0 (tool_calls st !! "session_stats") + 1)).
    apply (proj1 (list_elem_of_In _ _)). rewrite Hentries.
    apply elem_of_map_to_list. unfold increment. apply lookup_insert_eq.
  - rewrite List.length_map, Hentries. apply length_map_to_list.
Qed.

Lemma session_stats_counts_itself_witness :
  exists lines,
    fst (tool_fn
           {| WEB_UNLOCKER_ZONE := None; BROWSER_ZONE := None;
              RATE_LIMIT := None |}
           None "session_stats" (session_stats map_to_list) 0 tt
           {| session := Some {| apiToken := Some "key";
                                 unlockerZone := None;
                                 browserZone := None |};
              reportProgress := None |} initial_stats)
    = Ok (Value.join (String newline "")
            ("Tool calls this session:" :: lines))
    /\ In "- session_stats tool: called 1 times" lines.
Proof.
  destruct (session_stats_counts_itself (D := unit) map_to_list
              {| WEB_UNLOCKER_ZONE := None; BROWSER_ZONE := None;
                 RATE_LIMIT := None |}
              None 0 tt
              {| session := Some {| apiToken := Some "key";
                                    unlockerZone := None;
                                    browserZone := None |};
                 reportProgress := None |} initial_stats "key")
    as (lines & Hout & Hin & _);
    [reflexivity | reflexivity | reflexivity | discriminate |].
  exists lines. split; [exact Hout|].
  cbn [initial_stats tool_calls] in Hin. rewrite lookup_empty in Hin.
  exact Hin.
Defined.

(** ** The cursor of a search *)

Lemma parseInt_leading_digits (digits rest : string) :
  is_number_text digits -> stops is_digit rest ->
  hex_prefix (digits ++ rest) = false ->
  parseInt (digits ++ rest) = to_double (decimal_value digits).
Proof.
  intros [Hne Hall] Hstop Hhex. destruct digits as [|c r]; [congruence|].
  pose proof Hall as Hall'. simpl in Hall'.
  apply andb_true_iff in Hall' as [Hc Hr].
  unfold parseInt. cbn [String.append].
  replace (trim_start (String c (r ++ rest))) with (String c (r ++ rest))
    by (simpl; now rewrite (digit_not_space c Hc)).
  rewrite (digit_no_sign c _ Hc).
  assert (Hradix : strip_radix (String c (r ++ rest))
                   = (10, String c (r ++ rest))).
  { cbn [String.append] in Hhex. unfold strip_radix, hex_prefix in *.
    destruct c as [[] [] [] [] [] [] [] []]; try reflexivity.
    destruct (r ++ rest) as [|d tail]; try reflexivity.
    destruct d as [[] [] [] [] [] [] [] []]; try reflexivity;
      discriminate Hhex. }
  rewrite Hradix.
  assert (Hspan : span (is_radix_digit 10) (String c r ++ rest)
                  = (String c r, rest)).
  { apply span_run; [exact Hall | exact Hstop]. }
  cbn [String.append] in Hspan. cbv zeta. rewrite Hspan.
  cbn [fst is_empty]. rewrite (digits_value_fold _ 0 Hall).
  unfold decimal_value. f_equal. lia.
Qed.

Lemma parseInt_negative (digits : string) :
  is_number_text digits ->
  parseInt (String "-" digits) = to_double (- decimal_value digits).
Proof.
  intros [Hne Hall]. unfold parseInt.
  change (trim_start (String "-" digits)) with (String "-" digits).
  change (strip_sign (String "-" digits)) with (-1, digits).
  cbv beta iota. rewrite (digits_no_radix _ Hall).
  assert (Hspan : span (is_radix_digit 10) digits = (digits, "")).
  { rewrite <- (app_empty_r digits) at 1.
    apply span_run; [exact Hall | exact I]. }
  cbv zeta. rewrite Hspan. cbn [fst].
  apply is_empty_false in Hne. rewrite Hne.
  rewrite (digits_value_fold _ 0 Hall). unfold decimal_value. f_equal.
Qed.

Lemma parseInt_not_a_number (c : ascii) (rest : string) :
  is_digit c = false -> is_space c = false ->
  c <> "-"%char -> c <> "+"%char ->
  parseInt (String c rest) = NaN.
Proof.
  intros Hdigit Hspace Hminus Hplus. unfold parseInt.
  replace (trim_start (String c rest)) with (String c rest)
    by (simpl; now rewrite Hspace).
  assert (Hsign : strip_sign (String c rest) = (1, String c rest)).
  { unfold strip_sign.
    destruct c as [[] [] [] [] [] [] [] []]; try reflexivity;
      congruence. }
  rewrite Hsign.
  assert (Hradix : strip_radix (String c rest) = (10, String c rest)).
  { unfold strip_radix.
    destruct c as [[] [] [] [] [] [] [] []]; try reflexivity;
      discriminate Hdigit. }
  rewrite Hradix. cbv zeta.
  assert (Hfirst : is_radix_digit 10 c = false) by exact Hdigit.
  cbn [span]. now rewrite Hfirst.
Qed.

(** X17. How [search_url] reads the cursor: only the leading decimal
    digits count (a cursor such as 2abc is page 2); a cursor made of a minus
    sign and digits whose value times ten is below 2^53 gives the negative
    page and so the negative offset; and a cursor that begins with any
    other character gives the text NaN as the page or offset of the URL,
    for every engine. *)
Theorem search_url_cursor (engine : string) (query : list Z) :
  (forall digits rest,
      is_number_text digits -> stops is_digit rest ->
      hex_prefix (digits ++ rest) = false ->
      search_url engine query (Some (digits ++ rest))
      = search_url engine query (Some digits))
  /\ (forall digits q,
         is_number_text digits ->
         decimal_value digits * 10 < 2 ^ 53 ->
         encodeURIComponent query = Ok q ->
         search_url "google" query (Some (String "-" digits))
         = Ok ("https://www.google.com/search?q=" ++ q ++ "&start="
               ++ number_to_string (Num (- decimal_value digits * 10))))
  /\ (forall c rest q,
         is_digit c = false -> is_space c = false ->
         c <> "-"%char -> c <> "+"%char ->
         encodeURIComponent query = Ok q ->
         search_url "yandex" query (Some (String c rest))
         = Ok ("https://yandex.com/search/?text=" ++ q ++ "&p=NaN")
         /\ search_url "bing" query (Some (String c rest))
            = Ok ("https://www.bing.com/search?q=" ++ q ++ "&first=NaN")
         /\ search_url "google" query (Some (String c rest))
            = Ok ("https://www.google.com/search?q=" ++ q ++ "&start=NaN")).
Proof.
  split; [|split].
  - intros digits rest Hdigits Hstop Hhex.
    assert (Hpage : page_of (Some (digits ++ rest)) = page_of (Some digits)).
    { rewrite (page_of_number_text _ Hdigits).
      unfold page_of, truthy_opt, truthy_string.
      destruct Hdigits as [Hne Hall].
      replace (is_empty (digits ++ rest)) with false
        by (destruct digits; [congruence | reflexivity]).
      cbn [negb]. now apply parseInt_leading_digits. }
    unfold search_url. now rewrite Hpage.
  - intros digits q Hdigits Hbound Hq. unfold search_url. rewrite Hq.
    cbn [String.eqb Ascii.eqb Bool.eqb].
    unfold page_of. cbn [truthy_opt truthy_string is_empty negb].
    rewrite (parseInt_negative _ Hdigits).
    pose proof (decimal_value_nonneg _ (proj2 Hdigits)) as Hn.
    rewrite (to_double_safe (- decimal_value digits))
      by (unfold safe_integer; lia).
    cbn [mul]. rewrite (to_double_safe (- decimal_value digits * 10))
      by (unfold safe_integer; lia).
    reflexivity.
  - intros c rest q Hdigit Hspace Hminus Hplus Hq.
    assert (Hpage : page_of (Some (String c rest)) = NaN).
    { unfold page_of. cbn [truthy_opt truthy_string is_empty negb].
      now apply parseInt_not_a_number. }
    unfold search_url. rewrite Hq, Hpage. repeat split.
Qed.

Lemma search_url_cursor_witness :
  search_url "bing" (code_units "cats") (Some "2abc")
  = Ok "https://www.bing.com/search?q=cats&first=21"
  /\ search_url "google" (code_units "cats") (Some "-3")
     = Ok "https://www.google.com/search?q=cats&start=-30"
  /\ search_url "yandex" (code_units "cats") (Some "next")
     = Ok "https://yandex.com/search/?text=cats&p=NaN".
Proof.
  destruct (search_url_cursor "bing" (code_units "cats"))
    as (Hprefix & _ & _).
  destruct (search_url_cursor "google" (code_units "cats"))
    as (_ & Hminus & Hnan).
  split; [|split].
  - etransitivity; [|reflexivity].
    apply (Hprefix "2" "abc"); [|reflexivity | reflexivity].
    split; [discriminate | reflexivity].
  - etransitivity; [|reflexivity].
    apply (Hminus "3" "cats"); [|reflexivity | reflexivity].
    split; [discriminate | reflexivity].
  - destruct (Hnan "n"%char "ext" "cats") as (Hy & _ & _);
      [reflexivity | reflexivity | discriminate | discriminate
      | reflexivity |].
    exact Hy.
Defined.

(** ** More on the counters and on refusals *)

Lemma increment_lookup (calls : gmap string Z) (n name : string) :
  increment calls n !! name
  = if decide (n = name) then Some (default 0 (calls !! n) + 1)
    else calls !! name.
Proof. unfold increment. apply lookup_insert. Qed.

Lemma fold_increment_untouched (names : list string)
    (calls : gmap string Z) (name : string) :
  ~ In name names ->
  List.fold_left increment names calls !! name = calls !! name.
Proof.
  revert calls. induction names as [|n names IH]; intros calls Hnot;
    cbn [List.fold_left]; [reflexivity|].
  rewrite IH by (intros Hin; apply Hnot; now right).
  rewrite increment_lookup. destruct (decide (n = name)) as [->|]; [|reflexivity].
  exfalso. apply Hnot. now left.
Qed.

Lemma fold_increment_counts (names : list string) (calls : gmap string Z)
    (name : string) :
  In name names ->
  List.fold_left increment names calls !! name
  = Some (default 0 (calls !! name)
          + Z.of_nat (List.count_occ String.string_dec names name)).
Proof.
  revert calls. induction names as [|n names IH]; intros calls Hin;
    [destruct Hin|].
  cbn [List.fold_left List.count_occ].
  destruct (String.string_dec n name) as [-> | Hne].
  - destruct (List.in_dec String.string_dec name names) as [Hmore | Hlast].
    + rewrite (IH _ Hmore), increment_lookup.
      destruct (decide (name = name)); [|congruence]. cbn [default].
      f_equal; unfold id; lia.
    + rewrite (fold_increment_untouched _ _ _ Hlast), increment_lookup.
      destruct (decide (name = name)); [|congruence].
      rewrite (proj1 (List.count_occ_not_In String.string_dec names name)
                 Hlast).
      f_equal; unfold id; lia.
  - destruct Hin as [Heq | Hmore]; [congruence|].
    rewrite (IH _ Hmore), increment_lookup.
    destruct (decide (n = name)); [congruence | reflexivity].
Qed.

(** X18. The usage counters count invocations: after any run of
    wrapped tool invocations in a fresh process, none of them refused by
    the rate limiter, the counter of each tool is the number of times it
    was invoked, a tool that was not invoked has no counter, and the
    session total is the number of invocations, whether the tools
    succeeded or failed. *)
Theorem usage_counts_occurrences {D R : Type} (env : process_env)
    (cfg : option rate_limit_config) (fn : tool_logic D R) (args : D)
    (c : context) (calls : list (string * Z)) :
  Forall (fun b => b = true)
         (fst (run_checks cfg (List.map snd calls) initial_stats)) ->
  let final := run_tools env cfg fn calls args c initial_stats in
  (forall name,
      In name (List.map fst calls) ->
      tool_calls final !! name
      = Some (Z.of_nat (List.count_occ String.string_dec
                          (List.map fst calls) name)))
  /\ (forall name,
         ~ In name (List.map fst calls) -> tool_calls final !! name = None)
  /\ session_calls final = Z.of_nat (List.length calls).
Proof.
  intros Hall final. subst final.
  destruct (run_tools_counters env cfg fn args c calls initial_stats
              initial_stats eq_refl Hall) as [Hcalls Htotal].
  rewrite Hcalls, Htotal. cbn [initial_stats tool_calls session_calls].
  split; [|split].
  - intros name Hin. rewrite (fold_increment_counts _ _ _ Hin).
    rewrite lookup_empty. cbn [default]. f_equal.
  - intros name Hnot. rewrite (fold_increment_untouched _ _ _ Hnot).
    apply lookup_empty.
  - lia.
Qed.

Lemma usage_counts_occurrences_witness :
  let final :=
    run_tools
      {| WEB_UNLOCKER_ZONE := None; BROWSER_ZONE := None;
         RATE_LIMIT := None |}
      None (fun (_ : unit) _ _ => @Throw js_error string (Error "down"))
      [("fetch", 1); ("search", 2); ("fetch", 3)] tt
      {| session := None; reportProgress := None |} initial_stats in
  tool_calls final !! "fetch" = Some 2 /\ session_calls final = 3.
Proof.
  intros final.
  destruct (usage_counts_occurrences
              {| WEB_UNLOCKER_ZONE := None; BROWSER_ZONE := None;
                 RATE_LIMIT := None |}
              None (fun (_ : unit) _ _ => @Throw js_error string (Error "down"))
              tt {| session := None; reportProgress := None |}
              [("fetch", 1); ("search", 2); ("fetch", 3)])
    as (Hcount & _ & Htotal).
  - repeat constructor.
  - split; [|exact Htotal].
    apply (Hcount "fetch"). right; right; left. reflexivity.
Defined.

Lemma kept_at_twice (W now t : Z) (timestamps : list Z) :
  now <= t ->
  kept_at W t (kept_at W now timestamps) = kept_at W t timestamps.
Proof.
  intros Hle. unfold kept_at.
  induction timestamps as [|x xs IH]; simpl; [reflexivity|].
  destruct (now - W <? x) eqn:E1; simpl; destruct (t - W <? x) eqn:E2;
    try (now rewrite IH); lia.
Qed.

(** X19. A refused call costs the caller nothing: it records no
    instant, so a check made at the same or a later instant behaves exactly
    as if the refused call had never been made (same outcome, same state
    afterwards). *)
Theorem refused_call_leaves_no_trace (cfg : rate_limit_config) (N W : Z)
    (now later : Z) (st : debug_stats) :
  limit cfg = Num N -> window cfg = Num W ->
  accepted (fst (check_rate_limit (Some cfg) now st)) = false ->
  now <= later ->
  check_rate_limit (Some cfg) later (snd (check_rate_limit (Some cfg) now st))
  = check_rate_limit (Some cfg) later st.
Proof.
  intros HN HW Hrefused Hle.
  rewrite (check_rate_limit_unfold cfg N W HN HW now st) in *.
  destruct (N <=? Z.of_nat (List.length
                              (kept_at W now (call_timestamps st))));
    [|discriminate Hrefused].
  cbn [snd]. rewrite !(check_rate_limit_unfold cfg N W HN HW later).
  cbn [call_timestamps tool_calls session_calls].
  now rewrite (kept_at_twice W now later _ Hle).
Qed.

Lemma refused_call_leaves_no_trace_witness :
  let cfg := {| limit := Num 1; window := Num 1000; display := "1/1s" |} in
  let st := snd (check_rate_limit (Some cfg) 0 initial_stats) in
  accepted (fst (check_rate_limit (Some cfg) 999 st)) = false
  /\ fst (check_rate_limit (Some cfg) 1000
            (snd (check_rate_limit (Some cfg) 999 st)))
     = Ok true.
Proof.
  intros cfg st. split; [reflexivity|].
  rewrite (refused_call_leaves_no_trace cfg 1 1000 999 1000 st
             eq_refl eq_refl eq_refl ltac:(lia)).
  reflexivity.
Defined.
